(** * CC-cli: date resolution and commit sequencing

    A shallow embedding of the command line tool's entry point ([mod.ts]),
    of [src/L_time.ts], [src/date_to_commit.ts], [src/L_git.ts] and of the
    parts of the JavaScript [Date] object and of [date-fns] they rely on,
    followed by the properties of the resolver fold and of the
    snapshot / apply / hard-reset sequence.  The flag tables and the
    post-processing of [src/config.ts], the duplicate check of
    [test/config_test.ts] and the logger of [src/U_logger.ts] come with
    their own properties in Part III.

    Conventions.
    - A JavaScript time value is an integer number of milliseconds since the
      epoch, or NaN; a [Date] is [option Z], [None] being the Invalid Date.
      Every integer a [Date] can hold is below 2^53, so the arithmetic of the
      source is exact on them and [Z] models it.
    - The host time zone is a fixed offset [tz], the value (in minutes) that
      [getTimezoneOffset] returns; zones with daylight-saving transitions are
      outside the model.
    - [null] is the outer [None] of an [option Date]. *)

From Stdlib Require Import ZArith List String Ascii Bool Lia.
From Stdlib Require Import DecimalString.
Import ListNotations.
Open Scope Z_scope.

(* ================================================================== *)
(** * Part I: definitions *)
(* ================================================================== *)

(** ** ECMAScript time values (ECMA-262, "Time Values and Time Range") *)
Module JSDate.

Definition Date := option Z.

Definition msPerMinute : Z := 60000.
Definition msPerHour : Z := 3600000.
Definition msPerDay : Z := 86400000.
Definition maxTime : Z := 8640000000000000.

(** [TimeClip]: a time value beyond 8.64e15 ms is NaN. *)
Definition TimeClip (t : Z) : Date :=
  if Z.abs t <=? maxTime then Some t else None.

Definition Day (t : Z) : Z := t / msPerDay.
Definition TimeWithinDay (t : Z) : Z := t mod msPerDay.

Definition DayFromYear (y : Z) : Z :=
  365 * (y - 1970) + (y - 1969) / 4 - (y - 1901) / 100 + (y - 1601) / 400.

Definition isLeapYear (y : Z) : bool :=
  (y mod 400 =? 0) || ((y mod 4 =? 0) && negb (y mod 100 =? 0)).

Definition DaysInYear (y : Z) : Z := if isLeapYear y then 366 else 365.

(** The year containing day number [d]: the largest [y] with
    [DayFromYear y <= d] (lemma [YearFromDay_spec] below).  The first
    guess is off by at most one. *)
Definition YearFromDay (d : Z) : Z :=
  let g := 1970 + (400 * d) / 146097 in
  if d <? DayFromYear g then g - 1
  else if DayFromYear (g + 1) <=? d then g + 1
  else g.

Definition YearFromTime (t : Z) : Z := YearFromDay (Day t).
Definition InLeapYear (t : Z) : bool := isLeapYear (YearFromTime t).
Definition DayWithinYear (t : Z) : Z := Day t - DayFromYear (YearFromTime t).

(** Day number within the year of the first day of month [m] (0-based). *)
Definition monthStart (leap : bool) (m : Z) : Z :=
  let l := if leap then 1 else 0 in
  match m with
  | 0 => 0 | 1 => 31 | 2 => 59 + l | 3 => 90 + l | 4 => 120 + l
  | 5 => 151 + l | 6 => 181 + l | 7 => 212 + l | 8 => 243 + l
  | 9 => 273 + l | 10 => 304 + l | _ => 334 + l
  end.

Definition monthOfDayInYear (leap : bool) (d : Z) : Z :=
  let l := if leap then 1 else 0 in
  if d <? 31 then 0 else if d <? 59 + l then 1 else if d <? 90 + l then 2
  else if d <? 120 + l then 3 else if d <? 151 + l then 4
  else if d <? 181 + l then 5 else if d <? 212 + l then 6
  else if d <? 243 + l then 7 else if d <? 273 + l then 8
  else if d <? 304 + l then 9 else if d <? 334 + l then 10 else 11.

Definition MonthFromTime (t : Z) : Z :=
  monthOfDayInYear (InLeapYear t) (DayWithinYear t).

Definition DateFromTime (t : Z) : Z :=
  DayWithinYear t - monthStart (InLeapYear t) (MonthFromTime t) + 1.

Definition HourFromTime (t : Z) : Z := (t / msPerHour) mod 24.
Definition MinFromTime (t : Z) : Z := (t / msPerMinute) mod 60.
Definition SecFromTime (t : Z) : Z := (t / 1000) mod 60.
Definition msFromTime (t : Z) : Z := t mod 1000.

Definition MakeDay (year month date : Z) : Z :=
  let ym := year + month / 12 in
  let mn := month mod 12 in
  DayFromYear ym + monthStart (isLeapYear ym) mn + date - 1.

Definition MakeDate (day time : Z) : Z := day * msPerDay + time.

Section Zone.
(** The value of [getTimezoneOffset()], in minutes (UTC minus local). *)
Variable tz : Z.

Definition LocalTime (t : Z) : Z := t - tz * msPerMinute.
Definition UTC (t : Z) : Z := t + tz * msPerMinute.

(** [Date.prototype.getX]: NaN on the Invalid Date. *)
Definition getTime (d : Date) : option Z := d.
Definition getTimezoneOffset (d : Date) : option Z :=
  option_map (fun _ => tz) d.
Definition getFullYear (d : Date) : option Z :=
  option_map (fun t => YearFromTime (LocalTime t)) d.
Definition getDate (d : Date) : option Z :=
  option_map (fun t => DateFromTime (LocalTime t)) d.

(** [date.setDate(dt)] and [date.setFullYear(y)]: the other local fields
    are kept, the result is clipped. *)
Definition setDate (d : Date) (dt : Z) : Date :=
  match d with
  | None => None
  | Some t =>
      let lt := LocalTime t in
      TimeClip (UTC (MakeDate
        (MakeDay (YearFromTime lt) (MonthFromTime lt) dt)
        (TimeWithinDay lt)))
  end.

Definition setFullYear (d : Date) (y : Z) : Date :=
  match d with
  | None => None
  | Some t =>
      let lt := LocalTime t in
      TimeClip (UTC (MakeDate
        (MakeDay y (MonthFromTime lt) (DateFromTime lt))
        (TimeWithinDay lt)))
  end.

(** Local midnight of the calendar day [y]-[m]-[d] ([m] is 1-based). *)
Definition localMidnight (y m d : Z) : Date :=
  TimeClip (UTC (MakeDate (MakeDay y (m - 1) d) 0)).
End Zone.

(** The UTC fields [toISOString] prints. *)
Record fields := mkFields
  { f_year : Z; f_month : Z; f_date : Z;
    f_hours : Z; f_minutes : Z; f_seconds : Z; f_ms : Z }.

Definition utcFields (t : Z) : fields :=
  {| f_year := YearFromTime t; f_month := MonthFromTime t;
     f_date := DateFromTime t; f_hours := HourFromTime t;
     f_minutes := MinFromTime t; f_seconds := SecFromTime t;
     f_ms := msFromTime t |}.

End JSDate.

(** ** Exceptions and results *)

(** One constructor per [throw] site of the sources; the messages are the
    ones of the source, with interpolated values kept as arguments. *)
Inductive error : Type :=
  (* mod.ts *)
  | GitUnavailable           (* 'Aborting, cannot continue without Git, ...' *)
  | RepositoryNotClean       (* 'Aborting, repository is not clean, ...' *)
  | InvalidDirection         (* 'Invalid direction flag. ...' *)
  | NoPreviousDateOnly       (* 'PREVIOUS DATE (ONLY DATE) VARIABLE HAS NO VALUE ...' *)
  | RelativeBeforeAnyDate    (* 'Relative date adjustment is used before any date has been provided.' *)
  | NoPreviousDate           (* 'PREVIOUS DATE (FULL TIME) VARIABLE HAS NO VALUE ...' *)
  | InvalidInputFormat       (* 'Invalid input format. Expected a date string ...' *)
  (* the JavaScript runtime and date-fns *)
  | InvalidTimeValue         (* RangeError: Invalid time value *)
  | SpawnFailed (msg : string)  (* Deno.Command(...).output() rejected *)
  (* src/date_to_commit.ts *)
  | DateBefore1970           (* 'Date cannot be before 1970.' *)
  | DateAfter (future : option Z)  (* `Date cannot be after ${future}.` *)
  | DateNotAcceptable (date : string) (cause : error)
  | CommitFailed (date : string) (cause : error)
  (* src/L_git.ts *)
  | InitError (cause : error)
  | IsRepositoryError (cause : error)
  | IsCleanError (cause : error)
  | InitialCommitError (cause : error)
  | EchoError (date : string) (cause : error)
  | GitAddError (date : string) (cause : error)
  | GitCommitError (date : string) (cause : error)
  | CountError (cause : error)
  | ResetError (cause : error)
  | CleanError (cause : error)
  | CurrentHashError (cause : error)
  | HardResetError (commitHash : string) (cause : error).

Inductive result (A : Type) : Type :=
  | Ok (a : A)
  | Throw (e : error).
Arguments Ok {A} a.
Arguments Throw {A} e.

Definition rbind {A B} (r : result A) (k : A -> result B) : result B :=
  match r with
  | Ok a => k a
  | Throw e => Throw e
  end.

(** ** Strings and JavaScript numbers *)
Module JS.

(** A number that may be NaN. *)
Definition num := option Z.

Definition neg (n : num) : num := option_map Z.opp n.
Definition ltb (a b : num) : bool :=
  match a, b with Some x, Some y => x <? y | _, _ => false end.
Definition gtb (a b : num) : bool := ltb b a.
(** [a === b] on a time value and the result of [x?.getTime()], which is
    [undefined] (outer [None]) when [x] is [null]. *)
Definition strictEq (a : num) (b : option num) : bool :=
  match a, b with Some x, Some (Some y) => x =? y | _, _ => false end.

Definition isDigit (c : ascii) : bool :=
  let n := nat_of_ascii c in (48 <=? n)%nat && (n <=? 57)%nat.
Definition digitVal (c : ascii) : Z := Z.of_nat (nat_of_ascii c) - 48.

Fixpoint allDigits (s : string) : bool :=
  match s with
  | EmptyString => true
  | String c r => isDigit c && allDigits r
  end.

Fixpoint digitsValue (acc : Z) (s : string) : Z :=
  match s with
  | EmptyString => acc
  | String c r => digitsValue (10 * acc + digitVal c) r
  end.

Fixpoint digitPrefix (s : string) : string :=
  match s with
  | EmptyString => EmptyString
  | String c r => if isDigit c then String c (digitPrefix r) else EmptyString
  end.

(** White space and line terminators; a string is a sequence of code
    units below 256. *)
Definition isSpace (c : ascii) : bool :=
  let n := nat_of_ascii c in
  ((9 <=? n)%nat && (n <=? 13)%nat) || (n =? 32)%nat || (n =? 160)%nat.

Fixpoint trimStart (s : string) : string :=
  match s with
  | EmptyString => EmptyString
  | String c r => if isSpace c then trimStart r else s
  end.

Fixpoint trimEnd (s : string) : string :=
  match s with
  | EmptyString => EmptyString
  | String c r =>
      match trimEnd r with
      | EmptyString => if isSpace c then EmptyString else String c EmptyString
      | r' => String c r'
      end
  end.

(** [s.trim()] *)
Definition trim (s : string) : string := trimEnd (trimStart s).

(** [parseInt(s, 10)]: leading white space, an optional sign, then the
    longest run of decimal digits; NaN when there is none.  Above 2^53 the
    source rounds to a double (and reaches Infinity past 309 digits);
    every such value sends [addDays] out of the time range just as the
    exact integer does. *)
Definition parseInt (s : string) : num :=
  let s' := trimStart s in
  let '(sign, rest) :=
    match s' with
    | String "-" r => (-1, r)
    | String "+" r => (1, r)
    | _ => (1, s')
    end in
  match digitPrefix rest with
  | EmptyString => None
  | ds => Some (sign * digitsValue 0 ds)
  end.

Definition mul (a b : num) : num :=
  match a, b with Some x, Some y => Some (x * y) | _, _ => None end.

(** [n === 0] and [!n] on a number. *)
Definition isZero (n : num) : bool :=
  match n with Some x => x =? 0 | None => false end.
Definition falsy (n : num) : bool :=
  match n with Some x => x =? 0 | None => true end.

(** [String(n)] for an integer [n]. *)
Definition toString (n : Z) : string := NilZero.string_of_int (Z.to_int n).

Fixpoint repeatChar (c : ascii) (n : nat) : string :=
  match n with O => EmptyString | S k => String c (repeatChar c k) end.

(** [s.padStart(n, '0')]. *)
Definition padStart0 (n : nat) (s : string) : string :=
  (repeatChar "0" (n - String.length s) ++ s)%string.

(** [/^\d+$/.test(s)] *)
Definition isRelativeToken (s : string) : bool :=
  match s with
  | EmptyString => false
  | _ => allDigits s
  end.

(** [/^\d{4}-\d{2}-\d{2}$/.test(s)] *)
Definition isDateToken (s : string) : bool :=
  match s with
  | String y1 (String y2 (String y3 (String y4 (String "-"
      (String m1 (String m2 (String "-"
        (String d1 (String d2 EmptyString))))))))) =>
      isDigit y1 && isDigit y2 && isDigit y3 && isDigit y4 &&
      isDigit m1 && isDigit m2 && isDigit d1 && isDigit d2
  | _ => false
  end.

(** [/^[+-]$/.test(s)] *)
Definition isDirection (s : string) : bool :=
  match s with
  | String "+" EmptyString | String "-" EmptyString => true
  | _ => false
  end.

Definition truthy (s : string) : bool :=
  match s with EmptyString => false | _ => true end.

End JS.

(** ** date-fns 3.x: [addMinutes], [addHours], [addDays], [parse],
       [formatISO] *)
Module DateFns.
Import JSDate.

(** [new Date(+date + amount)] *)
Definition addMilliseconds (date : Date) (amount : JS.num) : Date :=
  match date, amount with
  | Some t, Some a => TimeClip (t + a)
  | _, _ => None
  end.

Definition addMinutes (date : Date) (amount : JS.num) : Date :=
  addMilliseconds date (option_map (fun a => a * msPerMinute) amount).

Definition addHours (date : Date) (amount : JS.num) : Date :=
  addMilliseconds date (option_map (fun a => a * msPerHour) amount).

Definition daysInMonth (y m : Z) : Z :=
  match m with
  | 2 => if isLeapYear y then 29 else 28
  | 4 | 6 | 9 | 11 => 30
  | _ => 31
  end.

(** The validation the year, month and day parsers of [parse] apply. *)
Definition validYMD (y m d : Z) : bool :=
  (0 <? y) && (1 <=? m) && (m <=? 12) && (1 <=? d) && (d <=? daysInMonth y m).

(** The numbers the year, month and day parsers read off a string of the
    shape [/^\d{4}-\d{2}-\d{2}$/]. *)
Definition ymdOfToken (s : string) : option (Z * Z * Z) :=
  match s with
  | String y1 (String y2 (String y3 (String y4 (String _
      (String m1 (String m2 (String _
        (String d1 (String d2 EmptyString))))))))) =>
      if JS.isDateToken s then
        Some (JS.digitsValue 0
                (String y1 (String y2 (String y3 (String y4 EmptyString)))),
              JS.digitsValue 0 (String m1 (String m2 EmptyString)),
              JS.digitsValue 0 (String d1 (String d2 EmptyString)))
      else None
  | _ => None
  end.

(** A token that spells a day of the calendar. *)
Definition validDateToken (s : string) : bool :=
  match ymdOfToken s with
  | Some (y, m, d) => validYMD y m d
  | None => false
  end.

Section Zone.
Variable tz : Z.

(** [addDays]: the Invalid Date on NaN, a no-op on 0, otherwise
    [setDate(getDate() + amount)] on a copy. *)
Definition addDays (date : Date) (amount : JS.num) : Date :=
  match amount with
  | None => None
  | Some a =>
      if a =? 0 then date
      else match getDate tz date with
           | Some dt => setDate tz date (dt + a)
           | None => None
           end
  end.

(** [parse(s, 'yyyy-MM-dd', new Date())] on the strings the resolver
    passes (four digits, dash, two digits, dash, two digits): local
    midnight of that day, or the Invalid Date when year, month or day
    fails validation.  Other strings do not reach it and are mapped to
    the Invalid Date. *)
Definition parse_yyyy_MM_dd (s : string) : Date :=
  match ymdOfToken s with
  | Some (y, m, d) =>
      if validYMD y m d then localMidnight tz y m d else None
  | None => None
  end.

(** [addLeadingZeros(n, len)] *)
Definition addLeadingZeros (n : Z) (len : nat) : string :=
  ((if (n <? 0)%Z then "-" else EmptyString) ++ JS.padStart0 len (JS.toString (Z.abs n)))%string.

(** [formatISO(date)]: local date and time followed by the zone. *)
Definition formatISO (date : Date) : result string :=
  match date with
  | None => Throw InvalidTimeValue
  | Some t =>
      let lt := LocalTime tz t in
      let day := addLeadingZeros (DateFromTime lt) 2 in
      let month := addLeadingZeros (MonthFromTime lt + 1) 2 in
      let year := addLeadingZeros (YearFromTime lt) 4 in
      let tzOffset :=
        if tz =? 0 then "Z"%string
        else
          let a := Z.abs tz in
          ((if (tz <? 0)%Z then "+" else "-") ++ addLeadingZeros (Z.quot a 60) 2
             ++ ":" ++ addLeadingZeros (Z.rem a 60) 2)%string in
      let hour := addLeadingZeros (HourFromTime lt) 2 in
      let minute := addLeadingZeros (MinFromTime lt) 2 in
      let second := addLeadingZeros (SecFromTime lt) 2 in
      Ok (year ++ "-" ++ month ++ "-" ++ day ++ "T"
            ++ hour ++ ":" ++ minute ++ ":" ++ second ++ tzOffset)%string
  end.
End Zone.

End DateFns.

(** ** src/L_time.ts *)
Module L_time.
Import JSDate DateFns.

(** [Date.prototype.toISOString]: throws on the Invalid Date.  The string
    is represented by the time value it spells out (to the millisecond),
    which is what [new Date(string)] reads back. *)
Definition toISOString (d : Date) : result Z :=
  match d with
  | Some t => Ok t
  | None => Throw InvalidTimeValue
  end.

Definition newDateOfISO (iso : Z) : Date := TimeClip iso.

(** [formatMilliseconds] on a whole number of milliseconds below 2^53 in
    absolute value: there the doubles of the source give the floor of
    [ms / 1000] exactly and every later number is a small integer, so [Z]
    computes what the source computes.  Fractional and larger arguments
    are outside the model.  [%] is the truncating remainder. *)
Definition formatMilliseconds (ms : Z) : string :=
  let totalSeconds := ms / 1000 + 1 in
  let minutes := Z.rem totalSeconds 3600 / 60 in
  let seconds := Z.rem totalSeconds 60 in
  (JS.padStart0 2 (JS.toString minutes) ++ "m "
     ++ JS.padStart0 2 (JS.toString seconds) ++ "s")%string.

Section Zone.
Variable tz : Z.

Definition parseDate (dateStr : string) : Date := parse_yyyy_MM_dd tz dateStr.

Definition stringifyDate (date : Date) : result string := formatISO tz date.

Definition normalizeDate (date : Date) : result Date :=
  let timezoneOffset := getTimezoneOffset tz date in
  let utcAdjustedDate :=
    addMinutes (addHours date (Some 1)) (JS.neg timezoneOffset) in
  rbind (toISOString utcAdjustedDate) (fun iso => Ok (newDateOfISO iso)).

(** [futureNow], from the clock reading [now] taken when the module is
    loaded. *)
Definition futureNow (now : Z) : Date :=
  let futureDate := TimeClip now in
  match getFullYear tz futureDate with
  | Some y => setFullYear tz futureDate (y + 74)
  | None => None
  end.
End Zone.

End L_time.

(** ** The date resolver: [mod.ts], lines 85-151 *)
Module Resolver.
Import JSDate DateFns L_time.

(** The variables the [forEach] callback closes over. *)
Record state := mkState
  { previousDate : option Date;
    previousDate_onlyDate : option Date;
    dates : list Date }.

Definition initial : state :=
  {| previousDate := None; previousDate_onlyDate := None; dates := [] |}.

(** Lines 95-100: the direction flag. *)
Definition direction_sign (direction : string) : result Z :=
  if JS.truthy direction && negb (JS.isDirection direction)
  then Throw InvalidDirection
  else Ok (if String.eqb direction "+" then 1 else -1).

Section Zone.
Variable tz : Z.

(** Lines 104-146: [thisDate] and the new [previousDate_onlyDate]. *)
Definition thisDate_of (dir : Z) (st : state) (item : string)
  : result (Date * option Date) :=
  if JS.isRelativeToken item then
    let daysToAdd := JS.mul (JS.parseInt item) (Some dir) in
    match previousDate st with
    | Some previous =>
        if JS.isZero daysToAdd then
          Ok (addMinutes previous (Some 1), previousDate_onlyDate st)
        else
          match previousDate_onlyDate st with
          | None => Throw NoPreviousDateOnly
          | Some onlyDate =>
              let thisDate := addDays tz onlyDate daysToAdd in
              Ok (thisDate, Some thisDate)
          end
    | None => Throw RelativeBeforeAnyDate
    end
  else if JS.isDateToken item then
    let thisDate := parseDate tz item in
    if JS.strictEq (getTime thisDate) (option_map getTime (previousDate st))
    then Ok (addMinutes thisDate (Some 1), previousDate_onlyDate st)
    else if JS.strictEq (getTime thisDate)
              (option_map getTime (previousDate_onlyDate st))
    then match previousDate st with
         | None => Throw NoPreviousDate
         | Some previous =>
             Ok (addMinutes previous (Some 1), previousDate_onlyDate st)
         end
    else Ok (thisDate, Some thisDate)
  else Throw InvalidInputFormat.

(** One call of the [forEach] callback, lines 102-150. *)
Definition step (dir : Z) (st : state) (item : string) : result state :=
  rbind (thisDate_of dir st item) (fun '(thisDate, onlyDate) =>
  rbind (normalizeDate tz thisDate) (fun normalized =>
  Ok {| previousDate := Some thisDate;
        previousDate_onlyDate := onlyDate;
        dates := dates st ++ [normalized] |})).

Fixpoint forEach (dir : Z) (items : list string) (st : state)
  : result state :=
  match items with
  | [] => Ok st
  | item :: rest => rbind (step dir st item) (forEach dir rest)
  end.

(** The whole block: the final value of [dates]. *)
Definition resolve (direction : string) (items : list string)
  : result (list Date) :=
  rbind (direction_sign direction) (fun dir =>
  rbind (forEach dir items initial) (fun st => Ok (dates st))).
End Zone.

End Resolver.

(** ** External processes: [src/U_command.ts]

    The tools the program drives ([git], [echo]) are outside the program.
    A host is a state [W] and a function [spawn] saying what running a
    command line does to it: the process runs and reports an exit code and
    its output, or [Deno.Command(..).output()] rejects. *)
Record output := mkOutput { code : Z; stdout : string; stderr : string }.

Record config := mkConfig
  { help : bool;
    silent : bool;
    let_it_go : bool;
    no_commit : bool;
    cleanse : string;
    reset : string;
    direction : string;
    positional : list string;           (* [config._], after [toString()] *)
    throttle : Z;
    targetFile : string;
    endUserInfo : option (string * string) (* file, msg *) }.

(** [currentConfig] for the given flags: the constant fields are the ones
    [src/config.ts] sets. *)
Definition currentConfig (help silent let_it_go no_commit : bool)
    (cleanse reset direction : string) (positional : list string) : config :=
  {| help := help; silent := silent; let_it_go := let_it_go;
     no_commit := no_commit; cleanse := cleanse; reset := reset;
     direction := direction; positional := positional;
     throttle := 50; targetFile := "foo";
     endUserInfo := Some ("README.md", "TODO")%string |}.

Module Run.

Inductive status (A : Type) : Type :=
  | Done (a : A)
  | Raised (e : error)
  | Exited.                       (* [Deno.exit()] *)
Arguments Done {A} a.
Arguments Raised {A} e.
Arguments Exited {A}.

Section Host.
Variable W : Type.
Variable spawn : list string -> W -> (output + string) * W.

(** The host and the command lines passed to [runCommand] so far. *)
Record world := mkWorld { host : W; issued : list (list string) }.

Definition M (A : Type) : Type := world -> status A * world.

Definition ret {A} (a : A) : M A := fun w => (Done a, w).
Definition raise {A} (e : error) : M A := fun w => (Raised e, w).
Definition exit {A} : M A := fun w => (Exited, w).
Definition bind {A B} (m : M A) (k : A -> M B) : M B :=
  fun w =>
    match m w with
    | (Done a, w') => k a w'
    | (Raised e, w') => (Raised e, w')
    | (Exited, w') => (Exited, w')
    end.
Definition tryCatch {A} (m : M A) (handler : error -> M A) : M A :=
  fun w =>
    match m w with
    | (Raised e, w') => handler e w'
    | r => r
    end.
Definition lift {A} (r : result A) : M A :=
  match r with Ok a => ret a | Throw e => raise e end.

Definition runCommand (args : list string) : M output :=
  fun w =>
    let (r, h) := spawn args (host w) in
    let w' := {| host := h; issued := issued w ++ [args] |} in
    match r with
    | inl out => (Done out, w')
    | inr msg => (Raised (SpawnFailed msg), w')
    end.
End Host.

Arguments ret {W A} a.
Arguments raise {W A} e.
Arguments exit {W A}.
Arguments bind {W A B} m k.
Arguments tryCatch {W A} m handler.
Arguments lift {W A} r.
Arguments host {W} w.
Arguments issued {W} w.
Arguments mkWorld {W} host issued.

End Run.

Declare Scope run_scope.
Delimit Scope run_scope with run.
Notation "x <- m ;; k" := (Run.bind m (fun x => k))
  (at level 61, m at next level, right associativity) : run_scope.
Notation "m ;;; k" := (Run.bind m (fun _ => k))
  (at level 61, right associativity) : run_scope.

(** ** [src/L_command.ts], [src/L_git.ts], [src/date_to_commit.ts] and the
       body of [mod.ts]

    Writes to the log and to the terminal and the pauses of [sleep] change
    neither the host nor the control flow and are left out. *)
Module App.
Import JSDate DateFns L_time Run.
Local Open Scope run_scope.
Local Open Scope string_scope.

Section Host.
Variable W : Type.
Variable spawn : list string -> W -> (output + string) * W.
(** The zone, the clock reading behind [futureNow], [futureNowString]
    and the configuration. *)
Variable tz : Z.
Variable now : Z.
Variable futureNowString : string.
Variable cfg : config.

Abbreviation M := (Run.M W).
Abbreviation runCommand := (Run.runCommand W spawn).

(** *** src/L_command.ts *)

Definition check (args : list string) : M bool :=
  tryCatch (result <- runCommand args ;; ret (code result =? 0)%Z)
           (fun _ => ret false).

(** [checkCommandAvailability]: the availability of [git] and of
    [echo]. *)
Definition checkCommandAvailability : M (bool * bool) :=
  git <- check ["git"; "--version"] ;;
  echo <- check ["echo"; "test"] ;;
  ret (git, echo).

(** *** src/L_git.ts *)

Definition initializeGitRepository : M unit :=
  tryCatch (runCommand ["git"; "init"] ;;; ret tt)
           (fun e => raise (InitError e)).

Definition isGitRepository : M bool :=
  tryCatch
    (r <- runCommand ["git"; "rev-parse"; "--is-inside-work-tree"] ;;
     ret (code r =? 0)%Z)
    (fun e => raise (IsRepositoryError e)).

Definition isRepositoryClean : M bool :=
  tryCatch
    (r <- runCommand ["git"; "status"; "--porcelain"] ;;
     ret (String.eqb (JS.trim (stdout r)) EmptyString))
    (fun e => raise (IsCleanError e)).

Definition quote : string := String (ascii_of_nat 34) EmptyString.

(** [commit(date)]: a promise chain; every [catch] wraps the rejection
    that reaches it, so a failure of [echo] is wrapped three times. *)
Definition commit (date : string) : M output :=
  tryCatch
    (tryCatch
       (tryCatch
          (runCommand ["echo"; quote ++ date ++ quote; ">"; targetFile cfg])
          (fun e => raise (EchoError date e)) ;;;
        runCommand ["git"; "add"; "."])
       (fun e => raise (GitAddError date e)) ;;;
     runCommand ["git"; "commit"; "--quiet"; "--date"; date; "-m"; date])
    (fun e => raise (GitCommitError date e)).

Definition createInitialCommit : M unit :=
  tryCatch
    (match endUserInfo cfg with
     | None => commit futureNowString ;;; ret tt
     | Some (file, msg) =>
         runCommand ["echo"; msg; ">"; file] ;;;
         runCommand ["git"; "add"; "."] ;;;
         runCommand ["git"; "commit"; "--quiet"; "--date";
                     futureNowString; "-m"; "INIT"] ;;;
         ret tt
     end)
    (fun e => raise (InitialCommitError e)).

Definition getCommitCount : M JS.num :=
  tryCatch
    (r <- runCommand ["git"; "rev-list"; "--count"; "HEAD"] ;;
     ret (JS.parseInt (JS.trim (stdout r))))
    (fun e => raise (CountError e)).

Definition resetRepository (commitMsg : string) : M unit :=
  tryCatch
    (r <- runCommand ["git"; "rev-list"; "--max-parents=0"; "HEAD"] ;;
     let rootCommitHash := JS.trim (stdout r) in
     runCommand ["git"; "reset"; "--soft"; rootCommitHash] ;;;
     runCommand ["git"; "add"; "-all"] ;;;
     runCommand ["git"; "commit"; "--date"; futureNowString;
                 "-m"; commitMsg] ;;;
     ret tt)
    (fun e => raise (ResetError e)).

(** [cleanRepository(commitMsg)]; [check] is not passed by [mod.ts]. *)
Definition cleanRepository (commitMsg : string) : M unit :=
  tryCatch
    (runCommand ["git"; "add"; "-A"] ;;;
     runCommand ["git"; "commit"; "--date"; futureNowString;
                 "-m"; commitMsg] ;;;
     ret tt)
    (fun e => raise (CleanError e)).

Definition getCurrentCommitHash : M string :=
  tryCatch
    (r <- runCommand ["git"; "rev-parse"; "HEAD"] ;;
     ret (JS.trim (stdout r)))
    (fun e => raise (CurrentHashError e)).

Definition hardResetToCommit (commitHash : string) : M unit :=
  tryCatch
    (runCommand ["git"; "reset"; "--hard"; commitHash] ;;; ret tt)
    (fun e => raise (HardResetError commitHash e)).

(** *** src/date_to_commit.ts *)

(** The body of the [for] loop of [processDateStrings]. *)
Definition commitOne (date : string) : M unit :=
  tryCatch
    (commit date ;;; ret tt)
    (fun e =>
       if let_it_go cfg then ret tt
       else raise (CommitFailed date e)).

Fixpoint processDateStrings (dates : list string) : M unit :=
  match dates with
  | [] => ret tt
  | date :: rest => commitOne date ;;; processDateStrings rest
  end.

(** The [try] block of the [filter] callback of [processDates]. *)
Definition checkYear (date : Date) : result bool :=
  let year := getFullYear tz date in
  if JS.ltb year (Some 1970) then Throw DateBefore1970
  else
    let future := option_map (fun y => y - 1)
                    (getFullYear tz (futureNow tz now)) in
    if JS.gtb year future then Throw (DateAfter future)
    else Ok true.

(** The [filter] callback: keep, drop, or throw. *)
Definition acceptable (date : Date) : result bool :=
  match checkYear date with
  | Ok b => Ok b
  | Throw e =>
      rbind (stringifyDate tz date) (fun s =>
      if let_it_go cfg then Ok false
      else Throw (DateNotAcceptable s e))
  end.

Fixpoint filterDates (dates : list Date) : result (list Date) :=
  match dates with
  | [] => Ok []
  | date :: rest =>
      rbind (acceptable date) (fun keep =>
      rbind (filterDates rest) (fun rest' =>
      Ok (if keep then date :: rest' else rest')))
  end.

Fixpoint mapStringify (dates : list Date) : result (list string) :=
  match dates with
  | [] => Ok []
  | date :: rest =>
      rbind (stringifyDate tz date) (fun s =>
      rbind (mapStringify rest) (fun rest' => Ok (s :: rest')))
  end.

Definition processDates (dates : list Date) : M unit :=
  kept <- lift (filterDates dates) ;;
  strings <- lift (mapStringify kept) ;;
  processDateStrings strings.

(** *** mod.ts *)

(** Lines 27-83: the checks and repairs before the dates are read. *)
Definition preflight : M unit :=
  commandAvailability <- checkCommandAvailability ;;
  (if fst commandAvailability then ret tt else raise GitUnavailable) ;;;
  isRepo <- isGitRepository ;;
  (if isRepo then ret tt else initializeGitRepository) ;;;
  isClean <- isRepositoryClean ;;
  (if isClean then ret tt
   else if JS.truthy (cleanse cfg) then cleanRepository (cleanse cfg)
   else raise RepositoryNotClean) ;;;
  commitCount <- getCommitCount ;;
  (if JS.falsy commitCount then createInitialCommit
   else if JS.truthy (reset cfg) then resetRepository (reset cfg)
   else ret tt).

(** Lines 161-173: the snapshot, the commits, and the hard reset in the
    [catch]. *)
Definition commitPhase (dates : list Date) : M unit :=
  theHashBeforeCommits <- getCurrentCommitHash ;;
  tryCatch (processDates dates)
           (fun _ => hardResetToCommit theHashBeforeCommits).

(** Lines 22-159: everything the outer [try] does before the snapshot;
    the value of [dates] when line 161 is reached. *)
Definition beforeSnapshot : M (list Date) :=
  (if help cfg then exit else ret tt) ;;;
  preflight ;;;
  (match positional cfg with [] => exit | _ => ret tt end) ;;;
  dates <- lift (Resolver.resolve tz (direction cfg) (positional cfg)) ;;
  (if no_commit cfg then exit else ret tt) ;;;
  ret dates.

(** The body of the outer [try]. *)
Definition mainBody : M unit :=
  dates <- beforeSnapshot ;;
  commitPhase dates.

(** The program: the outer [catch] reports the error and the process
    ends normally. *)
Definition main : M unit :=
  tryCatch mainBody (fun _ => ret tt).
End Host.

End App.

(** ** An in-memory host

    A small stand-in for [git] and [echo], used to run the program on
    concrete inputs: the branch is the list of its commit identifiers, a
    commit's hash is its identifier in unary, and the spawns whose ordinal
    is listed in [faults] are rejected.  [echo x > file] writes the file,
    as it does where [runCommand] hands the line to [cmd /c] (Windows);
    elsewhere [echo] is spawned without a shell and writes nothing. *)
Module Fake.
Local Open Scope string_scope.

Record repo := mkRepo
  { initialised : bool;
    dirty : bool;
    commits : list nat;          (* oldest first; the last one is HEAD *)
    next : nat;                  (* the next fresh identifier *)
    clock : nat;                 (* spawns so far *)
    faults : list nat }.

Definition newline : string := String (ascii_of_nat 10) EmptyString.
(** The hash of commit [id]: as many ["c"] as [id] plus one. *)
Definition hashOf (id : nat) : string := JS.repeatChar "c" (S id).

Definition head (r : repo) : string :=
  match rev (commits r) with
  | id :: _ => hashOf id
  | [] => "HEAD"
  end.

(** The branch up to and including the commit whose hash is [h]. *)
Fixpoint upTo (h : string) (l : list nat) : option (list nat) :=
  match l with
  | [] => None
  | id :: rest =>
      if String.eqb (hashOf id) h then Some [id]
      else option_map (cons id) (upTo h rest)
  end.

Definition exited (c : Z) (out : string) (r : repo) : (output + string) * repo :=
  (inl {| code := c; stdout := out; stderr := EmptyString |}, r).

Definition doCommit (r : repo) : (output + string) * repo :=
  if dirty r then
    exited 0 EmptyString
      {| initialised := initialised r; dirty := false;
         commits := commits r ++ [next r]; next := S (next r);
         clock := clock r; faults := faults r |}
  else exited 1 ("nothing to commit" ++ newline) r.

Definition doReset (hard : bool) (h : string) (r : repo)
  : (output + string) * repo :=
  match upTo h (commits r) with
  | Some kept =>
      exited 0 EmptyString
        {| initialised := initialised r;
           dirty := if hard then false
                    else dirty r || negb (List.length kept =? List.length (commits r))%nat;
           commits := kept; next := next r;
           clock := clock r; faults := faults r |}
  | None => exited 128 EmptyString r
  end.

Definition git (args : list string) (r : repo) : (output + string) * repo :=
  match args with
  | [a] =>
      if String.eqb a "--version" then exited 0 ("git version 2" ++ newline) r
      else if String.eqb a "init" then
        exited 0 EmptyString
          {| initialised := true; dirty := dirty r; commits := commits r;
             next := next r; clock := clock r; faults := faults r |}
      else exited 1 EmptyString r
  | a :: rest =>
      if negb (initialised r) then exited 128 EmptyString r
      else if String.eqb a "rev-parse" then
        match rest, commits r with
        | [b], [] =>
            if String.eqb b "HEAD" then exited 128 ("HEAD" ++ newline) r
            else exited 0 ("true" ++ newline) r
        | [b], _ =>
            if String.eqb b "HEAD" then exited 0 (head r ++ newline) r
            else exited 0 ("true" ++ newline) r
        | _, _ => exited 1 EmptyString r
        end
      else if String.eqb a "status" then
        exited 0 (if dirty r then " M foo" ++ newline else EmptyString) r
      else if String.eqb a "add" then exited 0 EmptyString r
      else if String.eqb a "commit" then doCommit r
      else if String.eqb a "rev-list" then
        match rest, commits r with
        | _, [] => exited 128 EmptyString r
        | [b; _], root :: _ =>
            if String.eqb b "--count"
            then exited 0 (JS.toString (Z.of_nat (List.length (commits r))) ++ newline) r
            else exited 0 (hashOf root ++ newline) r
        | _, _ => exited 1 EmptyString r
        end
      else if String.eqb a "reset" then
        match rest with
        | [mode; h] => doReset (String.eqb mode "--hard") h r
        | _ => exited 1 EmptyString r
        end
      else exited 1 EmptyString r
  | [] => exited 1 EmptyString r
  end.

Definition spawn (args : list string) (r : repo) : (output + string) * repo :=
  let r' := {| initialised := initialised r; dirty := dirty r;
               commits := commits r; next := next r;
               clock := S (clock r); faults := faults r |} in
  if existsb (Nat.eqb (clock r)) (faults r) then (inr "spawn failed", r')
  else
    match args with
    | cmd :: rest =>
        if String.eqb cmd "git" then git rest r'
        else if String.eqb cmd "echo" then
          (* [echo x > file] leaves the working tree modified *)
          exited 0 EmptyString
            {| initialised := initialised r';
               dirty := dirty r' || existsb (String.eqb ">") rest;
               commits := commits r'; next := next r';
               clock := clock r'; faults := faults r' |}
        else (inr "not found", r')
    | [] => (inr "not found", r')
    end.

(** A clean repository holding commits [1..n], and the spawns to reject. *)
Definition fresh (n : nat) (faults : list nat) : repo :=
  {| initialised := true; dirty := false; commits := seq 1 n;
     next := S n; clock := 0; faults := faults |}.

Definition start (r : repo) : Run.world repo := Run.mkWorld r [].

End Fake.

(** ** Concrete runs on the in-memory host *)
Module Scenario.
Local Open Scope string_scope.

(** 2024-02-29T12:34:56Z, and what [futureNowString] is at that time in
    the zone of offset 0. *)
Definition clock : Z := 1709210096000.
Definition futureNowString : string := "2098-03-01T12:34:56Z".

(** No flag set but the direction. *)
Definition strict (tokens : list string) : config :=
  currentConfig false false false false EmptyString EmptyString "+" tokens.


(** The program and its parts on the in-memory host. *)
Definition main (cfg : config) : Run.M Fake.repo unit :=
  App.main Fake.repo Fake.spawn 0 clock futureNowString cfg.
Definition mainBody (cfg : config) : Run.M Fake.repo unit :=
  App.mainBody Fake.repo Fake.spawn 0 clock futureNowString cfg.
Definition beforeSnapshot (cfg : config) : Run.M Fake.repo (list JSDate.Date) :=
  App.beforeSnapshot Fake.repo Fake.spawn 0 futureNowString cfg.
Definition commitPhase (cfg : config) (dates : list JSDate.Date)
  : Run.M Fake.repo unit :=
  App.commitPhase Fake.repo Fake.spawn 0 clock cfg dates.
Definition processDates (cfg : config) (dates : list JSDate.Date)
  : Run.M Fake.repo unit :=
  App.processDates Fake.repo Fake.spawn 0 clock cfg dates.

End Scenario.

(** ** Vocabulary of the statements *)
Module Spec.
Import JSDate.
Local Open Scope string_scope.

(** A zone offset is less than a day. *)
Definition validZone (tz : Z) : Prop := -1440 < tz < 1440.

(** A clock reading after the epoch from which 74 years can still be
    added. *)
Definition validClock (now : Z) : Prop := 0 <= now <= 8000000000000000.

Definition monthLength (leap : bool) (m : Z) : Z :=
  match m with
  | 1 => if leap then 29 else 28
  | 3 | 5 | 8 | 10 => 30
  | _ => 31
  end.

(** A token of one of the two accepted shapes. *)
Definition wellFormedToken (s : string) : bool :=
  JS.isDateToken s || JS.isRelativeToken s.

(** The same, the date being a day of the calendar. *)
Definition validToken (s : string) : bool :=
  DateFns.validDateToken s || JS.isRelativeToken s.

(** The day count of a relative token, 0 for a date. *)
Definition offsetDays (s : string) : Z :=
  if JS.isRelativeToken s then JS.digitsValue 0 s else 0.

Definition totalOffset (items : list string) : Z :=
  fold_right (fun s acc => offsetDays s + acc) 0 items.

(** The shift [normalizeDate] applies to a time value. *)
Definition canonical (tz t : Z) : Z := t + msPerHour - tz * msPerMinute.

(** The time value of local midnight of day number [z]. *)
Definition midnight (tz z : Z) : Z := UTC tz (z * msPerDay).

(** The resolver state once a date has been seen: the previous instant
    [p] and the previous date-only instant [o]. *)
Definition seen (p o : Z) (ds : list Date) : Resolver.state :=
  {| Resolver.previousDate := Some (Some p);
     Resolver.previousDate_onlyDate := Some (Some o);
     Resolver.dates := ds |}.

(** What holds of the resolver state after [k] steps whose offsets add up
    to [S] days: the previous date-only instant is local midnight of a
    day at most [S] days outside the years 1 to 9999, the previous
    instant is at most [k] minutes later, and the outputs are valid. *)
Definition tracked (tz k S : Z) (st : Resolver.state) : Prop :=
  exists z j ds,
    st = seen (midnight tz z + j * msPerMinute) (midnight tz z) ds
    /\ 0 <= j <= k /\ Z.abs z <= 2932896 + S
    /\ Forall (fun d : Date => d <> None) ds.

(** A number of seconds written as minutes and seconds, [MMm SSs]. *)
Definition formatMMmSSs (seconds : Z) : string :=
  JS.padStart0 2 (JS.toString (seconds / 60)) ++ "m "
    ++ JS.padStart0 2 (JS.toString (seconds mod 60)) ++ "s".

(** The years the sequencer accepts when the run happens in
    [currentYear]. *)
Definition acceptedYear (currentYear y : Z) : bool :=
  (1970 <=? y)%Z && (y <? currentYear + 74)%Z.

Definition localYear (tz t : Z) : Z := YearFromTime (LocalTime tz t).

(** The command line of a hard reset, of a commit. *)
Definition isHardReset (args : list string) : bool :=
  match args with
  | [a; b; c; _] =>
      String.eqb a "git" && String.eqb b "reset" && String.eqb c "--hard"
  | _ => false
  end.

Definition noHardReset (args : list string) : bool := negb (isHardReset args).

Definition isGitCommit (args : list string) : bool :=
  match args with
  | a :: b :: _ => String.eqb a "git" && String.eqb b "commit"
  | _ => false
  end.


(** [m] only appends command lines satisfying [P] to the trace. *)
Definition issuesOnly {W A} (P : list string -> bool) (m : Run.M W A) : Prop :=
  forall w, exists cmds,
    Run.issued (snd (m w)) = (Run.issued w ++ cmds)%list
    /\ forallb P cmds = true.

End Spec.

(** ** Vocabulary of the further statements *)
Module Vocabulary.
Import JSDate.
Local Open Scope string_scope.

(** A token that stays on the day of [D]: [D] itself or an offset of 0. *)
Definition sameDayToken (D item : string) : bool :=
  String.eqb item D
  || (JS.isRelativeToken item && (JS.digitsValue 0 item =? 0)%Z).

(** A token that is not an offset, or is an offset of 0. *)
Definition directionFree (item : string) : bool :=
  negb (JS.isRelativeToken item) || (JS.digitsValue 0 item =? 0)%Z.

(** [n] canonical instants a minute apart, the first one [j] minutes after
    the time value [t]. *)
Fixpoint rungs (tz t j : Z) (n : nat) : list Date :=
  match n with
  | O => []
  | S k => Some (Spec.canonical tz (t + j * msPerMinute)) :: rungs tz t (j + 1) k
  end.

Definition ladder (tz t : Z) (n : nat) : list Date := rungs tz t 0 n.

(** The day number a date token names (0 for other strings). *)
Definition dayNumber (s : string) : Z :=
  match DateFns.ymdOfToken s with
  | Some (y, m, d) => MakeDay y (m - 1) d
  | None => 0
  end.

(** The three command lines of [commit(date)], in the order it runs them. *)
Definition commitCommands (cfg : config) (date : string) : list (list string) :=
  [ ["echo"; App.quote ++ date ++ App.quote; ">"; targetFile cfg];
    ["git"; "add"; "."];
    ["git"; "commit"; "--quiet"; "--date"; date; "-m"; date] ].

(** The numbers 0 to 99. *)
Definition hundred : list Z := map Z.of_nat (seq 0 100).

(** Whether [git --version] can be spawned on the host and exits with 0. *)
Definition gitAnswers {W : Type}
    (spawn : list string -> W -> (output + string) * W) (x : W) : bool :=
  match spawn ["git"; "--version"] x with
  | (inl out, _) => (code out =? 0)%Z
  | (inr _, _) => false
  end.

(** The argument that follows [flag] on a command line. *)
Fixpoint afterFlag (flag : string) (args : list string) : option string :=
  match args with
  | [] => None
  | a :: rest => if String.eqb a flag then hd_error rest else afterFlag flag rest
  end.

(** A command line that is no hard reset and, when it is a [git commit],
    carries [--date date]. *)
Definition commitsOnlyAt (date : string) (args : list string) : bool :=
  negb (Spec.isHardReset args)
  && (negb (Spec.isGitCommit args)
      || match afterFlag "--date" args with
         | Some d => String.eqb d date
         | None => false
         end).

(** A host on which no spawn is rejected (exit codes are free). *)
Definition neverRejects {W : Type}
    (spawn : list string -> W -> (output + string) * W) : Prop :=
  forall args x, exists out x', spawn args x = (inl out, x').

(** A host that spawns every command; each one exits with code 1 and
    prints nothing.  Its state counts the spawns. *)
Definition obliging (args : list string) (n : nat) : (output + string) * nat :=
  (inl (mkOutput 1 EmptyString EmptyString), S n).


(** No flag set but [let-it-go] and the direction. *)
Definition lenient (tokens : list string) : config :=
  currentConfig false false true false EmptyString EmptyString "+" tokens.

End Vocabulary.

(** ** [src/config.ts]: the flag tables and the post-processing of
       [parseArgs] *)
Module Config.
Local Open Scope string_scope.

(** A flag definition.  [des], the help text, is read by [describeFlag]
    only and is left out; a string flag has a [fallback] or a
    [default]. *)
Record FlagDefinition := mkFlag
  { name : string;
    alias : option string;
    fallback : option string;
    default : option string }.

Definition boolFlags : list FlagDefinition :=
  [ mkFlag "help" (Some "h") None None;
    mkFlag "silent" None None None;
    mkFlag "let-it-go" None None None;
    mkFlag "no-commit" (Some "n") None None ].

Definition stringFlags : list FlagDefinition :=
  [ mkFlag "cleanse" None (Some "CLEANSE") None;
    mkFlag "reset" None (Some "RESET") None;
    mkFlag "direction" (Some "d") None (Some "+") ].

(** The own properties of a JavaScript object, in insertion order. *)
Definition object (V : Type) : Type := list (string * V).

Fixpoint get {V : Type} (o : object V) (k : string) : option V :=
  match o with
  | [] => None
  | (k', v) :: rest => if String.eqb k' k then Some v else get rest k
  end.

(** [o[k] = v]: an existing property keeps its place. *)
Fixpoint set {V : Type} (o : object V) (k : string) (v : V) : object V :=
  match o with
  | [] => [(k, v)]
  | (k', v') :: rest =>
      if String.eqb k' k then (k', v) :: rest else (k', v') :: set rest k v
  end.

(** The names every object inherits from [Object.prototype] under Deno:
    reading one of them from an object that has no such property of its
    own gives a function, not [undefined].  Deno deletes the accessor
    [__proto__] from [Object.prototype], so that name is an ordinary key
    there and is not listed. *)
Definition objectPrototypeKeys : list string :=
  [ "constructor"; "__defineGetter__"; "__defineSetter__"; "hasOwnProperty";
    "__lookupGetter__"; "__lookupSetter__"; "isPrototypeOf";
    "propertyIsEnumerable"; "toString"; "valueOf"; "toLocaleString" ].

Definition inherited (k : string) : bool :=
  existsb (String.eqb k) objectPrototypeKeys.

(** The truth value of [parsedArgs[name]], a string or [undefined]. *)
Definition truthy (v : option string) : bool :=
  match v with
  | Some s => JS.truthy s
  | None => false
  end.

Definition hasDefault (flag : FlagDefinition) : bool :=
  match default flag with Some _ => true | None => false end.

Definition hasFallback (flag : FlagDefinition) : bool :=
  match fallback flag with Some _ => true | None => false end.

(** The callback of the first [forEach]; the flags it visits passed the
    filter ['default' in flag]. *)
Definition applyDefault (parsedArgs : object string) (flag : FlagDefinition)
  : object string :=
  if truthy (get parsedArgs (name flag)) then parsedArgs
  else match default flag with
       | Some d => set parsedArgs (name flag) d
       | None => parsedArgs
       end.

(** The callback of the second [forEach]; the flags it visits passed the
    filter ['fallback' in flag]. *)
Definition applyFallback (parsedArgs : object string) (flag : FlagDefinition)
  : object string :=
  match get parsedArgs (name flag) with
  | None => set parsedArgs (name flag) EmptyString
  | Some v =>
      if String.eqb v EmptyString then
        match fallback flag with
        | Some f => set parsedArgs (name flag) f
        | None => parsedArgs
        end
      else parsedArgs
  end.

(** The post-processing of the string flags, on the string-valued
    properties of [parsedArgs]; the boolean flags and [_] are not
    touched. *)
Definition postProcess (parsedArgs : object string) : object string :=
  let withDefaults :=
    fold_left applyDefault (filter hasDefault stringFlags) parsedArgs in
  fold_left applyFallback (filter hasFallback stringFlags) withDefaults.

(** The rows of the table in the comment of [config.ts]: a flag with a
    fallback, and a flag with a default, from what [parseArgs] left. *)
Definition withFallback (f : string) (v : option string) : string :=
  match v with
  | None => EmptyString
  | Some s => if String.eqb s EmptyString then f else s
  end.

Definition withDefault (d : string) (v : option string) : string :=
  match v with
  | None => d
  | Some s => if String.eqb s EmptyString then d else s
  end.

(** What [parseArgs] leaves for a string flag: no property when the flag
    is absent, the empty string when it is given without a value, its
    value otherwise. *)
Definition isAbsent (parsedArgs : object string) (k : string) : bool :=
  match get parsedArgs k with Some _ => false | None => true end.

(** The flags that can make the pre-flight change history: neither is
    given. *)
Definition noRewriteFlags (cfg : config) : bool :=
  negb (JS.truthy (cleanse cfg)) && negb (JS.truthy (reset cfg)).

(** The commands the pre-flight runs when neither flag is given. *)
Definition plainPreflightCommand (futureNowString : string) (cfg : config)
    (args : list string) : bool :=
  existsb (fun allowed => if list_eq_dec string_dec allowed args then true else false)
    ([ ["git"; "--version"]; ["echo"; "test"];
       ["git"; "rev-parse"; "--is-inside-work-tree"]; ["git"; "init"];
       ["git"; "status"; "--porcelain"];
       ["git"; "rev-list"; "--count"; "HEAD"];
       ["git"; "add"; "."] ]
     ++ match endUserInfo cfg with
        | Some (file, msg) =>
            [ ["echo"; msg; ">"; file];
              ["git"; "commit"; "--quiet"; "--date"; futureNowString; "-m"; "INIT"] ]
        | None =>
            [ ["echo"; (App.quote ++ futureNowString ++ App.quote)%string; ">";
               targetFile cfg];
              ["git"; "commit"; "--quiet"; "--date"; futureNowString; "-m";
               futureNowString] ]
        end)%list.

End Config.

(** ** [test/config_test.ts] *)
Module ConfigTest.
Import Config.
Local Open Scope string_scope.

Inductive prop := PropName | PropAlias.

(** How a call of [checkForDuplicates] ends: it returns, it throws the
    [Error] carrying [errorMsg] (and the duplicates as JSON, left out),
    or it throws the TypeError of calling [push] on something that has
    none. *)
Inductive outcome :=
  | Returned
  | DuplicatesFound (errorMsg : string)
  | NotAFunction.

Definition FLAG_ARRAYS : object (list FlagDefinition) :=
  [ ("boolFlags", boolFlags); ("stringFlags", stringFlags) ].

(** [flagDef[prop]] *)
Definition keyOf (p : prop) (flagDef : FlagDefinition) : option string :=
  match p with
  | PropName => Some (name flagDef)
  | PropAlias => alias flagDef
  end.

(** The body of the inner loop; [None] once the TypeError is thrown. *)
Definition visit (p : prop) (arrLabel : string)
    (st : option (object (list string))) (flagDef : FlagDefinition)
  : option (object (list string)) :=
  match st with
  | None => None
  | Some occurrenceMap =>
      if Config.truthy (keyOf p flagDef) then
        match keyOf p flagDef with
        | None => Some occurrenceMap
        | Some key =>
            let pushed :=
              match p with
              | PropName => arrLabel
              | PropAlias => name flagDef ++ " in " ++ arrLabel
              end in
            match get occurrenceMap key with
            | Some occurrences =>
                Some (set occurrenceMap key (occurrences ++ [pushed])%list)
            | None =>
                if inherited key then None
                else Some (set occurrenceMap key [pushed])
            end
        end
      else Some occurrenceMap
  end.

(** The body of the outer loop: the flag definitions of one array. *)
Definition visitArray (p : prop) (st : option (object (list string)))
    (entry : string * list FlagDefinition) : option (object (list string)) :=
  let '(arrLabel, defs) := entry in
  fold_left (visit p arrLabel) defs st.

(** [checkForDuplicates(prop, errorMsg)] over the given arrays. *)
Definition checkForDuplicatesIn (arrays : object (list FlagDefinition))
    (p : prop) (errorMsg : string) : outcome :=
  match fold_left (visitArray p) arrays (Some []) with
  | None => NotAFunction
  | Some occurrenceMap =>
      let duplicates :=
        filter (fun '(_, occurrences) => (1 <? List.length occurrences)%nat)
               occurrenceMap in
      match duplicates with
      | [] => Returned
      | _ :: _ => DuplicatesFound errorMsg
      end
  end.

Definition checkForDuplicates : prop -> string -> outcome :=
  checkForDuplicatesIn FLAG_ARRAYS.

(** The key a flag definition makes the loop visit: its truthy [prop]. *)
Definition visited (p : prop) (flagDef : FlagDefinition) : list string :=
  match keyOf p flagDef with
  | Some key => if JS.truthy key then [key] else []
  | None => []
  end.

(** The keys the loops visit, in order, over all the arrays. *)
Definition keysOf (p : prop) (arrays : object (list FlagDefinition))
  : list string :=
  flat_map (fun entry => flat_map (visited p) (snd entry)) arrays.

Definition keys {V : Type} (o : object V) : list string := map fst o.

(** What the occurrence map holds once the keys [ks] have been visited:
    one entry for each key, with one occurrence for each visit. *)
Definition counts (occurrenceMap : object (list string)) (ks : list string)
  : Prop :=
  NoDup (keys occurrenceMap)
  /\ forall k,
       match get occurrenceMap k with
       | Some occurrences =>
           List.length occurrences = count_occ string_dec ks k
       | None => count_occ string_dec ks k = 0%nat
       end.

(** No key of the occurrence map is an inherited name. *)
Definition ownKeys (st : option (object (list string))) : Prop :=
  forall occurrenceMap k,
    st = Some occurrenceMap -> In k (keys occurrenceMap) -> inherited k = false.

End ConfigTest.

(** ** [src/U_logger.ts] *)
Module U_logger.
Local Open Scope string_scope.

(** The array the logger closes over, and what has been written to the
    console. *)
Record state := mkLogger
  { logArray : list string;
    console : list string }.

Definition doLog (silent : bool) (msg : string) (st : state) : state :=
  if silent then
    {| logArray := (logArray st ++ [msg])%list; console := console st |}
  else
    {| logArray := (logArray st ++ [msg])%list;
       console := (console st ++ [msg])%list |}.

(** [initializeLogger(silent)], with the [prelog] of [config.ts] and the
    console as it is found. *)
Definition initializeLogger (silent : bool) (prelog : list string)
    (console0 : list string) : state :=
  doLog silent "--------------"
    (fold_left (fun st item => doLog silent item st) prelog
       {| logArray := []; console := console0 |}).

Definition getLog (st : state) : list string := logArray st.

Definition printLog (st : state) : state :=
  {| logArray := logArray st;
     console :=
       fold_left (fun out msg => (out ++ [msg])%list) (logArray st) (console st) |}.

(** A run of [logger.log] calls. *)
Definition logAll (silent : bool) (msgs : list string) (st : state) : state :=
  fold_left (fun st msg => doLog silent msg st) msgs st.

End U_logger.

(** ** [UNUSED_drawDate] of [src/date_to_commit.ts] *)
Module Drawing.
Import JSDate DateFns.
Local Open Scope string_scope.







End Drawing.

(* ================================================================== *)
(** * Part II: properties *)
(* ================================================================== *)

Ltac divlia := Z.div_mod_to_equations; lia.

(** ** The calendar *)
Module JSDateFacts.
Import JSDate Spec.

Lemma isLeapYear_true y :
  isLeapYear y = true <->
  (y mod 400 = 0 \/ (y mod 4 = 0 /\ y mod 100 <> 0)).
Proof.
  unfold isLeapYear.
  rewrite orb_true_iff, andb_true_iff, negb_true_iff, !Z.eqb_eq, Z.eqb_neq.
  tauto.
Qed.

Lemma DayFromYear_succ y : DayFromYear (y + 1) = DayFromYear y + DaysInYear y.
Proof.
  unfold DaysInYear. destruct (isLeapYear y) eqn:E.
  - apply isLeapYear_true in E. unfold DayFromYear. divlia.
  - assert (H : ~ (y mod 400 = 0 \/ (y mod 4 = 0 /\ y mod 100 <> 0))).
    { rewrite <- isLeapYear_true. congruence. }
    unfold DayFromYear. divlia.
Qed.

Lemma DayFromYear_gap y y' :
  y <= y' -> DayFromYear y + 364 * (y' - y) <= DayFromYear y'.
Proof. intros. unfold DayFromYear. divlia. Qed.

(** [YearFromDay d] is the year whose days contain [d]. *)
Lemma YearFromDay_spec d :
  DayFromYear (YearFromDay d) <= d < DayFromYear (YearFromDay d + 1).
Proof.
  unfold YearFromDay. cbv zeta.
  set (g := 1970 + 400 * d / 146097).
  assert (Hg : 146097 * (g - 1970) <= 400 * d < 146097 * (g - 1970) + 146097).
  { subst g. divlia. }
  clearbody g.
  destruct (Z.ltb_spec d (DayFromYear g)).
  - replace (g - 1 + 1) with g by lia. split; [|lia].
    unfold DayFromYear in *. divlia.
  - destruct (Z.leb_spec (DayFromYear (g + 1)) d).
    + split; [lia|]. unfold DayFromYear in *. divlia.
    + lia.
Qed.

Lemma YearFromDay_unique y d :
  DayFromYear y <= d < DayFromYear (y + 1) -> YearFromDay d = y.
Proof.
  intros H. pose proof (YearFromDay_spec d) as S.
  set (y' := YearFromDay d) in *. clearbody y'.
  destruct (Z.lt_trichotomy y y') as [L | [E | L]]; [exfalso | auto | exfalso].
  - pose proof (DayFromYear_gap (y + 1) y'). lia.
  - pose proof (DayFromYear_gap (y' + 1) y). lia.
Qed.

Ltac month_cases m :=
  let C := fresh "C" in
  assert (C : m = 0 \/ m = 1 \/ m = 2 \/ m = 3 \/ m = 4 \/ m = 5 \/ m = 6
              \/ m = 7 \/ m = 8 \/ m = 9 \/ m = 10 \/ m = 11) by lia;
  repeat (destruct C as [-> | C]); try subst m.

Ltac split_ltb :=
  repeat match goal with
         | |- context [?a <? ?b] => destruct (Z.ltb_spec a b); try lia
         end.

Lemma monthOfDayInYear_start leap m d :
  0 <= m <= 11 -> 1 <= d <= monthLength leap m ->
  monthOfDayInYear leap (monthStart leap m + d - 1) = m.
Proof.
  intros Hm Hd. unfold monthOfDayInYear.
  destruct leap; month_cases m;
    cbv beta iota zeta delta [monthStart monthLength] in *;
    split_ltb; try lia.
Qed.

Lemma monthStart_bound leap m d :
  0 <= m <= 11 -> 1 <= d <= 31 ->
  0 <= monthStart leap m + d - 1 < (if leap then 366 else 365).
Proof.
  intros Hm Hd.
  destruct leap; month_cases m; cbv beta iota zeta delta [monthStart]; lia.
Qed.

Lemma monthOfDayInYear_range (leap : bool) d :
  0 <= monthOfDayInYear leap d <= 11.
Proof.
  unfold monthOfDayInYear. destruct leap; cbv zeta; split_ltb; lia.
Qed.

Lemma dateInMonth_range (leap : bool) d :
  0 <= d < (if leap then 366 else 365) ->
  1 <= d - monthStart leap (monthOfDayInYear leap d) + 1 <= 31.
Proof.
  intros H. unfold monthOfDayInYear.
  destruct leap; cbv zeta;
    repeat match goal with
           | |- context [?a <? ?b] => destruct (Z.ltb_spec a b)
           end;
    cbv beta iota zeta delta [monthStart]; lia.
Qed.

Lemma DayWithinYear_range t :
  0 <= DayWithinYear t < (if InLeapYear t then 366 else 365).
Proof.
  unfold DayWithinYear, InLeapYear, YearFromTime.
  pose proof (YearFromDay_spec (Day t)) as S.
  rewrite DayFromYear_succ in S. unfold DaysInYear in S.
  destruct (isLeapYear (YearFromDay (Day t))); lia.
Qed.

Lemma MonthFromTime_range t : 0 <= MonthFromTime t <= 11.
Proof. apply monthOfDayInYear_range. Qed.

Lemma DateFromTime_range t : 1 <= DateFromTime t <= 31.
Proof. apply dateInMonth_range, DayWithinYear_range. Qed.

(** Month 0..11 needs no carry into the year. *)
Lemma MakeDay_in_year y m d :
  0 <= m <= 11 ->
  MakeDay y m d = DayFromYear y + monthStart (isLeapYear y) m + d - 1.
Proof.
  intros Hm. unfold MakeDay. cbv zeta.
  replace (m / 12) with 0 by divlia.
  replace (m mod 12) with m by divlia.
  now rewrite Z.add_0_r.
Qed.

(** Moving the day of the month by [n] moves the day number by [n]. *)
Lemma MakeDay_shift t n :
  MakeDay (YearFromTime t) (MonthFromTime t) (DateFromTime t + n) = Day t + n.
Proof.
  rewrite MakeDay_in_year by apply MonthFromTime_range.
  unfold DateFromTime, InLeapYear, DayWithinYear. lia.
Qed.

Lemma Day_MakeDate day time :
  0 <= time < msPerDay -> Day (MakeDate day time) = day.
Proof. unfold Day, MakeDate, msPerDay. intros. divlia. Qed.

Lemma MakeDate_Day t : MakeDate (Day t) (TimeWithinDay t) = t.
Proof. unfold Day, MakeDate, TimeWithinDay, msPerDay. divlia. Qed.

Lemma TimeWithinDay_range t : 0 <= TimeWithinDay t < msPerDay.
Proof. unfold TimeWithinDay, msPerDay. divlia. Qed.

(** The fields of a day built from a year, a month and a day of the month
    that exists in a month of that length. *)
Lemma fields_of_MakeDay y m d t :
  0 <= m <= 11 -> 1 <= d <= 31 ->
  Day t = MakeDay y m d ->
  YearFromTime t = y /\
  (d <= monthLength (isLeapYear y) m ->
   MonthFromTime t = m /\ DateFromTime t = d).
Proof.
  intros Hm Hd E. rewrite MakeDay_in_year in E by assumption.
  pose proof (monthStart_bound (isLeapYear y) m d Hm Hd) as B.
  assert (Y : YearFromTime t = y).
  { unfold YearFromTime. apply YearFromDay_unique.
    rewrite DayFromYear_succ. unfold DaysInYear.
    destruct (isLeapYear y); lia. }
  split; [exact Y|]. intros L.
  assert (Mo : MonthFromTime t = m).
  { unfold MonthFromTime, InLeapYear, DayWithinYear. rewrite Y, E.
    replace (DayFromYear y + monthStart (isLeapYear y) m + d - 1 - DayFromYear y)
      with (monthStart (isLeapYear y) m + d - 1) by lia.
    apply monthOfDayInYear_start; lia. }
  split; [exact Mo|].
  unfold DateFromTime. rewrite Mo. unfold InLeapYear, DayWithinYear.
  rewrite Y, E. lia.
Qed.

Lemma TimeClip_in_range t : Z.abs t <= maxTime -> TimeClip t = Some t.
Proof.
  intros H. unfold TimeClip. now destruct (Z.leb_spec (Z.abs t) maxTime); [|lia].
Qed.

Lemma TimeClip_out_of_range t : maxTime < Z.abs t -> TimeClip t = None.
Proof.
  intros H. unfold TimeClip. now destruct (Z.leb_spec (Z.abs t) maxTime); [lia|].
Qed.

Lemma LocalTime_UTC tz t : LocalTime tz (UTC tz t) = t.
Proof. unfold LocalTime, UTC. lia. Qed.

Lemma UTC_LocalTime tz t : UTC tz (LocalTime tz t) = t.
Proof. unfold LocalTime, UTC. lia. Qed.

End JSDateFacts.

(** ** Tokens *)
Module TokenFacts.
Import JSDate DateFns Spec.

Lemma isDigit_val c : JS.isDigit c = true -> 0 <= JS.digitVal c <= 9.
Proof.
  unfold JS.isDigit, JS.digitVal. cbv zeta.
  rewrite andb_true_iff, !Nat.leb_le. lia.
Qed.

Lemma isDigit_not_space c : JS.isDigit c = true -> JS.isSpace c = false.
Proof.
  unfold JS.isDigit, JS.isSpace. cbv zeta.
  rewrite andb_true_iff, !Nat.leb_le. intros [L U].
  rewrite !orb_false_iff, andb_false_iff, !Nat.leb_gt, !Nat.eqb_neq. lia.
Qed.

Lemma isDigit_not_sign c r :
  JS.isDigit c = true ->
  match String c r with
  | String "-" r' => (-1, r')
  | String "+" r' => (1, r')
  | _ => (1, String c r)
  end = (1, String c r).
Proof.
  destruct c as [[] [] [] [] [] [] [] []]; intros H;
    try reflexivity; discriminate H.
Qed.

Lemma digitPrefix_allDigits s : JS.allDigits s = true -> JS.digitPrefix s = s.
Proof.
  induction s as [|c r IH]; cbn [JS.allDigits JS.digitPrefix]; [reflexivity|].
  rewrite andb_true_iff. intros [Hc Hr]. now rewrite Hc, IH.
Qed.

Lemma digitsValue_cons acc c r :
  JS.digitsValue acc (String c r) = JS.digitsValue (10 * acc + JS.digitVal c) r.
Proof. reflexivity. Qed.

Lemma digitsValue_nil acc : JS.digitsValue acc EmptyString = acc.
Proof. reflexivity. Qed.

Lemma digitsValue_nonneg s acc :
  JS.allDigits s = true -> 0 <= acc -> 0 <= JS.digitsValue acc s.
Proof.
  revert acc.
  induction s as [|c r IH]; cbn [JS.allDigits];
    intros acc H Hacc; [exact Hacc|]. rewrite digitsValue_cons.
  apply andb_true_iff in H as [Hc Hr]. apply IH; [exact Hr|].
  pose proof (isDigit_val c Hc). lia.
Qed.

(** [parseInt] reads a relative token in full. *)
Lemma parseInt_relative s :
  JS.isRelativeToken s = true ->
  JS.parseInt s = Some (JS.digitsValue 0 s) /\ 0 <= JS.digitsValue 0 s.
Proof.
  destruct s as [|c r]; [discriminate|]. unfold JS.isRelativeToken.
  intros H. split; [|now apply digitsValue_nonneg].
  pose proof H as H'. cbn in H'. apply andb_true_iff in H' as [Hc Hr].
  unfold JS.parseInt.
  assert (T : JS.trimStart (String c r) = String c r).
  { cbn. now rewrite (isDigit_not_space c Hc). }
  rewrite T, (isDigit_not_sign c r Hc), (digitPrefix_allDigits _ H).
  now rewrite Z.mul_1_l.
Qed.

Lemma offsetDays_nonneg s : 0 <= offsetDays s.
Proof.
  unfold offsetDays. destruct (JS.isRelativeToken s) eqn:E; [|lia].
  now apply parseInt_relative.
Qed.

Lemma totalOffset_nonneg items : 0 <= totalOffset items.
Proof.
  induction items as [|s r IH]; cbn [totalOffset fold_right]; [lia|].
  fold (totalOffset r). pose proof (offsetDays_nonneg s). lia.
Qed.

(** The two shapes exclude each other: a date holds a dash. *)
Lemma date_not_relative s :
  JS.isDateToken s = true -> JS.isRelativeToken s = false.
Proof.
  intros H.
  destruct s as [|y1 [|y2 [|y3 [|y4 [|s1 r]]]]]; try discriminate H.
  cbn in H.
  destruct s1 as [[] [] [] [] [] [] [] []]; try discriminate H.
  cbn. rewrite !andb_false_iff. right. right. right. right. left. reflexivity.
Qed.

Lemma ymdOfToken_some s y m d :
  ymdOfToken s = Some (y, m, d) ->
  JS.isDateToken s = true /\ 0 <= y <= 9999 /\ 0 <= m <= 99 /\ 0 <= d <= 99.
Proof.
  unfold ymdOfToken.
  destruct s as [|y1 [|y2 [|y3 [|y4 [|s1 [|m1 [|m2 [|s2 [|d1 [|d2 [|]]]]]]]]]]];
    try discriminate.
  destruct (JS.isDateToken _) eqn:E; [|discriminate].
  match goal with
  | |- Some (?a, ?b, ?c) = _ -> _ =>
      intros Heq;
      assert (y = a /\ m = b /\ d = c) as (-> & -> & ->)
        by (repeat split; congruence); clear Heq
  end.
  split; [reflexivity|].
  cbn in E.
  destruct s1 as [[] [] [] [] [] [] [] []]; try discriminate E.
  destruct s2 as [[] [] [] [] [] [] [] []];
    try (rewrite ?andb_false_r in E; discriminate E).
  do 7 (apply andb_true_iff in E as [E ?]).
  repeat match goal with
         | H : JS.isDigit _ = true |- _ => apply isDigit_val in H
         end.
  rewrite !digitsValue_cons, !digitsValue_nil. lia.
Qed.

Lemma validDateToken_ymd s :
  validDateToken s = true ->
  exists y m d, ymdOfToken s = Some (y, m, d) /\ validYMD y m d = true.
Proof.
  unfold validDateToken. destruct (ymdOfToken s) as [[[y m] d]|]; [|discriminate].
  intros H. now exists y, m, d.
Qed.

Lemma validDateToken_shape s :
  validDateToken s = true ->
  JS.isDateToken s = true /\ JS.isRelativeToken s = false.
Proof.
  intros H. apply validDateToken_ymd in H as (y & m & d & E & _).
  apply ymdOfToken_some in E as [E _]. split; [exact E|].
  now apply date_not_relative.
Qed.

Lemma validYMD_bounds y m d :
  validYMD y m d = true ->
  0 < y /\ 0 <= m - 1 <= 11 /\
  1 <= d <= monthLength (isLeapYear y) (m - 1) /\ d <= 31.
Proof.
  unfold validYMD. rewrite !andb_true_iff, Z.ltb_lt, !Z.leb_le.
  intros ((((Hy & Hm1) & Hm2) & Hd1) & Hd2).
  assert (C : m = 1 \/ m = 2 \/ m = 3 \/ m = 4 \/ m = 5 \/ m = 6 \/ m = 7
              \/ m = 8 \/ m = 9 \/ m = 10 \/ m = 11 \/ m = 12) by lia.
  repeat (destruct C as [-> | C]); try subst m;
    cbv beta iota zeta delta [daysInMonth monthLength Z.sub Z.add Z.opp
                               Z.pos_sub Pos.pred_double Z.succ_double
                               Z.pred_double Z.double] in *;
    destruct (isLeapYear y); lia.
Qed.

(** The day number of a valid year-month-day of four digits. *)
Lemma MakeDay_bounds y m d :
  0 < y <= 9999 -> 0 <= m <= 11 -> 1 <= d <= 31 ->
  -719162 <= MakeDay y m d <= 2932896.
Proof.
  intros Hy Hm Hd. rewrite JSDateFacts.MakeDay_in_year by assumption.
  pose proof (JSDateFacts.monthStart_bound (isLeapYear y) m d Hm Hd) as B.
  assert (DayFromYear y + (if isLeapYear y then 366 else 365)
          = DayFromYear (y + 1)) as S.
  { rewrite JSDateFacts.DayFromYear_succ. reflexivity. }
  assert (-719162 <= DayFromYear y) by (unfold DayFromYear; divlia).
  assert (DayFromYear (y + 1) <= 2932897) by (unfold DayFromYear; divlia).
  lia.
Qed.

End TokenFacts.

(** ** Dates: [date-fns] and [src/L_time.ts] *)
Module TimeFacts.
Import JSDate DateFns L_time Spec JSDateFacts TokenFacts.

Lemma addMinutes_one t :
  Z.abs t + msPerMinute <= maxTime ->
  addMinutes (Some t) (Some 1) = Some (t + msPerMinute).
Proof.
  intros H. unfold addMinutes, addMilliseconds. cbn [option_map].
  rewrite Z.mul_1_l. apply TimeClip_in_range. unfold msPerMinute in *. lia.
Qed.

(** [addDays] moves a time value by whole days. *)
Lemma addDays_shift tz t a :
  addDays tz (Some t) (Some a) =
  if a =? 0 then Some t else TimeClip (t + a * msPerDay).
Proof.
  unfold addDays. destruct (a =? 0); [reflexivity|].
  cbn [getDate option_map setDate]. f_equal.
  rewrite MakeDay_shift. unfold UTC, MakeDate.
  pose proof (MakeDate_Day (LocalTime tz t)) as E. unfold MakeDate in E.
  unfold LocalTime in *. lia.
Qed.

Lemma normalizeDate_valid tz t :
  validZone tz -> Z.abs t + 100000000 <= maxTime ->
  normalizeDate tz (Some t) = Ok (Some (canonical tz t)).
Proof.
  unfold validZone, canonical. intros Hz Ht.
  unfold normalizeDate, addMinutes, addHours, addMilliseconds.
  cbn [getTimezoneOffset option_map JS.neg].
  unfold msPerHour, msPerMinute, maxTime in *.
  rewrite (TimeClip_in_range (t + 1 * 3600000)) by (unfold maxTime; lia).
  rewrite (TimeClip_in_range (t + 1 * 3600000 + - tz * 60000))
    by (unfold maxTime; lia).
  cbn [toISOString rbind]. unfold newDateOfISO.
  rewrite TimeClip_in_range by (unfold maxTime; lia).
  do 2 f_equal. lia.
Qed.

Lemma normalizeDate_invalid tz : normalizeDate tz None = Throw InvalidTimeValue.
Proof. reflexivity. Qed.

Lemma midnight_bound tz z b :
  validZone tz -> Z.abs z <= b -> b <= 99000000 ->
  Z.abs (midnight tz z) <= b * msPerDay + 86400000
  /\ Z.abs (midnight tz z) + 200000000 <= maxTime.
Proof.
  unfold validZone, midnight, UTC, msPerDay, msPerMinute, maxTime. lia.
Qed.

Lemma midnight_inj tz z z' : midnight tz z = midnight tz z' -> z = z'.
Proof. unfold midnight, UTC, msPerDay. lia. Qed.

Lemma parseDate_ymd tz s y m d :
  ymdOfToken s = Some (y, m, d) -> validYMD y m d = true ->
  parseDate tz s = TimeClip (midnight tz (MakeDay y (m - 1) d)).
Proof.
  intros E V. unfold parseDate, parse_yyyy_MM_dd. rewrite E, V.
  unfold localMidnight, midnight, MakeDate. now rewrite Z.add_0_r.
Qed.

(** A valid date token parses to local midnight of its day, which lies
    between the years 1 and 9999. *)
Lemma parseDate_valid tz s :
  validZone tz -> validDateToken s = true ->
  exists z, parseDate tz s = Some (midnight tz z) /\ Z.abs z <= 2932896.
Proof.
  intros Hz V. destruct (validDateToken_ymd s V) as (y & m & d & E & Vy).
  exists (MakeDay y (m - 1) d).
  pose proof (ymdOfToken_some _ _ _ _ E) as (_ & Hy & _ & _).
  pose proof (validYMD_bounds _ _ _ Vy) as (Hy0 & Hm & Hd & Hd31).
  assert (B : -719162 <= MakeDay y (m - 1) d <= 2932896)
    by (apply MakeDay_bounds; lia).
  split; [|lia].
  rewrite (parseDate_ymd tz s y m d E Vy). apply TimeClip_in_range.
  pose proof (midnight_bound tz (MakeDay y (m - 1) d) 2932896 Hz) as M.
  unfold maxTime in *. lia.
Qed.

Lemma parseDate_invalid tz s :
  JS.isDateToken s = true -> validDateToken s = false ->
  parseDate tz s = None.
Proof.
  unfold validDateToken, parseDate, parse_yyyy_MM_dd.
  destruct (ymdOfToken s) as [[[y m] d]|]; [|reflexivity].
  now intros _ ->.
Qed.

End TimeFacts.

(** ** The resolver, one step at a time *)
Module StepFacts.
Import JSDate DateFns L_time Resolver Spec JSDateFacts TokenFacts TimeFacts.
Local Open Scope string_scope.

Lemma isDirection_cases direction :
  JS.isDirection direction = true -> direction = "+" \/ direction = "-".
Proof.
  destruct direction as [|c [|]]; try discriminate.
  - destruct c as [[] [] [] [] [] [] [] []]; try discriminate; auto.
  - destruct c as [[] [] [] [] [] [] [] []]; discriminate.
Qed.

Lemma direction_sign_valid direction :
  JS.isDirection direction = true ->
  exists dir, direction_sign direction = Ok dir /\ (dir = 1 \/ dir = -1).
Proof.
  intros H. destruct (isDirection_cases _ H) as [-> | ->].
  - exists 1. split; [reflexivity | auto].
  - exists (-1). split; [reflexivity | auto].
Qed.

(** A relative token before any date. *)
Lemma step_relative_first tz dir st item :
  previousDate st = None -> JS.isRelativeToken item = true ->
  step tz dir st item = Throw RelativeBeforeAnyDate.
Proof.
  intros P R. unfold step, thisDate_of. now rewrite R, P.
Qed.

Section Steps.
Variable tz : Z.
Hypothesis Hz : validZone tz.
Variables (dir p o : Z) (ds : list Date) (item : string).

(** Offset 0: one minute after the previous instant. *)
Lemma step_nudge :
  JS.isRelativeToken item = true -> JS.digitsValue 0 item * dir = 0 ->
  Z.abs p + 200000000 <= maxTime ->
  step tz dir (seen p o ds) item
  = Ok (seen (p + msPerMinute) o (ds ++ [Some (canonical tz (p + msPerMinute))])).
Proof.
  intros R Z0 B. unfold step, thisDate_of. rewrite R.
  destruct (parseInt_relative item R) as [-> _].
  cbn [JS.mul seen previousDate previousDate_onlyDate JS.isZero].
  rewrite Z0. cbn [Z.eqb].
  rewrite addMinutes_one by (unfold msPerMinute; lia).
  cbn [rbind]. rewrite normalizeDate_valid
    by (try assumption; unfold msPerMinute; lia).
  reflexivity.
Qed.

(** A nonzero offset: whole days from the previous date-only instant. *)
Lemma step_offset :
  JS.isRelativeToken item = true -> JS.digitsValue 0 item * dir <> 0 ->
  let q := o + JS.digitsValue 0 item * dir * msPerDay in
  Z.abs q + 200000000 <= maxTime ->
  step tz dir (seen p o ds) item = Ok (seen q q (ds ++ [Some (canonical tz q)])).
Proof.
  intros R N q B. unfold step, thisDate_of. rewrite R.
  destruct (parseInt_relative item R) as [-> _].
  cbn [JS.mul seen previousDate previousDate_onlyDate JS.isZero].
  apply Z.eqb_neq in N. rewrite N, addDays_shift, N.
  fold q. rewrite TimeClip_in_range by lia.
  cbn [rbind]. rewrite normalizeDate_valid by (try assumption; lia).
  reflexivity.
Qed.

(** A nonzero offset that leaves the range of time values. *)
Lemma step_offset_overflow :
  JS.isRelativeToken item = true -> JS.digitsValue 0 item * dir <> 0 ->
  maxTime < Z.abs (o + JS.digitsValue 0 item * dir * msPerDay) ->
  step tz dir (seen p o ds) item = Throw InvalidTimeValue.
Proof.
  intros R N B. unfold step, thisDate_of. rewrite R.
  destruct (parseInt_relative item R) as [-> _].
  cbn [JS.mul seen previousDate previousDate_onlyDate JS.isZero].
  apply Z.eqb_neq in N. rewrite N, addDays_shift, N.
  rewrite TimeClip_out_of_range by lia. reflexivity.
Qed.

Variable T : Z.
Hypothesis parsed : parseDate tz item = Some T.
Hypothesis shape : JS.isDateToken item = true.

(** A date equal to the previous instant. *)
Lemma step_date_repeat :
  T = p -> Z.abs p + 200000000 <= maxTime ->
  step tz dir (seen p o ds) item
  = Ok (seen (p + msPerMinute) o (ds ++ [Some (canonical tz (p + msPerMinute))])).
Proof.
  intros E B. unfold step, thisDate_of.
  rewrite (date_not_relative _ shape), shape, parsed.
  cbn [seen previousDate previousDate_onlyDate option_map getTime JS.strictEq].
  rewrite E, Z.eqb_refl, addMinutes_one by (unfold msPerMinute; lia).
  cbn [rbind]. rewrite normalizeDate_valid
    by (try assumption; unfold msPerMinute; lia).
  reflexivity.
Qed.

(** A date equal to the previous date-only instant but not to the
    previous instant. *)
Lemma step_date_onlyDate :
  T <> p -> T = o -> Z.abs p + 200000000 <= maxTime ->
  step tz dir (seen p o ds) item
  = Ok (seen (p + msPerMinute) o (ds ++ [Some (canonical tz (p + msPerMinute))])).
Proof.
  intros N E B. unfold step, thisDate_of.
  rewrite (date_not_relative _ shape), shape, parsed.
  cbn [seen previousDate previousDate_onlyDate option_map getTime JS.strictEq].
  apply Z.eqb_neq in N. rewrite N, E, Z.eqb_refl.
  rewrite addMinutes_one by (unfold msPerMinute; lia).
  cbn [rbind]. rewrite normalizeDate_valid
    by (try assumption; unfold msPerMinute; lia).
  reflexivity.
Qed.

(** Any other date. *)
Lemma step_date_fresh :
  T <> p -> T <> o -> Z.abs T + 200000000 <= maxTime ->
  step tz dir (seen p o ds) item = Ok (seen T T (ds ++ [Some (canonical tz T)])).
Proof.
  intros N N' B. unfold step, thisDate_of.
  rewrite (date_not_relative _ shape), shape, parsed.
  cbn [seen previousDate previousDate_onlyDate option_map getTime JS.strictEq].
  apply Z.eqb_neq in N, N'. rewrite N, N'.
  cbn [rbind]. rewrite normalizeDate_valid by (try assumption; lia).
  reflexivity.
Qed.

(** The first date. *)
Lemma step_date_first :
  Z.abs T + 200000000 <= maxTime ->
  step tz dir initial item = Ok (seen T T [Some (canonical tz T)]).
Proof.
  intros B. unfold step, thisDate_of.
  rewrite (date_not_relative _ shape), shape, parsed.
  cbn [initial previousDate previousDate_onlyDate option_map getTime JS.strictEq].
  cbn [rbind]. rewrite normalizeDate_valid by (try assumption; lia).
  reflexivity.
Qed.
End Steps.

End StepFacts.

(** ** The resolver on whole sequences *)
Module ResolverFacts.
Import JSDate DateFns L_time Resolver Spec.
Import JSDateFacts TokenFacts TimeFacts StepFacts.
Local Open Scope string_scope.

Lemma canonical_midnight tz z :
  canonical tz (midnight tz z) = z * msPerDay + msPerHour.
Proof. unfold canonical, midnight, UTC. lia. Qed.

Lemma canonical_inj tz t t' : canonical tz t = canonical tz t' -> t = t'.
Proof. unfold canonical. lia. Qed.



Lemma midnight_room tz z :
  validZone tz -> Z.abs z <= 2932896 ->
  Z.abs (midnight tz z) + 300000000 <= maxTime.
Proof.
  intros Hz B.
  pose proof (midnight_bound tz z 2932896 Hz B ltac:(lia)) as [M _].
  unfold msPerDay, maxTime in *. lia.
Qed.



(** C4.  A sequence that opens with a relative offset fails, in either
    direction, with the error "Relative date adjustment is used before any
    date has been provided"; no date is produced. *)
Theorem relative_first_fails :
  forall tz direction item rest,
    JS.isDirection direction = true ->
    JS.isRelativeToken item = true ->
    resolve tz direction (item :: rest) = Throw RelativeBeforeAnyDate.
Proof.
  intros tz direction item rest Hd R.
  destruct (direction_sign_valid _ Hd) as (dir & Ed & _).
  unfold resolve. rewrite Ed. cbn [rbind forEach].
  now rewrite (step_relative_first tz dir initial item eq_refl R).
Qed.

Lemma relative_first_fails_witness :
  resolve 300 "-" ["0"; "1990-12-23"] = Throw RelativeBeforeAnyDate.
Proof.
  apply relative_first_fails; reflexivity.
Defined.



(** C10.  Disambiguation is local.  For every zone, either direction,
    every valid calendar date [D] and every nonzero offset [n] of at most
    90,000,000 days, resolving [D; n; D] returns the canonical instant of
    midnight of [D] twice, first and third, around a different second
    instant. *)
Theorem nonadjacent_dates_collide :
  forall tz direction D n,
    validZone tz -> JS.isDirection direction = true ->
    validDateToken D = true ->
    JS.isRelativeToken n = true ->
    0 < JS.digitsValue 0 n <= 90000000 ->
    exists t a b,
      parseDate tz D = Some t
      /\ normalizeDate tz (Some t) = Ok a
      /\ resolve tz direction [D; n; D] = Ok [a; b; a]
      /\ b <> a.
Proof.
  intros tz direction D n Hz Hd V Rn Bn.
  destruct (parseDate_valid tz D Hz V) as (z & P & B).
  destruct (direction_sign_valid _ Hd) as (dir & Ed & Cd).
  destruct (validDateToken_shape _ V) as [Sh _].
  pose proof (midnight_room tz z Hz B) as R.
  set (t := midnight tz z) in *.
  set (k := JS.digitsValue 0 n) in *.
  set (q := t + k * dir * msPerDay).
  assert (Kd : k * dir <> 0) by (destruct Cd; subst dir; lia).
  assert (Q : Z.abs q + 200000000 <= maxTime).
  { pose proof (midnight_bound tz z 2932896 Hz B ltac:(lia)) as [M _].
    fold t in M. subst q. unfold msPerDay, maxTime in *.
    destruct Cd; subst dir; lia. }
  assert (S1 : step tz dir initial D = Ok (seen t t [Some (canonical tz t)]))
    by (apply step_date_first; [assumption..|lia]).
  assert (S2 : step tz dir (seen t t [Some (canonical tz t)]) n
               = Ok (seen q q [Some (canonical tz t); Some (canonical tz q)])).
  { apply (step_offset tz Hz dir t t [Some (canonical tz t)] n Rn Kd Q). }
  assert (Nq : t <> q)
    by (subst q; unfold msPerDay; destruct Cd; subst dir; lia).
  assert (S3 : step tz dir
                 (seen q q [Some (canonical tz t); Some (canonical tz q)]) D
               = Ok (seen t t [Some (canonical tz t); Some (canonical tz q);
                               Some (canonical tz t)])).
  { apply (step_date_fresh tz Hz dir q q
             [Some (canonical tz t); Some (canonical tz q)] D t P Sh);
      [exact Nq | exact Nq | lia]. }
  exists t, (Some (canonical tz t)), (Some (canonical tz q)).
  split; [exact P|]. split; [apply normalizeDate_valid; [assumption|lia]|].
  split.
  - unfold resolve. rewrite Ed. cbn [rbind forEach].
    rewrite S1. cbn [rbind]. rewrite S2. cbn [rbind]. rewrite S3. reflexivity.
  - intros E. injection E as E. apply canonical_inj in E. congruence.
Qed.

Lemma nonadjacent_dates_collide_witness :
  exists t a b,
    parseDate 0 "1990-01-01" = Some t
    /\ normalizeDate 0 (Some t) = Ok a
    /\ resolve 0 "+" ["1990-01-01"; "7"; "1990-01-01"] = Ok [a; b; a]
    /\ b <> a.
Proof.
  apply (nonadjacent_dates_collide 0 "+" "1990-01-01" "7");
    [unfold validZone; lia | reflexivity | reflexivity | reflexivity
    | vm_compute; split; [reflexivity | discriminate]].
Defined.

Lemma parseDate_day tz s y m d z :
  validZone tz ->
  ymdOfToken s = Some (y, m, d) -> validYMD y m d = true ->
  MakeDay y (m - 1) d = z -> Z.abs z <= 2932896 ->
  parseDate tz s = Some (midnight tz z).
Proof.
  intros Hz E V <- B. rewrite (parseDate_ymd tz s y m d E V).
  apply TimeClip_in_range.
  pose proof (midnight_room tz _ Hz B). lia.
Qed.

(** C6.  In every zone, ["1990-12-23"; "3"] resolves with direction [+]
    to the canonical instants of 1990-12-23 and 1990-12-26, and with
    direction [-] to those of 1990-12-23 and 1990-12-20; they are one
    o'clock UTC of these days. *)
Theorem scenario_1990_12_23 :
  forall tz,
    validZone tz ->
    resolve tz "+" ["1990-12-23"; "3"]
    = Ok [Some 661914000000; Some 662173200000]
    /\ resolve tz "-" ["1990-12-23"; "3"]
       = Ok [Some 661914000000; Some 661654800000]
    /\ normalizeDate tz (parseDate tz "1990-12-23") = Ok (Some 661914000000)
    /\ normalizeDate tz (parseDate tz "1990-12-26") = Ok (Some 662173200000)
    /\ normalizeDate tz (parseDate tz "1990-12-20") = Ok (Some 661654800000)
    /\ utcFields 661914000000 = mkFields 1990 11 23 1 0 0 0
    /\ utcFields 662173200000 = mkFields 1990 11 26 1 0 0 0
    /\ utcFields 661654800000 = mkFields 1990 11 20 1 0 0 0.
Proof.
  intros tz Hz.
  assert (P23 : parseDate tz "1990-12-23" = Some (midnight tz 7661))
    by (apply (parseDate_day tz _ 1990 12 23); [assumption|reflexivity..|lia]).
  assert (P26 : parseDate tz "1990-12-26" = Some (midnight tz 7664))
    by (apply (parseDate_day tz _ 1990 12 26); [assumption|reflexivity..|lia]).
  assert (P20 : parseDate tz "1990-12-20" = Some (midnight tz 7658))
    by (apply (parseDate_day tz _ 1990 12 20); [assumption|reflexivity..|lia]).
  assert (N : forall z, Z.abs z <= 2932896 ->
              normalizeDate tz (Some (midnight tz z))
              = Ok (Some (z * msPerDay + msPerHour))).
  { intros z B. rewrite normalizeDate_valid, canonical_midnight;
      [reflexivity | assumption | pose proof (midnight_room tz z Hz B); lia]. }
  assert (S1 : forall dir, step tz dir initial "1990-12-23"
               = Ok (seen (midnight tz 7661) (midnight tz 7661)
                       [Some 661914000000])).
  { intros dir.
    rewrite (step_date_first tz Hz dir "1990-12-23" _ P23 eq_refl)
      by (pose proof (midnight_room tz 7661 Hz ltac:(lia)); lia).
    now rewrite canonical_midnight. }
  assert (S2 : forall dir, dir = 1 \/ dir = -1 ->
               step tz dir (seen (midnight tz 7661) (midnight tz 7661)
                              [Some 661914000000]) "3"
               = Ok (seen (midnight tz (7661 + 3 * dir))
                       (midnight tz (7661 + 3 * dir))
                       [Some 661914000000;
                        Some ((7661 + 3 * dir) * msPerDay + msPerHour)])).
  { intros dir Cd.
    assert (E : midnight tz 7661 + JS.digitsValue 0 "3" * dir * msPerDay
                = midnight tz (7661 + 3 * dir))
      by (unfold midnight, UTC; change (JS.digitsValue 0 "3") with 3; lia).
    rewrite (step_offset tz Hz dir _ _ [Some 661914000000] "3" eq_refl).
    - cbv zeta. rewrite E, canonical_midnight. reflexivity.
    - change (JS.digitsValue 0 "3") with 3. lia.
    - cbv zeta. rewrite E.
      pose proof (midnight_room tz (7661 + 3 * dir) Hz ltac:(lia)). lia. }
  repeat split.
  - unfold resolve. cbn [direction_sign JS.truthy JS.isDirection andb negb
                         String.eqb Ascii.eqb Bool.eqb rbind forEach].
    rewrite S1. cbn [rbind]. rewrite (S2 1) by auto. reflexivity.
  - unfold resolve. cbn [direction_sign JS.truthy JS.isDirection andb negb
                         String.eqb Ascii.eqb Bool.eqb rbind forEach].
    rewrite S1. cbn [rbind]. rewrite (S2 (-1)) by auto. reflexivity.
  - rewrite P23, N by lia. reflexivity.
  - rewrite P26, N by lia. reflexivity.
  - rewrite P20, N by lia. reflexivity.
Qed.

Lemma scenario_1990_12_23_witness :
  resolve 480 "+" ["1990-12-23"; "3"]
  = Ok [Some 661914000000; Some 662173200000]
  /\ resolve 480 "-" ["1990-12-23"; "3"]
     = Ok [Some 661914000000; Some 661654800000]
  /\ normalizeDate 480 (parseDate 480 "1990-12-23") = Ok (Some 661914000000)
  /\ normalizeDate 480 (parseDate 480 "1990-12-26") = Ok (Some 662173200000)
  /\ normalizeDate 480 (parseDate 480 "1990-12-20") = Ok (Some 661654800000)
  /\ utcFields 661914000000 = mkFields 1990 11 23 1 0 0 0
  /\ utcFields 662173200000 = mkFields 1990 11 26 1 0 0 0
  /\ utcFields 661654800000 = mkFields 1990 11 20 1 0 0 0.
Proof.
  apply (scenario_1990_12_23 480). unfold validZone. lia.
Defined.

(** *** Resolution of valid, bounded sequences *)

Lemma validToken_cases item :
  validToken item = true ->
  (validDateToken item = true /\ offsetDays item = 0)
  \/ (JS.isRelativeToken item = true
      /\ offsetDays item = JS.digitsValue 0 item
      /\ 0 <= JS.digitsValue 0 item).
Proof.
  unfold validToken, offsetDays. intros H.
  destruct (JS.isRelativeToken item) eqn:R.
  - right. split; [reflexivity|]. split; [reflexivity|].
    now apply parseInt_relative.
  - left. rewrite orb_false_r in H. now split.
Qed.

Lemma Forall_push (ds : list Date) t :
  Forall (fun d : Date => d <> None) ds ->
  Forall (fun d : Date => d <> None) (ds ++ [Some t]).
Proof.
  intros F. apply Forall_app. split; [exact F|].
  constructor; [discriminate | constructor].
Qed.

(** One step keeps the state tracked and appends one valid instant. *)
Lemma step_tracked tz dir k S st item :
  validZone tz -> dir = 1 \/ dir = -1 ->
  tracked tz k S st -> validToken item = true ->
  0 <= k < 4294967296 -> 0 <= S -> S + offsetDays item <= 90000000 ->
  exists st',
    step tz dir st item = Ok st'
    /\ tracked tz (k + 1) (S + offsetDays item) st'
    /\ List.length (dates st') = Datatypes.S (List.length (dates st)).
Proof.
  intros Hz Cd (z & j & ds & -> & Hj & Bz & F) V Hk HS HB.
  pose proof (offsetDays_nonneg item) as Ni.
  set (o := midnight tz z). set (p := o + j * msPerMinute).
  assert (Mo : Z.abs o <= 92932896 * msPerDay + 86400000).
  { pose proof (midnight_bound tz z 92932896 Hz ltac:(lia) ltac:(lia)) as [M _].
    exact M. }
  assert (Rp : Z.abs p + 300000000 <= maxTime)
    by (subst p; unfold msPerDay, msPerMinute, maxTime in *; lia).
  assert (len : forall q, List.length (ds ++ [Some (canonical tz q)])
                          = Datatypes.S (List.length ds))
    by (intros q; rewrite length_app; cbn; lia).
  destruct (validToken_cases item V) as [[Vd O] | (R & O & N)]; rewrite O.
  - (* a date *)
    destruct (parseDate_valid tz item Hz Vd) as (z1 & P & B1).
    destruct (validDateToken_shape _ Vd) as [Sh _].
    pose proof (midnight_room tz z1 Hz B1) as R1.
    destruct (Z.eq_dec (midnight tz z1) p) as [Ep | Np].
    + eexists. split; [apply (step_date_repeat tz Hz dir p o ds item _ P Sh Ep); lia|].
      split; [|apply len].
      exists z, (j + 1), (ds ++ [Some (canonical tz (p + msPerMinute))])%list.
      split; [subst p; unfold seen; do 3 f_equal; lia|].
      split; [lia|]. split; [lia|]. now apply Forall_push.
    + destruct (Z.eq_dec (midnight tz z1) o) as [Eo | No].
      * eexists. split;
          [apply (step_date_onlyDate tz Hz dir p o ds item _ P Sh Np Eo); lia|].
        split; [|apply len].
        exists z, (j + 1), (ds ++ [Some (canonical tz (p + msPerMinute))])%list.
        split; [subst p; unfold seen; do 3 f_equal; lia|].
        split; [lia|]. split; [lia|]. now apply Forall_push.
      * eexists. split;
          [apply (step_date_fresh tz Hz dir p o ds item _ P Sh Np No); lia|].
        split; [|apply len].
        exists z1, 0, (ds ++ [Some (canonical tz (midnight tz z1))])%list.
        split; [unfold seen; do 3 f_equal; lia|].
        split; [lia|]. split; [lia|]. now apply Forall_push.
  - (* an offset *)
    set (n := JS.digitsValue 0 item) in *.
    destruct (Z.eq_dec (n * dir) 0) as [E0 | N0].
    + eexists. split; [apply (step_nudge tz Hz dir p o ds item R E0); lia|].
      split; [|apply len].
      exists z, (j + 1), (ds ++ [Some (canonical tz (p + msPerMinute))])%list.
      split; [subst p; unfold seen; do 3 f_equal; lia|].
      split; [lia|]. split; [lia|]. now apply Forall_push.
    + assert (Eq : o + n * dir * msPerDay = midnight tz (z + n * dir))
        by (subst o; unfold midnight, UTC; lia).
      assert (Bq : Z.abs (z + n * dir) <= 2932896 + (S + n))
        by (destruct Cd; subst dir; lia).
      assert (Rq : Z.abs (midnight tz (z + n * dir)) + 200000000 <= maxTime).
      { pose proof (midnight_bound tz (z + n * dir) 92932896 Hz
                      ltac:(lia) ltac:(lia)) as [_ M]. exact M. }
      eexists. split.
      { apply (step_offset tz Hz dir p o ds item R N0). cbv zeta.
        fold n. rewrite Eq. exact Rq. }
      cbv zeta. fold n. rewrite Eq. split; [|apply len].
      exists (z + n * dir), 0,
        (ds ++ [Some (canonical tz (midnight tz (z + n * dir)))])%list.
      split; [unfold seen; do 3 f_equal; lia|].
      split; [lia|]. split; [exact Bq|]. now apply Forall_push.
Qed.

Lemma forEach_tracked tz dir items :
  validZone tz -> dir = 1 \/ dir = -1 ->
  forall k S st,
    tracked tz k S st -> forallb validToken items = true ->
    0 <= k -> k + Z.of_nat (List.length items) <= 4294967296 ->
    0 <= S -> S + totalOffset items <= 90000000 ->
    exists st',
      forEach tz dir items st = Ok st'
      /\ List.length (dates st')
         = (List.length (dates st) + List.length items)%nat
      /\ Forall (fun d : Date => d <> None) (dates st').
Proof.
  intros Hz Cd. induction items as [|item rest IH]; intros k S st T V Hk HL HS HB.
  - exists st. split; [reflexivity|]. split; [cbn; lia|].
    destruct T as (z & j & ds & -> & _ & _ & F). exact F.
  - cbn [forallb] in V. apply andb_true_iff in V as [Vi Vr].
    cbn [totalOffset fold_right] in HB. fold (totalOffset rest) in HB.
    cbn [List.length] in HL.
    pose proof (totalOffset_nonneg rest) as Nr.
    pose proof (offsetDays_nonneg item) as Ni.
    destruct (step_tracked tz dir k S st item Hz Cd T Vi) as (st1 & E1 & T1 & L1);
      [lia..|].
    destruct (IH (k + 1) (S + offsetDays item) st1 T1 Vr) as (st' & E' & L' & F');
      [lia..|].
    exists st'. cbn [forEach]. rewrite E1. cbn [rbind].
    split; [exact E'|]. split; [|exact F']. rewrite L', L1. cbn. lia.
Qed.

(** C3 as stated fails: a token of the accepted date shape that
    names no day of the calendar, or an offset that leaves the range of
    time values, makes the resolution throw. *)
Lemma well_formed_tokens_can_throw :
  (forallb wellFormedToken ["1990-02-30"] = true
   /\ JS.isDateToken "1990-02-30" = true
   /\ resolve 0 "+" ["1990-02-30"] = Throw InvalidTimeValue)
  /\ (forallb wellFormedToken ["1990-12-23"; "200000000"] = true
      /\ JS.isDateToken "1990-12-23" = true
      /\ resolve 0 "+" ["1990-12-23"; "200000000"] = Throw InvalidTimeValue).
Proof. repeat split. Qed.

(** C3, amended.  A sequence that opens with a valid calendar date, holds
    only valid calendar dates and non-negative offsets, and whose offsets
    add up to at most 90,000,000 days, resolves without error, in either
    direction, to as many valid instants as it has tokens.  (The sequence
    has at most 2^32 tokens, as every JavaScript array has.) *)
Theorem resolve_valid_sequence :
  forall tz direction first rest,
    validZone tz -> JS.isDirection direction = true ->
    validDateToken first = true ->
    forallb validToken rest = true ->
    Z.of_nat (List.length (first :: rest)) <= 4294967296 ->
    totalOffset (first :: rest) <= 90000000 ->
    exists instants,
      resolve tz direction (first :: rest) = Ok instants
      /\ List.length instants = List.length (first :: rest)
      /\ Forall (fun d : Date => d <> None) instants.
Proof.
  intros tz direction first rest Hz Hd V Vr HL HB.
  destruct (direction_sign_valid _ Hd) as (dir & Ed & Cd).
  destruct (parseDate_valid tz first Hz V) as (z & P & B).
  destruct (validDateToken_shape _ V) as [Sh Nr].
  pose proof (midnight_room tz z Hz B) as R.
  assert (S1 : step tz dir initial first
               = Ok (seen (midnight tz z) (midnight tz z)
                       [Some (canonical tz (midnight tz z))]))
    by (apply step_date_first; [assumption..|lia]).
  assert (T1 : tracked tz 0 0
                 (seen (midnight tz z) (midnight tz z)
                    [Some (canonical tz (midnight tz z))])).
  { exists z, 0, [Some (canonical tz (midnight tz z))].
    split; [unfold seen; do 3 f_equal; lia|]. split; [lia|]. split; [lia|].
    constructor; [discriminate | constructor]. }
  cbn [totalOffset fold_right] in HB. fold (totalOffset rest) in HB.
  assert (O1 : offsetDays first = 0) by (unfold offsetDays; now rewrite Nr).
  cbn [List.length] in HL.
  destruct (forEach_tracked tz dir rest Hz Cd 0 0 _ T1 Vr) as (st' & E' & L' & F');
    [lia..|].
  exists (dates st'). unfold resolve. rewrite Ed. cbn [rbind forEach].
  rewrite S1. cbn [rbind]. rewrite E'. cbn [rbind].
  split; [reflexivity|]. split; [|exact F'].
  rewrite L'. reflexivity.
Qed.

Lemma resolve_valid_sequence_witness :
  exists instants,
    resolve (-330) "-" ["2000-02-29"; "0"; "400"; "2000-02-29"; "2000-02-29"]
    = Ok instants
    /\ List.length instants
       = List.length ["2000-02-29"; "0"; "400"; "2000-02-29"; "2000-02-29"]
    /\ Forall (fun d : Date => d <> None) instants.
Proof.
  apply (resolve_valid_sequence (-330) "-" "2000-02-29"
           ["0"; "400"; "2000-02-29"; "2000-02-29"]);
    [unfold validZone; lia | reflexivity | reflexivity | reflexivity
    | vm_compute; discriminate | vm_compute; discriminate].
Defined.

End ResolverFacts.

(** ** [formatMilliseconds] *)
Module FormatFacts.
Import L_time Spec.
Local Open Scope string_scope.

(** C9 as stated fails from one hour on: 3,599,000 ms round up to
    3600 seconds, sixty minutes, and are printed as zero minutes. *)
Lemma formatMilliseconds_drops_hours :
  formatMilliseconds 3599000 = "00m 00s"
  /\ formatMMmSSs (3599000 / 1000 + 1) = "60m 00s"
  /\ formatMilliseconds 3599000 <> formatMMmSSs (3599000 / 1000 + 1).
Proof. repeat split. vm_compute. discriminate. Qed.

(** C9, amended.  [formatMilliseconds 0] is ["00m 01s"] and
    [formatMilliseconds 59000] is ["01m 00s"]; for every integer [ms] from
    0 up to, not including, 2^53 the result is the number of seconds
    [floor(ms/1000) + 1], taken modulo 3600, written as [MMm SSs]; below
    3,599,000 ms nothing is dropped. *)
Theorem formatMilliseconds_within_the_hour :
  forall ms,
    0 <= ms -> ms < 2 ^ 53 ->
    formatMilliseconds ms = formatMMmSSs ((ms / 1000 + 1) mod 3600)
    /\ (ms < 3599000 -> formatMilliseconds ms = formatMMmSSs (ms / 1000 + 1))
    /\ formatMilliseconds 0 = "00m 01s"
    /\ formatMilliseconds 59000 = "01m 00s".
Proof.
  intros ms H _.
  assert (N : 0 <= ms / 1000 + 1) by divlia.
  assert (E : formatMilliseconds ms = formatMMmSSs ((ms / 1000 + 1) mod 3600)).
  { unfold formatMilliseconds, formatMMmSSs. cbv zeta.
    rewrite !Z.rem_mod_nonneg by lia.
    replace (((ms / 1000 + 1) mod 3600) mod 60) with ((ms / 1000 + 1) mod 60)
      by divlia.
    reflexivity. }
  split; [exact E|]. split; [|split; reflexivity].
  intros L. rewrite E. f_equal. divlia.
Qed.

Lemma formatMilliseconds_within_the_hour_witness :
  formatMilliseconds 125000 = formatMMmSSs ((125000 / 1000 + 1) mod 3600)
  /\ (125000 < 3599000 ->
      formatMilliseconds 125000 = formatMMmSSs (125000 / 1000 + 1))
  /\ formatMilliseconds 0 = "00m 01s"
  /\ formatMilliseconds 59000 = "01m 00s".
Proof.
  apply (formatMilliseconds_within_the_hour 125000); [lia | reflexivity].
Defined.

End FormatFacts.

(** ** Date-range validation: [processDates] *)
Module RangeFacts.
Import JSDate DateFns L_time Spec Run App.
Import JSDateFacts TokenFacts TimeFacts.

Lemma DayFromYear_74 y :
  DayFromYear y <= DayFromYear (y + 74) <= DayFromYear y + 27084.
Proof. unfold DayFromYear. divlia. Qed.

(** [futureNow] lies 74 calendar years after the clock reading. *)
Lemma futureNow_year tz now :
  validZone tz -> validClock now ->
  getFullYear tz (futureNow tz now) = Some (localYear tz now + 74).
Proof.
  unfold validZone, validClock, localYear. intros Hz Hn.
  unfold futureNow.
  rewrite TimeClip_in_range by (unfold maxTime; lia).
  cbn [getFullYear option_map setFullYear].
  set (lt := LocalTime tz now). set (y := YearFromTime lt).
  pose proof (MonthFromTime_range lt) as Hm.
  pose proof (DateFromTime_range lt) as Hd.
  pose proof (TimeWithinDay_range lt) as Hw.
  set (day := MakeDay (y + 74) (MonthFromTime lt) (DateFromTime lt)).
  assert (Bd : Day lt - 366 <= day <= Day lt + 27084 + 366).
  { subst day. rewrite MakeDay_in_year by assumption.
    pose proof (monthStart_bound (isLeapYear (y + 74)) _ _ Hm Hd) as Bm.
    pose proof (DayFromYear_74 y) as B74.
    pose proof (YearFromDay_spec (Day lt)) as Sy. fold (YearFromTime lt) in Sy.
    fold y in Sy. rewrite DayFromYear_succ in Sy. unfold DaysInYear in Sy.
    destruct (isLeapYear (y + 74)), (isLeapYear y); lia. }
  assert (Bl : Z.abs lt <= 8000000000000000 + 86400000)
    by (subst lt; unfold LocalTime, msPerMinute; lia).
  assert (BD : Z.abs (Day lt * msPerDay) <= Z.abs lt + msPerDay)
    by (unfold Day, msPerDay; divlia).
  rewrite TimeClip_in_range.
  - cbn [getFullYear option_map]. f_equal. rewrite LocalTime_UTC.
    apply (fields_of_MakeDay (y + 74) (MonthFromTime lt) (DateFromTime lt));
      [assumption..|].
    now apply Day_MakeDate.
  - unfold UTC, MakeDate, msPerDay, msPerMinute, maxTime in *. lia.
Qed.


Section Checks.
Variable tz : Z.
Variable now : Z.
Hypothesis Hz : validZone tz.
Hypothesis Hn : validClock now.

(** The [try] block of the filter accepts exactly the years from 1970
    to the current year plus 73. *)
Lemma checkYear_spec t :
  checkYear tz now (Some t)
  = if acceptedYear (localYear tz now) (localYear tz t) then Ok true
    else if localYear tz t <? 1970 then Throw DateBefore1970
    else Throw (DateAfter (Some (localYear tz now + 73))).
Proof.
  unfold checkYear. rewrite futureNow_year by assumption.
  cbn [getFullYear option_map JS.ltb JS.gtb].
  fold (localYear tz t). unfold acceptedYear.
  replace (localYear tz now + 74 - 1) with (localYear tz now + 73) by lia.
  destruct (Z.ltb_spec (localYear tz t) 1970);
    destruct (Z.leb_spec 1970 (localYear tz t)); try lia; cbn [andb];
    [reflexivity|].
  destruct (Z.ltb_spec (localYear tz now + 73) (localYear tz t));
    destruct (Z.ltb_spec (localYear tz t) (localYear tz now + 74));
    try lia; reflexivity.
Qed.

Lemma stringifyDate_valid t : exists s, stringifyDate tz (Some t) = Ok s.
Proof. unfold stringifyDate, formatISO. eexists. reflexivity. Qed.

Variable cfg : config.

Lemma acceptable_spec t :
  acceptable tz now cfg (Some t)
  = if acceptedYear (localYear tz now) (localYear tz t) then Ok true
    else if let_it_go cfg then Ok false
    else match stringifyDate tz (Some t) with
         | Ok s =>
             Throw (DateNotAcceptable s
                      (if localYear tz t <? 1970 then DateBefore1970
                       else DateAfter (Some (localYear tz now + 73))))
         | Throw e => Throw e
         end.
Proof.
  unfold acceptable. rewrite checkYear_spec.
  destruct (acceptedYear _ _); [reflexivity|].
  destruct (stringifyDate_valid t) as [s ->]. cbn [rbind].
  destruct (localYear tz t <? 1970), (let_it_go cfg); reflexivity.
Qed.

(** Lenient: the filter keeps exactly the accepted instants. *)
Lemma filterDates_lenient ts :
  let_it_go cfg = true ->
  filterDates tz now cfg (map Some ts)
  = Ok (map Some
          (filter (fun t => acceptedYear (localYear tz now) (localYear tz t))
                  ts)).
Proof.
  intros L. induction ts as [|t r IH]; [reflexivity|].
  cbn [map filterDates filter]. rewrite acceptable_spec, L, IH.
  destruct (acceptedYear _ _); reflexivity.
Qed.

(** Not lenient: the first rejected instant makes the filter throw. *)
Lemma filterDates_strict ts :
  let_it_go cfg = false ->
  existsb (fun t => negb (acceptedYear (localYear tz now) (localYear tz t)))
          ts = true ->
  exists s cause, filterDates tz now cfg (map Some ts)
                  = Throw (DateNotAcceptable s cause).
Proof.
  intros L. induction ts as [|t r IH]; [discriminate|].
  cbn [existsb map filterDates]. rewrite acceptable_spec, L.
  destruct (acceptedYear _ _) eqn:A; cbn [negb orb].
  - intros E. destruct (IH E) as (s & c & ->). now exists s, c.
  - intros _. destruct (stringifyDate_valid t) as [s ->].
    eexists _, _. reflexivity.
Qed.
End Checks.



End RangeFacts.

(** ** Runs of the program *)
Module RunFacts.
Import JSDate DateFns L_time Spec Run App.
Local Open Scope string_scope.

Section Monad.
Variable W : Type.
Variable spawn : list string -> W -> (output + string) * W.

Lemma bind_Done {A B} (m : M W A) (k : A -> M W B) w a w' :
  m w = (Done a, w') -> bind m k w = k a w'.
Proof. intros E. unfold bind. now rewrite E. Qed.

Lemma bind_Raised {A B} (m : M W A) (k : A -> M W B) w e w' :
  m w = (Raised e, w') -> bind m k w = (Raised e, w').
Proof. intros E. unfold bind. now rewrite E. Qed.

Lemma tryCatch_Done {A} (m : M W A) h w a w' :
  m w = (Done a, w') -> tryCatch m h w = (Done a, w').
Proof. intros E. unfold tryCatch. now rewrite E. Qed.

Lemma tryCatch_Raised {A} (m : M W A) h w e w' :
  m w = (Raised e, w') -> tryCatch m h w = h e w'.
Proof. intros E. unfold tryCatch. now rewrite E. Qed.

Lemma runCommand_spawned args w out h :
  spawn args (host w) = (inl out, h) ->
  runCommand W spawn args w
  = (Done out, mkWorld h (issued w ++ [args])).
Proof. intros E. unfold runCommand. now rewrite E. Qed.

Lemma runCommand_issued args w :
  issued (snd (runCommand W spawn args w)) = (issued w ++ [args])%list.
Proof.
  unfold runCommand. destruct (spawn args (host w)) as [[out|msg] h];
    reflexivity.
Qed.

(** *** What a computation adds to the trace *)

Lemma issuesOnly_ret {A} P (a : A) : issuesOnly P (@ret W A a).
Proof. intros w. exists []. now rewrite app_nil_r. Qed.

Lemma issuesOnly_raise {A} P e : issuesOnly P (@raise W A e).
Proof. intros w. exists []. now rewrite app_nil_r. Qed.

Lemma issuesOnly_exit {A} P : issuesOnly P (@exit W A).
Proof. intros w. exists []. now rewrite app_nil_r. Qed.

Lemma issuesOnly_lift {A} P (r : result A) : issuesOnly P (@lift W A r).
Proof. destruct r; [apply issuesOnly_ret | apply issuesOnly_raise]. Qed.

Lemma issuesOnly_runCommand (P : list string -> bool) args :
  P args = true -> issuesOnly P (runCommand W spawn args).
Proof.
  intros H w. exists [args]. rewrite runCommand_issued.
  split; [reflexivity|]. cbn. now rewrite H.
Qed.

Lemma issuesOnly_bind {A B} P (m : M W A) (k : A -> M W B) :
  issuesOnly P m -> (forall a, issuesOnly P (k a)) -> issuesOnly P (bind m k).
Proof.
  intros Hm Hk w. destruct (Hm w) as (c1 & E1 & F1). unfold bind.
  destruct (m w) as [[a|e|] w1]; cbn [snd] in *.
  - destruct (Hk a w1) as (c2 & E2 & F2). exists (c1 ++ c2)%list.
    rewrite E2, E1, app_assoc, forallb_app, F1, F2. now split.
  - now exists c1.
  - now exists c1.
Qed.

Lemma issuesOnly_tryCatch {A} P (m : M W A) h :
  issuesOnly P m -> (forall e, issuesOnly P (h e)) ->
  issuesOnly P (tryCatch m h).
Proof.
  intros Hm Hh w. destruct (Hm w) as (c1 & E1 & F1). unfold tryCatch.
  destruct (m w) as [[a|e|] w1]; cbn [snd] in *.
  - now exists c1.
  - destruct (Hh e w1) as (c2 & E2 & F2). exists (c1 ++ c2)%list.
    rewrite E2, E1, app_assoc, forallb_app, F1, F2. now split.
  - now exists c1.
Qed.
End Monad.

(** Breaks a computation down to its commands. *)
Ltac issues :=
  repeat first
    [ apply issuesOnly_ret | apply issuesOnly_raise | apply issuesOnly_exit
    | apply issuesOnly_lift
    | apply issuesOnly_runCommand; reflexivity
    | apply issuesOnly_bind; [|intros ?]
    | apply issuesOnly_tryCatch; [|intros ?]
    | match goal with
      | |- issuesOnly _ (if ?b then _ else _) => destruct b
      | |- issuesOnly _ (match ?x with _ => _ end) => destruct x
      end ].

Section Program.
Variable W : Type.
Variable spawn : list string -> W -> (output + string) * W.
Variables (tz now : Z) (futureNowString : string) (cfg : config).

Lemma preflight_no_hard_reset :
  issuesOnly noHardReset (preflight W spawn futureNowString cfg).
Proof.
  unfold preflight, checkCommandAvailability, check, isGitRepository,
    initializeGitRepository, isRepositoryClean, cleanRepository,
    getCommitCount, createInitialCommit, resetRepository, commit.
  issues.
Qed.

Lemma beforeSnapshot_no_hard_reset :
  issuesOnly noHardReset (beforeSnapshot W spawn tz futureNowString cfg).
Proof.
  unfold beforeSnapshot.
  apply issuesOnly_bind; [issues | intros _].
  apply issuesOnly_bind; [apply preflight_no_hard_reset | intros _].
  issues.
Qed.

Lemma getCurrentCommitHash_spawned w out h :
  spawn ["git"; "rev-parse"; "HEAD"] (host w) = (inl out, h) ->
  getCurrentCommitHash W spawn w
  = (Done (JS.trim (stdout out)),
     mkWorld h (issued w ++ [["git"; "rev-parse"; "HEAD"]])).
Proof.
  intros E. unfold getCurrentCommitHash.
  apply tryCatch_Done. erewrite bind_Done by (apply runCommand_spawned; exact E).
  reflexivity.
Qed.

Lemma hardResetToCommit_spawned commitHash w out h :
  spawn ["git"; "reset"; "--hard"; commitHash] (host w) = (inl out, h) ->
  hardResetToCommit W spawn commitHash w
  = (Done tt,
     mkWorld h (issued w ++ [["git"; "reset"; "--hard"; commitHash]])).
Proof.
  intros E. unfold hardResetToCommit.
  apply tryCatch_Done. erewrite bind_Done by (apply runCommand_spawned; exact E).
  reflexivity.
Qed.

Lemma hardResetToCommit_issued commitHash w :
  issued (snd (hardResetToCommit W spawn commitHash w))
  = (issued w ++ [["git"; "reset"; "--hard"; commitHash]])%list.
Proof.
  unfold hardResetToCommit, tryCatch, bind, runCommand.
  destruct (spawn _ (host w)) as [[out|msg] h]; reflexivity.
Qed.


End Program.

(** *** The in-memory host keeps the contract *)

Lemma trimStart_hash id : JS.trimStart (Fake.hashOf id) = Fake.hashOf id.
Proof. reflexivity. Qed.







(** *** Rollback *)




Lemma futureNowString_scenario :
  stringifyDate 0 (futureNow 0 Scenario.clock) = Ok Scenario.futureNowString.
Proof. reflexivity. Qed.


(** *** Errors before the first commit *)

(** C8 as stated fails twice.  A date of 1960, without
    [let-it-go]: the validation throws before any commit is attempted, and
    the run goes on to a hard reset.  A malformed token on a repository
    without commits: the bootstrap commit is made, then the resolver
    throws, and the commit stays. *)
Lemma errors_before_the_commits_reset_or_mutate :
  (let cfg := Scenario.strict ["1960-01-01"%string] in
   let w := Fake.start (Fake.fresh 2 []) in
   exists dates w1 hash w2 s cause,
     Scenario.beforeSnapshot cfg w = (Done dates, w1)
     /\ App.getCurrentCommitHash Fake.repo Fake.spawn w1 = (Done hash, w2)
     /\ Scenario.processDates cfg dates w2
        = (Raised (DateNotAcceptable s cause), w2)
     /\ existsb isGitCommit (issued (snd (Scenario.main cfg w))) = false
     /\ existsb isHardReset (issued (snd (Scenario.main cfg w))) = true)
  /\ (let cfg := Scenario.strict ["23-12-1990"%string] in
      let w := Fake.start (Fake.fresh 0 []) in
      fst (Scenario.mainBody cfg w) = Raised InvalidInputFormat
      /\ Fake.commits (host w) = []
      /\ Fake.commits (host (snd (Scenario.mainBody cfg w))) = [1%nat]).
Proof.
  split.
  - cbv zeta. eexists _, _, _, _, _, _.
    split; [vm_compute; reflexivity|].
    split; [vm_compute; reflexivity|].
    split; [vm_compute; reflexivity|].
    split; vm_compute; reflexivity.
  - cbv zeta. repeat split; vm_compute; reflexivity.
Qed.

(** C8, amended.  On any host: an error raised before the snapshot ends
    the body of the program there, and up to that point no hard reset has
    been issued (the repairs of the pre-flight may have been).  An instant
    rejected by the validation, without [let-it-go], is found after the
    snapshot and before the first commit: from the snapshot on the run
    issues the reading of the head and one hard reset to it, nothing
    else. *)
Theorem hard_reset_only_after_snapshot :
  forall (W : Type) (spawn : list string -> W -> (output + string) * W)
         tz now futureNowString cfg,
    (forall w e w',
        beforeSnapshot W spawn tz futureNowString cfg w = (Raised e, w') ->
        mainBody W spawn tz now futureNowString cfg w = (Raised e, w')
        /\ exists cmds,
             issued w' = (issued w ++ cmds)%list
             /\ forallb noHardReset cmds = true)
    /\ (validZone tz -> validClock now -> let_it_go cfg = false ->
        forall ts w out h,
          existsb (fun t => negb (acceptedYear (localYear tz now)
                                               (localYear tz t))) ts = true ->
          spawn ["git"; "rev-parse"; "HEAD"] (host w) = (inl out, h) ->
          issued (snd (commitPhase W spawn tz now cfg (map Some ts) w))
          = (issued w ++ [["git"; "rev-parse"; "HEAD"];
                          ["git"; "reset"; "--hard"; JS.trim (stdout out)]])%list).
Proof.
  intros W spawn tz now futureNowString cfg. split.
  - intros w e w' E. split.
    + unfold mainBody. now apply bind_Raised.
    + destruct (beforeSnapshot_no_hard_reset W spawn tz futureNowString cfg w)
        as (cmds & Ei & F).
      rewrite E in Ei. now exists cmds.
  - intros Hz Hn L ts w out h Ex Es.
    destruct (RangeFacts.filterDates_strict tz now Hz Hn cfg ts L Ex)
      as (s & cause & F).
    unfold commitPhase.
    rewrite (bind_Done _ _ _ _ _ _ (getCurrentCommitHash_spawned W spawn _ _ _ Es)).
    rewrite (tryCatch_Raised W _ _ _ (DateNotAcceptable s cause)
               (mkWorld h (issued w ++ [["git"; "rev-parse"; "HEAD"]]))).
    + rewrite hardResetToCommit_issued. cbn [issued].
      now rewrite <- app_assoc.
    + unfold processDates. rewrite F. reflexivity.
Qed.

Lemma hard_reset_only_after_snapshot_witness :
  let cfg := Scenario.strict ["1960-01-01"%string] in
  let w := Fake.start (Fake.fresh 2 []) in
  issued (snd (Scenario.commitPhase cfg [Some (-315532800000)] w))
  = [["git"; "rev-parse"; "HEAD"]; ["git"; "reset"; "--hard"; "ccc"]].
Proof.
  intros cfg w.
  apply (proj2 (hard_reset_only_after_snapshot
                  Fake.repo Fake.spawn 0 Scenario.clock
                  Scenario.futureNowString cfg)
           ltac:(unfold validZone; lia)
           ltac:(unfold validClock, Scenario.clock; lia)
           eq_refl [-315532800000] w
           (mkOutput 0 ("ccc" ++ Fake.newline) EmptyString)
           (host (snd (App.getCurrentCommitHash Fake.repo Fake.spawn w)))
           eq_refl eq_refl).
Defined.

End RunFacts.

(* ================================================================== *)
(** * Part III: further properties of the code *)
(* ================================================================== *)

(** ** The resolver: composition, errors, direction *)
Module ResolverMore.
Import JSDate DateFns L_time Resolver Spec Vocabulary.
Import JSDateFacts TokenFacts TimeFacts StepFacts ResolverFacts.
Local Open Scope string_scope.

Lemma forEach_app tz dir pre rest st :
  forEach tz dir (pre ++ rest) st
  = rbind (forEach tz dir pre st) (forEach tz dir rest).
Proof.
  revert st. induction pre as [|item pre IH]; intros st; [reflexivity|].
  cbn [app forEach]. destruct (step tz dir st item) as [st1|e]; cbn [rbind];
    [apply IH | reflexivity].
Qed.

Lemma TimeClip_Some x u : TimeClip x = Some u -> u = x /\ TimeClip u = Some u.
Proof.
  unfold TimeClip. destruct (Z.abs x <=? maxTime)%Z eqn:E; [|discriminate].
  intros [= <-]. now rewrite E.
Qed.

(** What [normalizeDate] returns is never the Invalid Date. *)
Lemma normalizeDate_Ok tz d n : normalizeDate tz d = Ok n -> n <> None.
Proof.
  unfold normalizeDate.
  destruct (addMinutes (addHours d (Some 1)) (JS.neg (getTimezoneOffset tz d)))
    as [u|] eqn:E; [|discriminate].
  cbn [toISOString rbind]. intros [= <-]. unfold newDateOfISO.
  unfold addMinutes, addMilliseconds in E.
  destruct (addHours d (Some 1)) as [h|]; [|discriminate].
  destruct (option_map _ (JS.neg _)) as [a|]; [|discriminate].
  apply TimeClip_Some in E as [_ ->]. discriminate.
Qed.

Lemma step_appends tz dir st item st' :
  step tz dir st item = Ok st' ->
  exists n, n <> None /\ dates st' = (dates st ++ [n])%list.
Proof.
  unfold step. destruct (thisDate_of tz dir st item) as [[thisDate onlyDate]|e];
    [|discriminate].
  cbn [rbind]. destruct (normalizeDate tz thisDate) as [n|e] eqn:N; [|discriminate].
  cbn [rbind]. intros [= <-]. exists n. split; [|reflexivity].
  now apply (normalizeDate_Ok tz thisDate).
Qed.

Lemma forEach_appends tz dir items :
  forall st st',
    forEach tz dir items st = Ok st' ->
    exists new,
      dates st' = (dates st ++ new)%list
      /\ List.length new = List.length items
      /\ Forall (fun d : Date => d <> None) new.
Proof.
  induction items as [|item rest IH]; intros st st' E.
  - injection E as <-. exists []. now rewrite app_nil_r.
  - cbn [forEach] in E. destruct (step tz dir st item) as [st1|e] eqn:S1;
      [|discriminate].
    cbn [rbind] in E. destruct (step_appends _ _ _ _ _ S1) as (n & Vn & D1).
    destruct (IH _ _ E) as (new & D2 & L & F).
    exists (n :: new). rewrite D2, D1, <- app_assoc.
    split; [reflexivity|]. split; [cbn; now rewrite L|]. now constructor.
Qed.

Lemma resolve_forEach tz direction items l :
  resolve tz direction items = Ok l ->
  exists dir st,
    direction_sign direction = Ok dir
    /\ forEach tz dir items initial = Ok st /\ dates st = l.
Proof.
  unfold resolve.
  destruct (direction_sign direction) as [dir|e] eqn:Ed; [|discriminate].
  cbn [rbind].
  destruct (forEach tz dir items initial) as [st|e] eqn:Ef; [|discriminate].
  cbn [rbind]. intros [= <-]. exists dir, st. repeat split. exact Ef.
Qed.

(** X1.  Resolution is causal.  Whenever a sequence resolves, it gives one
    valid instant per token, and each of its prefixes resolves, alone, to
    the same instants: what a token becomes never depends on the tokens
    after it. *)
Theorem resolve_is_causal :
  forall tz direction pre rest instants,
    resolve tz direction (pre ++ rest) = Ok instants ->
    resolve tz direction pre = Ok (firstn (List.length pre) instants)
    /\ List.length instants = List.length (pre ++ rest)
    /\ Forall (fun d : Date => d <> None) instants.
Proof.
  intros tz direction pre rest l E.
  destruct (resolve_forEach _ _ _ _ E) as (dir & st & Ed & Ef & <-).
  rewrite forEach_app in Ef.
  destruct (forEach tz dir pre initial) as [s1|e] eqn:E1; [|discriminate].
  cbn [rbind] in Ef.
  destruct (forEach_appends _ _ _ _ _ E1) as (n1 & D1 & L1 & F1).
  destruct (forEach_appends _ _ _ _ _ Ef) as (n2 & D2 & L2 & F2).
  cbn [initial dates app] in D1. rewrite D2, D1.
  split; [|split].
  - unfold resolve. rewrite Ed. cbn [rbind]. rewrite E1. cbn [rbind].
    rewrite D1, <- L1, firstn_app, Nat.sub_diag, firstn_all. cbn [firstn].
    now rewrite app_nil_r.
  - now rewrite !length_app, L1, L2.
  - apply Forall_app. now split.
Qed.

Lemma resolve_is_causal_witness :
  resolve 0 "+" ["1990-12-23"; "0"]
  = Ok (firstn (List.length ["1990-12-23"; "0"])
          [Some 661914000000; Some 661914060000; Some 662173200000])
  /\ List.length [Some 661914000000; Some 661914060000; Some 662173200000]
     = List.length (["1990-12-23"; "0"] ++ ["3"])
  /\ Forall (fun d : Date => d <> None)
       [Some 661914000000; Some 661914060000; Some 662173200000].
Proof.
  apply (resolve_is_causal 0 "+" ["1990-12-23"; "0"] ["3"]). reflexivity.
Defined.

(** X2.  The first error wins.  When a sequence fails, every sequence that
    extends it fails with the same error: the tokens after the failing one
    are never looked at. *)
Theorem first_error_wins :
  forall tz direction pre rest e,
    resolve tz direction pre = Throw e ->
    resolve tz direction (pre ++ rest) = Throw e.
Proof.
  intros tz direction pre rest e. unfold resolve.
  destruct (direction_sign direction) as [dir|e0]; [|trivial].
  cbn [rbind]. rewrite forEach_app.
  destruct (forEach tz dir pre initial) as [st|e1]; cbn [rbind];
    [discriminate | trivial].
Qed.

Lemma first_error_wins_witness :
  resolve 0 "+" (["1990-12-23"; "+3"] ++ ["1990-12-24"; "oops"])
  = Throw InvalidInputFormat.
Proof.
  apply (first_error_wins 0 "+" ["1990-12-23"; "+3"]). reflexivity.
Defined.

(** X3.  After a prefix that resolves (the empty one included), a token of
    neither shape, such as a signed number, fails with the error "Invalid
    input format", and a token of the date shape that names no day of the
    calendar fails with RangeError "Invalid time value", whatever the
    tokens before and after it. *)
Theorem bad_token_errors :
  forall tz direction pre bad rest instants,
    resolve tz direction pre = Ok instants ->
    (JS.isRelativeToken bad = false -> JS.isDateToken bad = false ->
     resolve tz direction (pre ++ bad :: rest) = Throw InvalidInputFormat)
    /\ (JS.isDateToken bad = true -> validDateToken bad = false ->
        resolve tz direction (pre ++ bad :: rest) = Throw InvalidTimeValue).
Proof.
  intros tz direction pre bad rest l E.
  destruct (resolve_forEach _ _ _ _ E) as (dir & st & Ed & Ef & _).
  split.
  - intros R D. unfold resolve. rewrite Ed. cbn [rbind].
    rewrite forEach_app, Ef. cbn [rbind forEach].
    unfold step, thisDate_of. now rewrite R, D.
  - intros D V. unfold resolve. rewrite Ed. cbn [rbind].
    rewrite forEach_app, Ef. cbn [rbind forEach].
    unfold step, thisDate_of.
    rewrite (date_not_relative _ D), D, (parseDate_invalid tz bad D V).
    reflexivity.
Qed.

Lemma bad_token_errors_witness :
  resolve 0 "+" (["1990-12-23"] ++ "-3" :: ["1"]) = Throw InvalidInputFormat
  /\ resolve 0 "-" (["1990-12-23"; "0"] ++ "1990-02-30" :: [])
     = Throw InvalidTimeValue.
Proof.
  split.
  - apply (proj1 (bad_token_errors 0 "+" ["1990-12-23"] "-3" ["1"]
                    [Some 661914000000] eq_refl)); reflexivity.
  - apply (proj2 (bad_token_errors 0 "-" ["1990-12-23"; "0"] "1990-02-30" []
                    [Some 661914000000; Some 661914060000] eq_refl));
      reflexivity.
Defined.

(** *** Direction *)

Lemma step_direction_free tz st item :
  directionFree item = true ->
  step tz 1 st item = step tz (-1) st item.
Proof.
  unfold directionFree, step, thisDate_of. intros H.
  destruct (JS.isRelativeToken item) eqn:R; [|reflexivity].
  cbn [negb orb] in H. apply Z.eqb_eq in H.
  destruct (parseInt_relative item R) as [-> _]. rewrite H. reflexivity.
Qed.

(** X4.  The direction only matters to nonzero offsets: a sequence of
    dates, offsets of 0 and malformed tokens resolves to the same result,
    instants or error, with [+] and with [-]. *)
Theorem direction_only_matters_to_offsets :
  forall tz items,
    forallb directionFree items = true ->
    resolve tz "+" items = resolve tz "-" items.
Proof.
  intros tz items H. unfold resolve.
  change (direction_sign "+") with (Ok (A := Z) 1).
  change (direction_sign "-") with (Ok (A := Z) (-1)).
  cbn [rbind]. f_equal. generalize initial.
  induction items as [|item rest IH]; intros st; [reflexivity|].
  cbn [forallb] in H. apply andb_true_iff in H as [Hi Hr].
  cbn [forEach]. rewrite (step_direction_free tz st item Hi).
  destruct (step tz (-1) st item) as [st1|e]; cbn [rbind];
    [now apply IH | reflexivity].
Qed.

Lemma direction_only_matters_to_offsets_witness :
  resolve 60 "+" ["2001-09-09"; "0"; "2001-09-09"; "00"; "2001-09-10"]
  = resolve 60 "-" ["2001-09-09"; "0"; "2001-09-09"; "00"; "2001-09-10"].
Proof.
  apply direction_only_matters_to_offsets. reflexivity.
Defined.

(** *** Runs of tokens on one day *)

Lemma parseDate_dayNumber tz s :
  validZone tz -> validDateToken s = true ->
  parseDate tz s = Some (midnight tz (dayNumber s))
  /\ Z.abs (dayNumber s) <= 2932896.
Proof.
  intros Hz V. destruct (validDateToken_ymd s V) as (y & m & d & E & Vy).
  unfold dayNumber. rewrite E.
  pose proof (ymdOfToken_some _ _ _ _ E) as (_ & Hy & _ & _).
  pose proof (validYMD_bounds _ _ _ Vy) as (Hy0 & Hm & Hd & Hd31).
  assert (B : -719162 <= MakeDay y (m - 1) d <= 2932896)
    by (apply MakeDay_bounds; lia).
  split; [|lia].
  apply (parseDate_day tz s y m d); [assumption.. | reflexivity | lia].
Qed.

Lemma rungs_app tz t j n k :
  rungs tz t j (n + k) = (rungs tz t j n ++ rungs tz t (j + Z.of_nat n) k)%list.
Proof.
  revert j. induction n as [|n IH]; intros j.
  - cbn [rungs Nat.add app]. now rewrite Z.add_0_r.
  - cbn [rungs Nat.add app]. rewrite IH. do 3 f_equal. lia.
Qed.



Lemma rungs_length tz t j n : List.length (rungs tz t j n) = n.
Proof. revert j. induction n as [|n IH]; intros j; cbn; [|rewrite IH]; reflexivity. Qed.

(** A run of same-day tokens moves the previous instant a minute per token
    and leaves the previous date-only instant alone. *)
Lemma forEach_same_day tz dir D z rest :
  validZone tz -> validDateToken D = true ->
  parseDate tz D = Some (midnight tz z) -> Z.abs z <= 2932896 ->
  forallb (sameDayToken D) rest = true ->
  forall j ds,
    0 <= j -> j + Z.of_nat (List.length rest) <= 4294967296 ->
    forEach tz dir rest
      (seen (midnight tz z + j * msPerMinute) (midnight tz z) ds)
    = Ok (seen (midnight tz z + (j + Z.of_nat (List.length rest)) * msPerMinute)
            (midnight tz z)
            (ds ++ rungs tz (midnight tz z) (j + 1) (List.length rest))).
Proof.
  intros Hz V P B. destruct (validDateToken_shape _ V) as [Sh _].
  pose proof (midnight_bound tz z 2932896 Hz B ltac:(lia)) as [M _].
  set (t := midnight tz z) in *.
  induction rest as [|item rest IH]; intros H j ds Hj HL.
  - cbn [forEach List.length rungs]. rewrite app_nil_r.
    now replace (j + Z.of_nat 0) with j by lia.
  - cbn [forallb] in H. apply andb_true_iff in H as [Hi Hr].
    cbn [List.length] in HL. rewrite Nat2Z.inj_succ in HL.
    assert (R : Z.abs (t + j * msPerMinute) + 200000000 <= maxTime)
      by (unfold msPerDay, msPerMinute, maxTime in *; lia).
    assert (S1 : step tz dir (seen (t + j * msPerMinute) t ds) item
                 = Ok (seen (t + j * msPerMinute + msPerMinute) t
                         (ds ++ [Some (canonical tz
                                         (t + j * msPerMinute + msPerMinute))]))).
    { unfold sameDayToken in Hi. apply orb_true_iff in Hi as [Hi | Hi].
      - apply String.eqb_eq in Hi. subst item.
        destruct (Z.eq_dec j 0) as [-> | Nj].
        + apply (step_date_repeat tz Hz dir _ t ds D t P Sh); [lia | exact R].
        + apply (step_date_onlyDate tz Hz dir _ t ds D t P Sh);
            [unfold msPerMinute; lia | reflexivity | exact R].
      - apply andb_true_iff in Hi as [Ri Zi]. apply Z.eqb_eq in Zi.
        apply (step_nudge tz Hz dir _ t ds item Ri); [now rewrite Zi | exact R]. }
    cbn [forEach]. rewrite S1. cbn [rbind].
    replace (t + j * msPerMinute + msPerMinute) with (t + (j + 1) * msPerMinute)
      by lia.
    rewrite (IH Hr (j + 1)) by lia.
    cbn [List.length rungs]. rewrite Nat2Z.inj_succ, <- app_assoc. cbn [app].
    do 3 f_equal. lia.
Qed.



(** *** Hops *)

(** X6.  Minutes never leak into a hop.  After a date and any run of
    tokens staying on its day, a nonzero offset lands on the instant it
    lands on straight after the date: whole days from midnight, however
    many minutes the run has added. *)
Theorem hops_start_from_midnight :
  forall tz direction D rest n,
    validZone tz -> JS.isDirection direction = true ->
    validDateToken D = true ->
    forallb (sameDayToken D) rest = true ->
    Z.of_nat (List.length (D :: rest)) <= 4294967296 ->
    JS.isRelativeToken n = true ->
    0 < JS.digitsValue 0 n <= 90000000 ->
    exists t a b,
      parseDate tz D = Some t
      /\ resolve tz direction [D; n] = Ok [a; b]
      /\ resolve tz direction (D :: rest ++ [n])
         = Ok (ladder tz t (List.length (D :: rest)) ++ [b])%list.
Proof.
  intros tz direction D rest n Hz Hd V H HL Rn Bn.
  destruct (direction_sign_valid _ Hd) as (dir & Ed & Cd).
  destruct (parseDate_dayNumber tz D Hz V) as [P B].
  destruct (validDateToken_shape _ V) as [Sh _].
  pose proof (midnight_room tz _ Hz B) as R.
  pose proof (midnight_bound tz _ 2932896 Hz B ltac:(lia)) as [M _].
  set (t := midnight tz (dayNumber D)) in *.
  set (k := JS.digitsValue 0 n) in *.
  set (q := t + k * dir * msPerDay).
  assert (Kd : k * dir <> 0) by (destruct Cd; subst dir; lia).
  assert (Q : Z.abs q + 200000000 <= maxTime).
  { subst q. unfold msPerDay, maxTime in *. destruct Cd; subst dir; lia. }
  assert (S1 : step tz dir initial D = Ok (seen t t [Some (canonical tz t)]))
    by (apply step_date_first; [assumption..|lia]).
  assert (Sn : forall p ds, step tz dir (seen p t ds) n
                            = Ok (seen q q (ds ++ [Some (canonical tz q)])))
    by (intros p ds; apply (step_offset tz Hz dir p t ds n Rn Kd Q)).
  cbn [List.length] in HL. rewrite Nat2Z.inj_succ in HL.
  exists t, (Some (canonical tz t)), (Some (canonical tz q)).
  split; [exact P|]. split.
  - unfold resolve. rewrite Ed. cbn [rbind forEach]. rewrite S1. cbn [rbind].
    rewrite Sn. reflexivity.
  - unfold resolve. rewrite Ed. cbn [rbind forEach]. rewrite S1. cbn [rbind].
    rewrite forEach_app.
    pose proof (forEach_same_day tz dir D (dayNumber D) rest Hz V P B H 0
                  [Some (canonical tz t)] ltac:(lia) ltac:(lia)) as E.
    fold t in E. replace (t + 0 * msPerMinute) with t in E by lia.
    rewrite E. cbn [rbind forEach]. rewrite Sn. cbn [rbind seen dates].
    unfold ladder. cbn [List.length rungs app].
    now replace (t + 0 * msPerMinute) with t by lia.
Qed.

Lemma hops_start_from_midnight_witness :
  exists t a b,
    parseDate 0 "1990-01-01" = Some t
    /\ resolve 0 "+" ["1990-01-01"; "7"] = Ok [a; b]
    /\ resolve 0 "+" ("1990-01-01" :: ["0"; "1990-01-01"] ++ ["7"])
       = Ok (ladder 0 t (List.length ("1990-01-01" :: ["0"; "1990-01-01"]))
               ++ [b])%list.
Proof.
  apply (hops_start_from_midnight 0 "+" "1990-01-01" ["0"; "1990-01-01"] "7");
    [unfold validZone; lia | reflexivity | reflexivity | reflexivity
    | vm_compute; discriminate | reflexivity
    | vm_compute; split; [reflexivity | discriminate]].
Defined.



End ResolverMore.

(** ** Dates and durations: [src/L_time.ts] *)
Module TimeMore.
Import JSDate DateFns L_time Spec Vocabulary.
Import JSDateFacts TokenFacts TimeFacts ResolverFacts.
Local Open Scope string_scope.

Lemma Day_of_day z : Day (z * msPerDay) = z.
Proof. unfold Day, msPerDay. divlia. Qed.

Lemma clock_fields_of_day z h :
  0 <= h < 24 ->
  let t := z * msPerDay + h * msPerHour in
  Day t = z /\ HourFromTime t = h /\ MinFromTime t = 0
  /\ SecFromTime t = 0 /\ msFromTime t = 0.
Proof.
  intros Hh t. subst t.
  unfold Day, HourFromTime, MinFromTime, SecFromTime, msFromTime,
    msPerDay, msPerHour, msPerMinute.
  repeat split; divlia.
Qed.

(** X8.  On a host whose zone is a fixed offset from UTC, whatever the
    offset (zones with daylight-saving transitions are outside the model),
    the canonical instant of a valid date token is one o'clock UTC of the
    very day the token names: [normalizeDate] of [parseDate] takes the
    offset out. *)
Theorem canonical_instant_is_one_utc_of_the_day :
  forall tz D y m d,
    validZone tz ->
    ymdOfToken D = Some (y, m, d) -> validYMD y m d = true ->
    exists c,
      normalizeDate tz (parseDate tz D) = Ok (Some c)
      /\ utcFields c = mkFields y (m - 1) d 1 0 0 0.
Proof.
  intros tz D y m d Hz E V.
  pose proof (ymdOfToken_some _ _ _ _ E) as (_ & Hy & _ & _).
  pose proof (validYMD_bounds _ _ _ V) as (Hy0 & Hm & Hd & Hd31).
  set (z := MakeDay y (m - 1) d).
  assert (B : -719162 <= z <= 2932896) by (apply MakeDay_bounds; lia).
  assert (Ba : Z.abs z <= 2932896) by lia.
  exists (z * msPerDay + 1 * msPerHour).
  rewrite (parseDate_day tz D y m d z Hz E V eq_refl Ba).
  rewrite normalizeDate_valid, canonical_midnight;
    [|assumption | pose proof (midnight_room tz z Hz Ba); lia].
  split; [now rewrite Z.mul_1_l|].
  destruct (clock_fields_of_day z 1 ltac:(lia)) as (Dz & Hh & Hmi & Hs & Hms).
  destruct (fields_of_MakeDay y (m - 1) d _ Hm ltac:(lia) Dz) as [Y MD].
  destruct (MD ltac:(lia)) as [Mo Da].
  unfold utcFields. now rewrite Y, Mo, Da, Hh, Hmi, Hs, Hms.
Qed.

Lemma canonical_instant_is_one_utc_of_the_day_witness :
  exists c,
    normalizeDate (-765) (parseDate (-765) "2000-02-29") = Ok (Some c)
    /\ utcFields c = mkFields 2000 (2 - 1) 29 1 0 0 0.
Proof.
  apply (canonical_instant_is_one_utc_of_the_day (-765) "2000-02-29" 2000 2 29);
    [unfold validZone; lia | reflexivity | reflexivity].
Defined.

(** *** Printing a parsed date *)

Lemma hundred_In x : 0 <= x < 100 -> In x hundred.
Proof.
  intros H. unfold hundred. replace x with (Z.of_nat (Z.to_nat x)) by lia.
  apply in_map, in_seq. lia.
Qed.

Lemma pad4_splits hi lo :
  0 <= hi < 100 -> 0 <= lo < 100 ->
  JS.padStart0 4 (JS.toString (100 * hi + lo))
  = JS.padStart0 2 (JS.toString hi) ++ JS.padStart0 2 (JS.toString lo).
Proof.
  intros Hh Hl.
  assert (C : forallb (fun h => forallb (fun l =>
                String.eqb (JS.padStart0 4 (JS.toString (100 * h + l)))
                  (JS.padStart0 2 (JS.toString h)
                     ++ JS.padStart0 2 (JS.toString l))) hundred) hundred
              = true) by (vm_compute; reflexivity).
  rewrite forallb_forall in C. specialize (C hi (hundred_In hi Hh)).
  rewrite forallb_forall in C. specialize (C lo (hundred_In lo Hl)).
  now apply String.eqb_eq.
Qed.

Lemma pad2_digits c1 c2 :
  JS.isDigit c1 = true -> JS.isDigit c2 = true ->
  JS.padStart0 2 (JS.toString
                    (JS.digitsValue 0 (String c1 (String c2 EmptyString))))
  = String c1 (String c2 EmptyString).
Proof.
  intros H1 H2.
  destruct c1 as [[] [] [] [] [] [] [] []]; try discriminate H1;
    destruct c2 as [[] [] [] [] [] [] [] []]; try discriminate H2;
    reflexivity.
Qed.

Lemma two_digits_range c1 c2 :
  JS.isDigit c1 = true -> JS.isDigit c2 = true ->
  0 <= JS.digitsValue 0 (String c1 (String c2 EmptyString)) < 100.
Proof.
  intros H1 H2. apply isDigit_val in H1, H2.
  rewrite !digitsValue_cons, digitsValue_nil. lia.
Qed.

Lemma pad4_digits c1 c2 c3 c4 :
  JS.isDigit c1 = true -> JS.isDigit c2 = true ->
  JS.isDigit c3 = true -> JS.isDigit c4 = true ->
  JS.padStart0 4
    (JS.toString
       (JS.digitsValue 0
          (String c1 (String c2 (String c3 (String c4 EmptyString))))))
  = String c1 (String c2 (String c3 (String c4 EmptyString))).
Proof.
  intros H1 H2 H3 H4.
  replace (JS.digitsValue 0
             (String c1 (String c2 (String c3 (String c4 EmptyString)))))
    with (100 * JS.digitsValue 0 (String c1 (String c2 EmptyString))
          + JS.digitsValue 0 (String c3 (String c4 EmptyString)))
    by (rewrite !digitsValue_cons, !digitsValue_nil; lia).
  rewrite pad4_splits by (now apply two_digits_range).
  now rewrite !pad2_digits.
Qed.

Lemma date_token_chars D y m d :
  ymdOfToken D = Some (y, m, d) ->
  exists y1 y2 y3 y4 m1 m2 d1 d2,
    D = String y1 (String y2 (String y3 (String y4 (String "-"
          (String m1 (String m2 (String "-"
            (String d1 (String d2 EmptyString)))))))))
    /\ JS.padStart0 4 (JS.toString y)
       = String y1 (String y2 (String y3 (String y4 EmptyString)))
    /\ JS.padStart0 2 (JS.toString m) = String m1 (String m2 EmptyString)
    /\ JS.padStart0 2 (JS.toString d) = String d1 (String d2 EmptyString).
Proof.
  unfold ymdOfToken.
  destruct D as [|y1 [|y2 [|y3 [|y4 [|s1 [|m1 [|m2 [|s2 [|d1 [|d2 [|]]]]]]]]]]];
    try discriminate.
  destruct (JS.isDateToken _) eqn:E; [|discriminate].
  match goal with
  | |- Some (?a, ?b, ?c) = _ -> _ =>
      intros Heq;
      assert (y = a /\ m = b /\ d = c) as (-> & -> & ->)
        by (repeat split; congruence); clear Heq
  end.
  cbn in E.
  destruct s1 as [[] [] [] [] [] [] [] []]; try discriminate E.
  destruct s2 as [[] [] [] [] [] [] [] []];
    try (rewrite ?andb_false_r in E; discriminate E).
  do 7 (apply andb_true_iff in E as [E ?]).
  exists y1, y2, y3, y4, m1, m2, d1, d2.
  split; [reflexivity|].
  now rewrite pad4_digits, !pad2_digits.
Qed.

Lemma addLeadingZeros_nonneg n len :
  0 <= n -> addLeadingZeros n len = JS.padStart0 len (JS.toString n).
Proof.
  intros H. unfold addLeadingZeros.
  destruct (Z.ltb_spec n 0); [lia|]. now rewrite Z.abs_eq by lia.
Qed.

(** X9.  On a host whose zone is a fixed offset from UTC, printing what
    was parsed gives the token back: for a valid date token [D],
    [stringifyDate (parseDate D)] is [D], then ["T00:00:00"], then the
    zone: ["Z"] when the offset is 0, otherwise the sign (["+"] east of
    Greenwich, where [getTimezoneOffset] is negative, ["-"] west of it)
    and the hours and the minutes of the offset, two digits each,
    separated by a colon. *)
Theorem stringify_of_parse_is_the_token_at_local_midnight :
  forall tz D,
    validZone tz -> validDateToken D = true ->
    let pad2 := fun n => JS.padStart0 2 (JS.toString n) in
    let zone :=
      if (tz =? 0)%Z then "Z"
      else (if (tz <? 0)%Z then "+" else "-")
             ++ pad2 (Z.abs tz / 60) ++ ":" ++ pad2 (Z.abs tz mod 60) in
    stringifyDate tz (parseDate tz D) = Ok (D ++ "T00:00:00" ++ zone).
Proof.
  intros tz D Hz V pad2 zone.
  destruct (validDateToken_ymd D V) as (y & m & d & E & Vy).
  pose proof (ymdOfToken_some _ _ _ _ E) as (_ & Hy & _ & _).
  pose proof (validYMD_bounds _ _ _ Vy) as (Hy0 & Hm & Hd & Hd31).
  set (z := MakeDay y (m - 1) d).
  assert (B : -719162 <= z <= 2932896) by (apply MakeDay_bounds; lia).
  rewrite (parseDate_day tz D y m d z Hz E Vy eq_refl ltac:(lia)).
  unfold stringifyDate, formatISO, midnight. rewrite LocalTime_UTC.
  destruct (clock_fields_of_day z 0 ltac:(lia)) as (Dz & Hh & Hmi & Hs & _).
  cbv zeta in Dz, Hh, Hmi, Hs. rewrite Z.mul_0_l, Z.add_0_r in Dz, Hh, Hmi, Hs.
  destruct (fields_of_MakeDay y (m - 1) d _ Hm ltac:(lia) Dz) as [Y MD].
  destruct (MD ltac:(lia)) as [Mo Da].
  cbv zeta. rewrite Y, Mo, Da, Hh, Hmi, Hs.
  replace (m - 1 + 1) with m by lia.
  assert (A : 0 <= Z.abs tz) by lia.
  rewrite (Z.quot_div_nonneg (Z.abs tz) 60) by lia.
  rewrite (Z.rem_mod_nonneg (Z.abs tz) 60) by lia.
  rewrite !addLeadingZeros_nonneg
    by first [lia | apply Z.div_pos; lia | apply Z.mod_pos_bound; lia].
  fold (pad2 (Z.abs tz / 60)) (pad2 (Z.abs tz mod 60)). fold zone.
  destruct (date_token_chars D y m d E)
    as (y1 & y2 & y3 & y4 & m1 & m2 & d1 & d2 & -> & -> & -> & ->).
  reflexivity.
Qed.

Lemma stringify_of_parse_is_the_token_at_local_midnight_witness :
  stringifyDate 300 (parseDate 300 "1999-12-31") = Ok "1999-12-31T00:00:00-05:00"
  /\ stringifyDate (-345) (parseDate (-345) "2024-02-29")
     = Ok "2024-02-29T00:00:00+05:45"
  /\ stringifyDate 0 (parseDate 0 "1970-01-01") = Ok "1970-01-01T00:00:00Z".
Proof.
  split; [|split].
  - apply (stringify_of_parse_is_the_token_at_local_midnight 300 "1999-12-31");
      [unfold validZone; lia | reflexivity].
  - apply (stringify_of_parse_is_the_token_at_local_midnight (-345) "2024-02-29");
      [unfold validZone; lia | reflexivity].
  - apply (stringify_of_parse_is_the_token_at_local_midnight 0 "1970-01-01");
      [unfold validZone; lia | reflexivity].
Defined.

(** *** The sentinel date *)







(** *** Which year the validation sees *)

Lemma checkYear_accepts tz now t :
  validZone tz -> validClock now ->
  (App.checkYear tz now (Some t) = Ok true
   <-> 1970 <= localYear tz t < localYear tz now + 74).
Proof.
  intros Hz Hn. rewrite (RangeFacts.checkYear_spec tz now Hz Hn t).
  unfold acceptedYear.
  destruct (Z.leb_spec 1970 (localYear tz t));
    destruct (Z.ltb_spec (localYear tz t) (localYear tz now + 74));
    cbn [andb];
    try (split; [intros _; lia | reflexivity]);
    destruct (localYear tz t <? 1970)%Z; (split; [discriminate | lia]).
Qed.

(** X11.  The validation reads the year of the canonical instant in local
    time.  From one hour west of Greenwich to less than 23 hours east of it
    that is the year of the token; further west the canonical instant falls on the
    evening before, so that a 1 January counts as the year before:
    1970-01-01 is refused there, and 1 January of the current year plus 74
    is let through. *)
Theorem validation_reads_the_local_year :
  forall tz now D y m d,
    validZone tz -> validClock now ->
    ymdOfToken D = Some (y, m, d) -> validYMD y m d = true ->
    exists c,
      normalizeDate tz (parseDate tz D) = Ok (Some c)
      /\ (-1380 < tz <= 60 ->
          localYear tz c = y
          /\ (App.checkYear tz now (Some c) = Ok true
              <-> 1970 <= y < localYear tz now + 74))
      /\ (60 < tz -> m = 1 -> d = 1 ->
          localYear tz c = y - 1
          /\ (App.checkYear tz now (Some c) = Ok true
              <-> 1971 <= y < localYear tz now + 75)).
Proof.
  intros tz now D y m d Hz Hn E V.
  pose proof (ymdOfToken_some _ _ _ _ E) as (_ & Hy & _ & _).
  pose proof (validYMD_bounds _ _ _ V) as (Hy0 & Hm & Hd & Hd31).
  set (z := MakeDay y (m - 1) d).
  assert (B : -719162 <= z <= 2932896) by (apply MakeDay_bounds; lia).
  assert (Ba : Z.abs z <= 2932896) by lia.
  exists (z * msPerDay + msPerHour).
  rewrite (parseDate_day tz D y m d z Hz E V eq_refl Ba).
  rewrite normalizeDate_valid, canonical_midnight;
    [|assumption | pose proof (midnight_room tz z Hz Ba); lia].
  split; [reflexivity|].
  remember (z * msPerDay + msPerHour) as c eqn:Ec.
  unfold validZone in Hz.
  split.
  - intros Ht.
    assert (Dc : Day (LocalTime tz c) = z)
      by (rewrite Ec; unfold Day, LocalTime, msPerDay, msPerHour, msPerMinute;
          divlia).
    destruct (fields_of_MakeDay y (m - 1) d _ Hm ltac:(lia) Dc) as [Y _].
    fold (localYear tz c) in Y. split; [exact Y|].
    rewrite (checkYear_accepts tz now c) by assumption. now rewrite Y.
  - intros Ht -> ->.
    assert (Dc : Day (LocalTime tz c) = z - 1)
      by (rewrite Ec; unfold Day, LocalTime, msPerDay, msPerHour, msPerMinute;
          divlia).
    assert (Y : localYear tz c = y - 1).
    { unfold localYear, YearFromTime. rewrite Dc. apply YearFromDay_unique.
      subst z. change (1 - 1) with 0. rewrite MakeDay_in_year by lia.
      replace (y - 1 + 1) with y by lia.
      pose proof (DayFromYear_succ (y - 1)) as S.
      replace (y - 1 + 1) with y in S by lia. unfold DaysInYear in S.
      cbv beta iota zeta delta [monthStart].
      destruct (isLeapYear (y - 1)), (isLeapYear y); lia. }
    split; [exact Y|].
    rewrite (checkYear_accepts tz now c) by assumption. rewrite Y. lia.
Qed.

Lemma validation_reads_the_local_year_witness :
  exists c,
    normalizeDate 300 (parseDate 300 "1970-01-01") = Ok (Some c)
    /\ localYear 300 c = 1970 - 1
    /\ (App.checkYear 300 1709210096000 (Some c) = Ok true
        <-> 1971 <= 1970 < localYear 300 1709210096000 + 75).
Proof.
  destruct (validation_reads_the_local_year 300 1709210096000 "1970-01-01"
              1970 1 1 ltac:(unfold validZone; lia)
              ltac:(unfold validClock; lia) eq_refl eq_refl)
    as (c & N & _ & W).
  exists c. split; [exact N|]. apply W; [lia | reflexivity | reflexivity].
Defined.

(** *** The width of a duration *)

Lemma pad2_length n :
  0 <= n < 100 -> String.length (JS.padStart0 2 (JS.toString n)) = 2%nat.
Proof.
  intros H.
  assert (C : forallb (fun k => Nat.eqb (String.length
                                  (JS.padStart0 2 (JS.toString k))) 2) hundred
              = true) by (vm_compute; reflexivity).
  rewrite forallb_forall in C. apply Nat.eqb_eq, C, hundred_In, H.
Qed.

Lemma pad2_zero n :
  0 <= n < 100 -> JS.padStart0 2 (JS.toString n) = "00" -> n = 0.
Proof.
  intros H.
  assert (C : forallb (fun k => negb (String.eqb
                                  (JS.padStart0 2 (JS.toString k)) "00")
                                || (k =? 0)%Z) hundred
              = true) by (vm_compute; reflexivity).
  rewrite forallb_forall in C. specialize (C n (hundred_In n H)).
  intros E. rewrite E in C. cbn in C. now apply Z.eqb_eq.
Qed.

Lemma length_append (a b : string) :
  String.length (a ++ b) = (String.length a + String.length b)%nat.
Proof. induction a as [|c a IH]; cbn; [|rewrite IH]; reflexivity. Qed.

Lemma append_two_chars_inj a1 a2 b1 b2 r r' :
  String a1 (String a2 r) = String b1 (String b2 r') -> r = r'.
Proof. congruence. Qed.

(** X12.  For every duration of a whole number of milliseconds from 0
    up to an hour less than 2^53, [formatMilliseconds] prints seven
    characters; it prints the same for the duration an hour longer; and it
    prints ["00m 00s"] exactly when the rounded-up number of seconds is a
    whole number of hours, so never for less than 3,599,000 ms. *)
Theorem formatMilliseconds_width_and_period :
  forall ms,
    0 <= ms -> ms + 3600000 < 2 ^ 53 ->
    String.length (formatMilliseconds ms) = 7%nat
    /\ formatMilliseconds (ms + 3600000) = formatMilliseconds ms
    /\ (formatMilliseconds ms = "00m 00s" <-> (ms / 1000 + 1) mod 3600 = 0)
    /\ (ms < 3599000 -> formatMilliseconds ms <> "00m 00s").
Proof.
  intros ms H _.
  assert (N : 0 <= ms / 1000 + 1) by divlia.
  set (total := ms / 1000 + 1) in *.
  assert (F : formatMilliseconds ms
              = JS.padStart0 2 (JS.toString (total mod 3600 / 60)) ++ "m "
                ++ JS.padStart0 2 (JS.toString (total mod 60)) ++ "s").
  { unfold formatMilliseconds. cbv zeta. fold total.
    now rewrite !Z.rem_mod_nonneg by lia. }
  assert (Rm : 0 <= total mod 3600 / 60 < 100) by divlia.
  assert (Rs : 0 <= total mod 60 < 100) by divlia.
  assert (Z0 : formatMilliseconds ms = "00m 00s" <-> total mod 3600 = 0).
  { rewrite F. split.
    - intros E.
      pose proof (pad2_length _ Rm) as Lm. pose proof (pad2_length _ Rs) as Ls.
      destruct (JS.padStart0 2 (JS.toString (total mod 3600 / 60)))
        as [|m1 [|m2 [|]]] eqn:Pm; try discriminate Lm.
      destruct (JS.padStart0 2 (JS.toString (total mod 60)))
        as [|s1 [|s2 [|]]] eqn:Ps; try discriminate Ls.
      cbn in E.
      assert (Em : String m1 (String m2 EmptyString) = "00") by congruence.
      assert (Es : String s1 (String s2 EmptyString) = "00") by congruence.
      rewrite <- Pm in Em. rewrite <- Ps in Es.
      apply pad2_zero in Em; [|assumption]. apply pad2_zero in Es; [|assumption].
      divlia.
    - intros E.
      replace (total mod 3600 / 60) with 0 by divlia.
      replace (total mod 60) with 0 by divlia. reflexivity. }
  split; [|split; [|split]].
  - rewrite F, !length_append, !pad2_length by assumption. reflexivity.
  - unfold formatMilliseconds. cbv zeta.
    replace ((ms + 3600000) / 1000 + 1) with (total + 3600) by (subst total; divlia).
    rewrite !Z.rem_mod_nonneg by lia. fold total.
    replace ((total + 3600) mod 3600) with (total mod 3600) by divlia.
    replace ((total + 3600) mod 60) with (total mod 60) by divlia.
    reflexivity.
  - exact Z0.
  - intros L E. apply Z0 in E. subst total. divlia.
Qed.

Lemma formatMilliseconds_width_and_period_witness :
  String.length (formatMilliseconds 7200999) = 7%nat
  /\ formatMilliseconds (7200999 + 3600000) = formatMilliseconds 7200999
  /\ (formatMilliseconds 7200999 = "00m 00s"
      <-> (7200999 / 1000 + 1) mod 3600 = 0)
  /\ (7200999 < 3599000 -> formatMilliseconds 7200999 <> "00m 00s").
Proof.
  apply (formatMilliseconds_width_and_period 7200999); [lia | reflexivity].
Defined.

End TimeMore.

(** ** Runs: the commit, the loop, the guards of [mod.ts] *)
Module RunMore.
Import JSDate DateFns L_time Spec Vocabulary Run App.
Import RunFacts.
Local Open Scope string_scope.

Section AnyHost.
Variable W : Type.
Variable spawn : list string -> W -> (output + string) * W.
Variables (tz now : Z) (futureNowString : string) (cfg : config).

Lemma runCommand_rejected args w msg h :
  spawn args (host w) = (inr msg, h) ->
  runCommand W spawn args w
  = (Raised (SpawnFailed msg), mkWorld h (issued w ++ [args])).
Proof. intros E. unfold runCommand. now rewrite E. Qed.

Lemma commit_all_spawned date w o1 h1 o2 h2 o3 h :
  spawn ["echo"; (quote ++ date ++ quote)%string; ">"; targetFile cfg] (host w)
  = (inl o1, h1) ->
  spawn ["git"; "add"; "."] h1 = (inl o2, h2) ->
  spawn ["git"; "commit"; "--quiet"; "--date"; date; "-m"; date] h2 = (inl o3, h) ->
  commit W spawn cfg date w
  = (Done o3, mkWorld h (issued w ++ commitCommands cfg date)).
Proof.
  intros E1 E2 E3. unfold commit, commitCommands.
  unfold tryCatch, bind. rewrite (runCommand_spawned W spawn _ _ _ _ E1).
  rewrite (runCommand_spawned W spawn ["git"; "add"; "."]
             (mkWorld h1 (issued w ++
                [["echo"; (quote ++ date ++ quote)%string; ">"; targetFile cfg]]))
             o2 h2 E2).
  cbn [issued].
  rewrite (runCommand_spawned W spawn
             ["git"; "commit"; "--quiet"; "--date"; date; "-m"; date]
             (mkWorld h2 ((issued w ++
                [["echo"; (quote ++ date ++ quote)%string; ">"; targetFile cfg]])
                ++ [["git"; "add"; "."]])) o3 h E3).
  cbn [issued]. now rewrite <- !app_assoc.
Qed.

(** X13.  [commit] runs [echo], [git add] and [git commit] in this order
    and stops at the first one that cannot be spawned: the later ones are
    not run, and the error is wrapped once by each [catch] it passes, so a
    rejected [echo] surfaces as a git-commit error around a git-add error
    around an echo error.  When all three are spawned the commit succeeds,
    whatever their exit codes. *)
Theorem commit_stops_at_the_first_rejected_command :
  forall date w,
    let echo := ["echo"; quote ++ date ++ quote; ">"; targetFile cfg] in
    let add := ["git"; "add"; "."] in
    let commitCmd := ["git"; "commit"; "--quiet"; "--date"; date; "-m"; date] in
    (forall msg h,
        spawn echo (host w) = (inr msg, h) ->
        commit W spawn cfg date w
        = (Raised (GitCommitError date
                     (GitAddError date (EchoError date (SpawnFailed msg)))),
           mkWorld h (issued w ++ [echo])))
    /\ (forall o1 h1 msg h,
           spawn echo (host w) = (inl o1, h1) ->
           spawn add h1 = (inr msg, h) ->
           commit W spawn cfg date w
           = (Raised (GitCommitError date (GitAddError date (SpawnFailed msg))),
              mkWorld h (issued w ++ [echo; add])))
    /\ (forall o1 h1 o2 h2 msg h,
           spawn echo (host w) = (inl o1, h1) ->
           spawn add h1 = (inl o2, h2) ->
           spawn commitCmd h2 = (inr msg, h) ->
           commit W spawn cfg date w
           = (Raised (GitCommitError date (SpawnFailed msg)),
              mkWorld h (issued w ++ [echo; add; commitCmd])))
    /\ (forall o1 h1 o2 h2 o3 h,
           spawn echo (host w) = (inl o1, h1) ->
           spawn add h1 = (inl o2, h2) ->
           spawn commitCmd h2 = (inl o3, h) ->
           commit W spawn cfg date w
           = (Done o3, mkWorld h (issued w ++ [echo; add; commitCmd]))).
Proof.
  intros date w echo add commitCmd.
  unfold commit. fold echo add commitCmd.
  repeat split.
  - intros msg h E.
    unfold tryCatch, bind. rewrite (runCommand_rejected _ _ _ _ E).
    reflexivity.
  - intros o1 h1 msg h E1 E2.
    unfold tryCatch, bind. rewrite (runCommand_spawned W spawn _ _ _ _ E1).
    rewrite (runCommand_rejected add (mkWorld h1 (issued w ++ [echo])) msg h E2).
    cbn [raise issued]. now rewrite <- app_assoc.
  - intros o1 h1 o2 h2 msg h E1 E2 E3.
    unfold tryCatch, bind. rewrite (runCommand_spawned W spawn _ _ _ _ E1).
    rewrite (runCommand_spawned W spawn add
               (mkWorld h1 (issued w ++ [echo])) o2 h2 E2).
    cbn [issued].
    rewrite (runCommand_rejected commitCmd
               (mkWorld h2 ((issued w ++ [echo]) ++ [add])) msg h E3).
    cbn [raise issued]. now rewrite <- !app_assoc.
  - intros o1 h1 o2 h2 o3 h E1 E2 E3.
    exact (commit_all_spawned date w o1 h1 o2 h2 o3 h E1 E2 E3).
Qed.

(** *** The loop of [processDateStrings] *)

Lemma commit_not_exited date w :
  fst (commit W spawn cfg date w) <> Exited.
Proof.
  unfold commit, tryCatch, bind, runCommand, raise.
  repeat match goal with
         | |- context [spawn ?a ?x] => destruct (spawn a x) as [[?|?] ?]
         end; cbn; discriminate.
Qed.

Lemma commit_issues_echo_first date w :
  exists cmds,
    issued (snd (commit W spawn cfg date w))
    = (issued w ++ ["echo"; (quote ++ date ++ quote)%string; ">"; targetFile cfg] :: cmds)%list.
Proof.
  unfold commit, tryCatch, bind, runCommand, raise.
  repeat match goal with
         | |- context [spawn ?a ?x] => destruct (spawn a x) as [[?|?] ?]
         end; cbn [snd issued]; rewrite <- ?app_assoc; cbn [app];
    eexists; reflexivity.
Qed.

Lemma commitOne_lenient date w :
  let_it_go cfg = true ->
  fst (commitOne W spawn cfg date w) = Done tt
  /\ exists cmds,
       issued (snd (commitOne W spawn cfg date w))
       = (issued w ++ ["echo"; (quote ++ date ++ quote)%string; ">"; targetFile cfg]
                        :: cmds)%list.
Proof.
  intros L. pose proof (commit_not_exited date w) as N.
  destruct (commit_issues_echo_first date w) as (cmds & I).
  unfold commitOne, tryCatch, bind.
  destruct (commit W spawn cfg date w) as [[o|e|] w1]; cbn [fst snd] in *.
  - split; [reflexivity | now exists cmds].
  - rewrite L. split; [reflexivity | now exists cmds].
  - contradiction.
Qed.

Lemma processDateStrings_issued_grows dates w :
  exists cmds,
    issued (snd (processDateStrings W spawn cfg dates w)) = (issued w ++ cmds)%list.
Proof.
  assert (H : issuesOnly (fun _ => true) (processDateStrings W spawn cfg dates)).
  { induction dates as [|d r IH]; cbn [processDateStrings]; [issues|].
    apply issuesOnly_bind; [|intros _; exact IH].
    unfold commitOne, commit. issues. }
  destruct (H w) as (cmds & E & _). now exists cmds.
Qed.

Lemma lenient_loop_never_throws dates :
  let_it_go cfg = true ->
  forall w, fst (processDateStrings W spawn cfg dates w) = Done tt.
Proof.
  intros L. induction dates as [|d r IH]; intros w; [reflexivity|].
  destruct (commitOne_lenient d w L) as (S1 & _).
  cbn [processDateStrings]. unfold bind.
  destruct (commitOne W spawn cfg d w) as [[[]|e|] w1];
    cbn [fst] in S1; try discriminate S1. apply IH.
Qed.

(** X14.  With [let-it-go] the loop of [processDateStrings] never throws,
    on any host, and attempts every date: the [echo] of each date of the
    list is run, whether or not commits before it failed. *)
Theorem lenient_loop_attempts_every_date :
  let_it_go cfg = true ->
  forall dates w,
    fst (processDateStrings W spawn cfg dates w) = Done tt
    /\ forall date,
         In date dates ->
         In ["echo"; (quote ++ date ++ quote)%string; ">"; targetFile cfg]
            (issued (snd (processDateStrings W spawn cfg dates w))).
Proof.
  intros L dates. induction dates as [|d r IH]; intros w.
  - split; [reflexivity | intros ? []].
  - destruct (commitOne_lenient d w L) as (S1 & cmds & I1).
    cbn [processDateStrings]. unfold bind.
    destruct (commitOne W spawn cfg d w) as [[[]|e|] w1];
      cbn [fst snd] in *; try discriminate S1.
    destruct (IH w1) as (S2 & A). split; [exact S2|].
    intros date [<- | Hin]; [|now apply A].
    destruct (processDateStrings_issued_grows r w1) as (more & ->).
    rewrite I1. apply in_or_app. left. apply in_or_app. right. now left.
Qed.

(** *** A host that spawns everything *)

Lemma commit_spawned date w :
  neverRejects spawn ->
  exists o w',
    commit W spawn cfg date w = (Done o, w')
    /\ issued w' = (issued w ++ commitCommands cfg date)%list.
Proof.
  intros H. unfold commitCommands.
  destruct (H ["echo"; (quote ++ date ++ quote)%string; ">"; targetFile cfg] (host w))
    as (o1 & h1 & E1).
  destruct (H ["git"; "add"; "."] h1) as (o2 & h2 & E2).
  destruct (H ["git"; "commit"; "--quiet"; "--date"; date; "-m"; date] h2)
    as (o3 & h3 & E3).
  eexists _, _. split;
    [exact (commit_all_spawned date w _ _ _ _ _ _ E1 E2 E3) | reflexivity].
Qed.

Lemma processDateStrings_spawned dates :
  neverRejects spawn ->
  forall w,
    exists w',
      processDateStrings W spawn cfg dates w = (Done tt, w')
      /\ issued w' = (issued w ++ flat_map (commitCommands cfg) dates)%list.
Proof.
  intros H. induction dates as [|d r IH]; intros w.
  - exists w. split; [reflexivity|]. cbn. now rewrite app_nil_r.
  - destruct (commit_spawned d w H) as (o & w1 & E1 & I1).
    destruct (IH w1) as (w' & E' & I').
    exists w'. split.
    + cbn [processDateStrings]. unfold bind at 1. unfold commitOne.
      rewrite (tryCatch_Done W _ _ w tt w1)
        by (unfold bind; now rewrite E1).
      exact E'.
    + rewrite I', I1. cbn [flat_map]. now rewrite app_assoc.
Qed.

Lemma mapStringify_valid ts :
  exists strings,
    mapStringify tz (map Some ts) = Ok strings
    /\ List.length strings = List.length ts.
Proof.
  induction ts as [|t r (strings & E & L)]; [now exists []|].
  destruct (RangeFacts.stringifyDate_valid tz t) as (s & Es).
  exists (s :: strings). cbn [map mapStringify]. rewrite Es, E.
  split; [reflexivity | cbn; now rewrite L].
Qed.

Lemma filterDates_all_accepted ts :
  validZone tz -> validClock now ->
  forallb (fun t => acceptedYear (localYear tz now) (localYear tz t)) ts = true ->
  filterDates tz now cfg (map Some ts) = Ok (map Some ts).
Proof.
  intros Hz Hn. induction ts as [|t r IH]; [reflexivity|].
  cbn [forallb]. intros H. apply andb_true_iff in H as [Ht Hr].
  cbn [map filterDates].
  rewrite (RangeFacts.acceptable_spec tz now Hz Hn cfg t), Ht, (IH Hr).
  reflexivity.
Qed.

(** X15.  On a host that spawns every command, and for instants that pass
    the validation, the commit phase ends normally, with or without
    [let-it-go] and whatever the exit codes: it reads the head, then runs
    [echo], [git add], [git commit --date d -m d] for each instant in the
    order given, [d] being its [stringifyDate], and nothing else; there is
    no hard reset. *)
Theorem commit_phase_on_a_willing_host :
  neverRejects spawn -> validZone tz -> validClock now ->
  forall ts w,
    forallb (fun t => acceptedYear (localYear tz now) (localYear tz t)) ts = true ->
    exists strings,
      mapStringify tz (map Some ts) = Ok strings
      /\ List.length strings = List.length ts
      /\ fst (commitPhase W spawn tz now cfg (map Some ts) w) = Done tt
      /\ issued (snd (commitPhase W spawn tz now cfg (map Some ts) w))
         = (issued w ++ ["git"; "rev-parse"; "HEAD"]
                          :: flat_map (commitCommands cfg) strings)%list.
Proof.
  intros H Hz Hn ts w A.
  destruct (mapStringify_valid ts) as (strings & Em & Lm).
  exists strings. split; [exact Em|]. split; [exact Lm|].
  destruct (H ["git"; "rev-parse"; "HEAD"] (host w)) as (o & h & Es).
  unfold commitPhase.
  rewrite (bind_Done _ _ _ _ _ _ (getCurrentCommitHash_spawned W spawn _ _ _ Es)).
  destruct (processDateStrings_spawned strings H
              (mkWorld h (issued w ++ [["git"; "rev-parse"; "HEAD"]])))
    as (w' & Ep & Ip).
  rewrite (tryCatch_Done W _ _ _ tt w').
  - split; [reflexivity|]. cbn [snd]. rewrite Ip. cbn [issued].
    now rewrite <- app_assoc.
  - unfold processDates. rewrite (filterDates_all_accepted ts Hz Hn A).
    cbn [lift]. unfold bind at 1. cbn [ret]. rewrite Em.
    cbn [lift]. unfold bind at 1. cbn [ret]. exact Ep.
Qed.

(** X16.  With [let-it-go] the commit phase never resets: for valid
    instants, on any host, it issues no hard reset, whatever fails. *)
Theorem lenient_commit_phase_never_resets :
  let_it_go cfg = true -> validZone tz -> validClock now ->
  forall ts w,
    exists cmds,
      issued (snd (commitPhase W spawn tz now cfg (map Some ts) w))
      = (issued w ++ cmds)%list
      /\ forallb noHardReset cmds = true.
Proof.
  intros L Hz Hn ts w.
  assert (PD : forall dates,
             issuesOnly noHardReset (processDateStrings W spawn cfg dates)).
  { induction dates as [|d r IH]; cbn [processDateStrings]; [issues|].
    apply issuesOnly_bind; [|intros _; exact IH].
    unfold commitOne, commit. issues. }
  destruct (mapStringify_valid
              (filter (fun t => acceptedYear (localYear tz now) (localYear tz t)) ts))
    as (strings & Em & _).
  assert (E : processDates W spawn tz now cfg (map Some ts)
              = processDateStrings W spawn cfg strings).
  { unfold processDates.
    rewrite (RangeFacts.filterDates_lenient tz now Hz Hn cfg ts L). cbn [lift].
    unfold bind at 1. cbn [ret]. rewrite Em. reflexivity. }
  unfold commitPhase. rewrite E.
  assert (G : issuesOnly noHardReset
                (bind (getCurrentCommitHash W spawn)
                   (fun h => tryCatch (processDateStrings W spawn cfg strings)
                               (fun _ => ret tt)))).
  { apply issuesOnly_bind; [unfold getCurrentCommitHash; issues | intros h].
    apply issuesOnly_tryCatch; [apply PD | intros; issues]. }
  destruct (G w) as (cmds & Ei & F). exists cmds. split; [|exact F].
  rewrite <- Ei. unfold bind, tryCatch.
  destruct (getCurrentCommitHash W spawn w) as [[h|e|] w1]; try reflexivity.
  pose proof (lenient_loop_never_throws strings L w1) as S.
  destruct (processDateStrings W spawn cfg strings w1) as [[[]|e|] w2];
    cbn [fst] in S; try discriminate S. reflexivity.
Qed.

(** *** The guards of [mod.ts] *)

(** X17.  Without git nothing else runs.  When [git --version] cannot be
    spawned or exits with another code than 0, the body of the program
    ends with the error "cannot continue without Git" after the two
    availability checks, [git --version] and [echo test], and no other
    command. *)
Theorem without_git_nothing_else_runs :
  help cfg = false ->
  forall w,
    gitAnswers spawn (host w) = false ->
    fst (mainBody W spawn tz now futureNowString cfg w) = Raised GitUnavailable
    /\ issued (snd (mainBody W spawn tz now futureNowString cfg w))
       = (issued w ++ [["git"; "--version"]; ["echo"; "test"]])%list.
Proof.
  intros Hh w G. unfold gitAnswers in G.
  unfold mainBody, beforeSnapshot, preflight, checkCommandAvailability, check.
  rewrite Hh. unfold bind, tryCatch, ret, raise, runCommand.
  destruct (spawn ["git"; "--version"] (host w)) as [[o|m] h1]; cbn [host issued].
  - rewrite G.
    destruct (spawn ["echo"; "test"] h1) as [[o2|m2] h2]; cbn [fst snd issued];
      rewrite <- app_assoc; split; reflexivity.
  - destruct (spawn ["echo"; "test"] h1) as [[o2|m2] h2]; cbn [fst snd issued];
      rewrite <- app_assoc; split; reflexivity.
Qed.

(** X18.  With no dates given, or with [no-commit], the program does what
    the pre-flight does and nothing more: the world it leaves is the one
    the pre-flight leaves (so the repository may have been initialised,
    cleansed, bootstrapped or squashed), there is no snapshot, commit or
    hard reset, and the body never ends normally: it exits or throws. *)
Theorem without_dates_only_the_preflight_runs :
  help cfg = false ->
  positional cfg = [] \/ no_commit cfg = true ->
  forall w,
    snd (mainBody W spawn tz now futureNowString cfg w)
    = snd (preflight W spawn futureNowString cfg w)
    /\ fst (mainBody W spawn tz now futureNowString cfg w) <> Done tt.
Proof.
  intros Hh C w.
  unfold mainBody, beforeSnapshot. rewrite Hh.
  unfold bind, ret, exit, lift.
  destruct (preflight W spawn futureNowString cfg w) as [[[]|e|] w1];
    cbn [fst snd]; try (split; [reflexivity | discriminate]).
  destruct (positional cfg) as [|item rest] eqn:P.
  - cbn. split; [reflexivity | discriminate].
  - destruct C as [C | C]; [congruence|]. rewrite C.
    destruct (Resolver.resolve tz (direction cfg) (item :: rest)) as [ds|e];
      cbn; split; try reflexivity; discriminate.
Qed.

(** X19.  What the commit phase returns.  If the head cannot be read, it
    throws before any commit or reset is run.  If [processDates] throws,
    the hard reset to the hash read is the last command: when it cannot be
    spawned the phase throws the hard-reset error around the spawn error,
    and when it is spawned the phase ends normally, whatever exit code the
    reset returns. *)
Theorem commit_phase_outcomes :
  forall dates w,
    (forall msg h,
        spawn ["git"; "rev-parse"; "HEAD"] (host w) = (inr msg, h) ->
        commitPhase W spawn tz now cfg dates w
        = (Raised (CurrentHashError (SpawnFailed msg)),
           mkWorld h (issued w ++ [["git"; "rev-parse"; "HEAD"]])))
    /\ (forall out h e w2,
           spawn ["git"; "rev-parse"; "HEAD"] (host w) = (inl out, h) ->
           processDates W spawn tz now cfg dates
             (mkWorld h (issued w ++ [["git"; "rev-parse"; "HEAD"]]))
           = (Raised e, w2) ->
           let reset := ["git"; "reset"; "--hard"; JS.trim (stdout out)] in
           (forall msg h',
               spawn reset (host w2) = (inr msg, h') ->
               commitPhase W spawn tz now cfg dates w
               = (Raised (HardResetError (JS.trim (stdout out)) (SpawnFailed msg)),
                  mkWorld h' (issued w2 ++ [reset])))
           /\ (forall o h',
                  spawn reset (host w2) = (inl o, h') ->
                  commitPhase W spawn tz now cfg dates w
                  = (Done tt, mkWorld h' (issued w2 ++ [reset])))).
Proof.
  intros dates w. split.
  - intros msg h E. unfold commitPhase, getCurrentCommitHash.
    apply bind_Raised. unfold tryCatch, bind.
    now rewrite (runCommand_rejected _ _ _ _ E).
  - intros out h e w2 Es Ep reset. subst reset. unfold commitPhase.
    rewrite (bind_Done _ _ _ _ _ _ (getCurrentCommitHash_spawned W spawn _ _ _ Es)).
    rewrite (tryCatch_Raised W _ _ _ e w2 Ep). split.
    + intros msg h' Er. unfold hardResetToCommit, tryCatch, bind.
      now rewrite (runCommand_rejected _ _ _ _ Er).
    + intros o h' Er. now apply (hardResetToCommit_spawned W spawn _ _ o).
Qed.

(** X20.  Every commit the pre-flight creates carries the sentinel date:
    on any host and with any flags, the pre-flight runs no hard reset, and
    each [git commit] it runs (bootstrap, cleanse or squash) is dated
    [futureNowString]. *)
Theorem preflight_commits_carry_the_sentinel_date :
  issuesOnly (commitsOnlyAt futureNowString)
    (preflight W spawn futureNowString cfg).
Proof.
  unfold preflight, checkCommandAvailability, check, isGitRepository,
    initializeGitRepository, isRepositoryClean, cleanRepository,
    getCommitCount, createInitialCommit, resetRepository, commit.
  repeat first
    [ apply issuesOnly_ret | apply issuesOnly_raise | apply issuesOnly_exit
    | apply issuesOnly_lift
    | apply issuesOnly_runCommand;
        cbv beta iota zeta delta [commitsOnlyAt isHardReset isGitCommit
                                   afterFlag hd_error];
        cbn [String.eqb Ascii.eqb Bool.eqb andb orb negb];
        rewrite ?String.eqb_refl; reflexivity
    | apply issuesOnly_bind; [|intros ?]
    | apply issuesOnly_tryCatch; [|intros ?]
    | match goal with
      | |- issuesOnly _ (if ?b then _ else _) => destruct b
      | |- issuesOnly _ (match ?x with _ => _ end) => destruct x
      end ].
Qed.

End AnyHost.

(** *** Runs on the in-memory hosts *)

(** One date on a branch of two commits, with the first, the second, the
    third or no spawn rejected. *)
Lemma commit_stops_at_the_first_rejected_command_witness :
  let cfg := Scenario.strict [] in
  let d := "1990-12-23T01:00:00Z" in
  let run faults := commit Fake.repo Fake.spawn cfg d (Fake.start (Fake.fresh 2 faults)) in
  fst (run [0%nat])
  = Raised (GitCommitError d (GitAddError d (EchoError d (SpawnFailed "spawn failed"))))
  /\ List.length (issued (snd (run [0%nat]))) = 1%nat
  /\ fst (run [1%nat]) = Raised (GitCommitError d (GitAddError d (SpawnFailed "spawn failed")))
  /\ List.length (issued (snd (run [1%nat]))) = 2%nat
  /\ fst (run [2%nat]) = Raised (GitCommitError d (SpawnFailed "spawn failed"))
  /\ List.length (issued (snd (run [2%nat]))) = 3%nat
  /\ fst (run []) = Done (mkOutput 0 EmptyString EmptyString)
  /\ issued (snd (run [])) = commitCommands cfg d.
Proof.
  intros cfg d run.
  pose proof (fun faults =>
                commit_stops_at_the_first_rejected_command
                  Fake.repo Fake.spawn cfg d (Fake.start (Fake.fresh 2 faults))) as T.
  cbv zeta in T. fold (run) in T.
  destruct (T [0%nat]) as (A & _).
  destruct (T [1%nat]) as (_ & B & _).
  destruct (T [2%nat]) as (_ & _ & C & _).
  destruct (T []) as (_ & _ & _ & D).
  unfold run.
  rewrite (A _ _ eq_refl), (B _ _ _ _ eq_refl eq_refl),
    (C _ _ _ _ _ _ eq_refl eq_refl eq_refl),
    (D _ _ _ _ _ _ eq_refl eq_refl eq_refl).
  repeat split.
Defined.

(** Two dates on a host that rejects the first [echo]: the loop ends
    normally and the second date is still attempted. *)
Lemma lenient_loop_attempts_every_date_witness :
  let cfg := lenient [] in
  let dates := ["1990-12-23T01:00:00Z"; "1990-12-24T01:00:00Z"] in
  let w := Fake.start (Fake.fresh 2 [0%nat]) in
  fst (processDateStrings Fake.repo Fake.spawn cfg dates w) = Done tt
  /\ In ["echo"; (quote ++ "1990-12-24T01:00:00Z" ++ quote)%string; ">"; "foo"]
        (issued (snd (processDateStrings Fake.repo Fake.spawn cfg dates w))).
Proof.
  intros cfg dates w.
  destruct (lenient_loop_attempts_every_date Fake.repo Fake.spawn cfg eq_refl dates w)
    as [A B].
  split; [exact A|].
  apply (B "1990-12-24T01:00:00Z"). simpl. right. left. reflexivity.
Defined.

(** One instant on the host that answers 1 to everything. *)
Lemma commit_phase_on_a_willing_host_witness :
  let cfg := Scenario.strict [] in
  let w := mkWorld 0%nat [] in
  exists strings,
    mapStringify 0 (map Some [661914000000]) = Ok strings
    /\ List.length strings = 1%nat
    /\ fst (commitPhase nat obliging 0 Scenario.clock cfg (map Some [661914000000]) w)
       = Done tt
    /\ issued (snd (commitPhase nat obliging 0 Scenario.clock cfg
                      (map Some [661914000000]) w))
       = (issued w ++ ["git"; "rev-parse"; "HEAD"]
                        :: flat_map (commitCommands cfg) strings)%list.
Proof.
  intros cfg w.
  apply (commit_phase_on_a_willing_host nat obliging 0 Scenario.clock cfg).
  - intros args x. exists (mkOutput 1 EmptyString EmptyString), (S x). reflexivity.
  - unfold validZone. lia.
  - unfold validClock, Scenario.clock. lia.
  - vm_compute. reflexivity.
Defined.

(** One instant, every spawn after the snapshot rejected. *)
Lemma lenient_commit_phase_never_resets_witness :
  let cfg := lenient [] in
  let w := Fake.start (Fake.fresh 2 [1%nat; 2%nat]) in
  exists cmds,
    issued (snd (commitPhase Fake.repo Fake.spawn 0 Scenario.clock cfg
                   (map Some [661914000000]) w))
    = (issued w ++ cmds)%list
    /\ forallb noHardReset cmds = true.
Proof.
  intros cfg w.
  apply (lenient_commit_phase_never_resets Fake.repo Fake.spawn 0 Scenario.clock cfg).
  - reflexivity.
  - unfold validZone. lia.
  - unfold validClock, Scenario.clock. lia.
Defined.

(** A host on which [git --version] cannot be spawned. *)
Lemma without_git_nothing_else_runs_witness :
  let cfg := Scenario.strict ["1990-12-23"] in
  let w := Fake.start (Fake.fresh 2 [0%nat]) in
  fst (mainBody Fake.repo Fake.spawn 0 Scenario.clock Scenario.futureNowString cfg w)
  = Raised GitUnavailable
  /\ issued (snd (mainBody Fake.repo Fake.spawn 0 Scenario.clock
                    Scenario.futureNowString cfg w))
     = (issued w ++ [["git"; "--version"]; ["echo"; "test"]])%list.
Proof.
  intros cfg w.
  apply (without_git_nothing_else_runs Fake.repo Fake.spawn 0 Scenario.clock
           Scenario.futureNowString cfg).
  - reflexivity.
  - reflexivity.
Defined.

(** No date on the command line, a clean repository of two commits. *)
Lemma without_dates_only_the_preflight_runs_witness :
  let cfg := Scenario.strict [] in
  let w := Fake.start (Fake.fresh 2 []) in
  snd (mainBody Fake.repo Fake.spawn 0 Scenario.clock Scenario.futureNowString cfg w)
  = snd (preflight Fake.repo Fake.spawn Scenario.futureNowString cfg w)
  /\ fst (mainBody Fake.repo Fake.spawn 0 Scenario.clock Scenario.futureNowString cfg w)
     <> Done tt.
Proof.
  intros cfg w.
  apply (without_dates_only_the_preflight_runs Fake.repo Fake.spawn 0 Scenario.clock
           Scenario.futureNowString cfg).
  - reflexivity.
  - left. reflexivity.
Defined.

(** One instant on a branch of two commits: the snapshot rejected; the
    [echo] rejected and the reset spawned; the [echo] and the reset both
    rejected. *)
Lemma commit_phase_outcomes_witness :
  let cfg := Scenario.strict [] in
  let dates := [Some 661914000000] in
  let run faults :=
    commitPhase Fake.repo Fake.spawn 0 Scenario.clock cfg dates
      (Fake.start (Fake.fresh 2 faults)) in
  fst (run [0%nat]) = Raised (CurrentHashError (SpawnFailed "spawn failed"))
  /\ List.length (issued (snd (run [0%nat]))) = 1%nat
  /\ fst (run [1%nat]) = Done tt
  /\ Fake.commits (host (snd (run [1%nat]))) = [1%nat; 2%nat]
  /\ fst (run [1%nat; 2%nat])
     = Raised (HardResetError "ccc" (SpawnFailed "spawn failed")).
Proof.
  intros cfg dates run.
  pose proof (fun faults =>
                commit_phase_outcomes Fake.repo Fake.spawn 0 Scenario.clock cfg
                  dates (Fake.start (Fake.fresh 2 faults))) as T.
  destruct (T [0%nat]) as (A & _).
  destruct (T [1%nat]) as (_ & B).
  destruct (T [1%nat; 2%nat]) as (_ & C).
  clear T.
  set (d := "1990-12-23T01:00:00Z").
  set (e := CommitFailed d (GitCommitError d (GitAddError d (EchoError d (SpawnFailed "spawn failed"))))).
  set (out := mkOutput 0 ("ccc" ++ Fake.newline) EmptyString).
  set (revParse := ["git"; "rev-parse"; "HEAD"]).
  set (h1 := snd (Fake.spawn revParse (Fake.fresh 2 [1%nat]))).
  set (h2 := snd (Fake.spawn revParse (Fake.fresh 2 [1%nat; 2%nat]))).
  assert (S1 : Fake.spawn revParse (host (Fake.start (Fake.fresh 2 [1%nat])))
               = (inl out, h1)) by (vm_compute; reflexivity).
  assert (S2 : Fake.spawn revParse (host (Fake.start (Fake.fresh 2 [1%nat; 2%nat])))
               = (inl out, h2)) by (vm_compute; reflexivity).
  set (w1 := mkWorld h1 (issued (Fake.start (Fake.fresh 2 [1%nat])) ++ [revParse])).
  set (w2 := mkWorld h2 (issued (Fake.start (Fake.fresh 2 [1%nat; 2%nat])) ++ [revParse])).
  assert (P1 : processDates Fake.repo Fake.spawn 0 Scenario.clock cfg dates w1
               = (Raised e, snd (processDates Fake.repo Fake.spawn 0 Scenario.clock
                                   cfg dates w1)))
    by (vm_compute; reflexivity).
  assert (P2 : processDates Fake.repo Fake.spawn 0 Scenario.clock cfg dates w2
               = (Raised e, snd (processDates Fake.repo Fake.spawn 0 Scenario.clock
                                   cfg dates w2)))
    by (vm_compute; reflexivity).
  destruct (B out h1 e _ S1 P1) as (_ & B2).
  destruct (C out h2 e _ S2 P2) as (C2 & _).
  unfold run.
  rewrite (A "spawn failed" (snd (Fake.spawn revParse (Fake.fresh 2 [0%nat])))
             ltac:(vm_compute; reflexivity)).
  rewrite (B2 (mkOutput 0 EmptyString EmptyString)
             (snd (Fake.spawn ["git"; "reset"; "--hard"; JS.trim (stdout out)]
                     (host (snd (processDates Fake.repo Fake.spawn 0 Scenario.clock
                                   cfg dates w1)))))
             ltac:(vm_compute; reflexivity)).
  rewrite (C2 "spawn failed"
             (snd (Fake.spawn ["git"; "reset"; "--hard"; JS.trim (stdout out)]
                     (host (snd (processDates Fake.repo Fake.spawn 0 Scenario.clock
                                   cfg dates w2)))))
             ltac:(vm_compute; reflexivity)).
  cbn [fst snd host issued].
  repeat split; vm_compute; reflexivity.
Defined.

End RunMore.

(** ** The flags: [src/config.ts] *)
Module ConfigFacts.
Import Config Spec Run App.
Import RunFacts.
Local Open Scope string_scope.

Lemma get_set {V : Type} (o : object V) k v k' :
  get (set o k v) k' = if String.eqb k k' then Some v else get o k'.
Proof.
  induction o as [|[k0 v0] rest IH]; cbn [set get].
  - reflexivity.
  - destruct (String.eqb_spec k0 k) as [-> | N]; cbn [get].
    + destruct (String.eqb k k'); reflexivity.
    + rewrite IH. destruct (String.eqb_spec k0 k') as [-> | N'].
      * destruct (String.eqb_spec k k'); [congruence | reflexivity].
      * reflexivity.
Qed.

Lemma get_applyDefault o flag d k :
  default flag = Some d ->
  get (applyDefault o flag) k
  = if String.eqb (name flag) k then Some (withDefault d (get o k)) else get o k.
Proof.
  intros E. unfold applyDefault. rewrite E.
  destruct (String.eqb_spec (name flag) k) as [<- | N].
  - destruct (get o (name flag)) as [[|c s]|] eqn:G; cbn [truthy JS.truthy withDefault];
      rewrite ?get_set, ?String.eqb_refl, ?G; reflexivity.
  - destruct (truthy (get o (name flag))); [reflexivity|].
    rewrite get_set. now destruct (String.eqb_spec (name flag) k).
Qed.

Lemma get_applyFallback o flag f k :
  fallback flag = Some f ->
  get (applyFallback o flag) k
  = if String.eqb (name flag) k then Some (withFallback f (get o k)) else get o k.
Proof.
  intros E. unfold applyFallback. rewrite E.
  destruct (String.eqb_spec (name flag) k) as [<- | N].
  - destruct (get o (name flag)) as [[|c s]|] eqn:G; cbn [withFallback String.eqb];
      rewrite ?get_set, ?String.eqb_refl, ?G; reflexivity.
  - destruct (get o (name flag)) as [v|].
    + destruct (String.eqb v EmptyString); [|reflexivity].
      rewrite get_set. now destruct (String.eqb_spec (name flag) k).
    + rewrite get_set. now destruct (String.eqb_spec (name flag) k).
Qed.

Lemma get_postProcess parsedArgs k :
  get (postProcess parsedArgs) k
  = if String.eqb "reset" k then Some (withFallback "RESET" (get parsedArgs k))
    else if String.eqb "cleanse" k
         then Some (withFallback "CLEANSE" (get parsedArgs k))
         else if String.eqb "direction" k
              then Some (withDefault "+" (get parsedArgs k))
              else get parsedArgs k.
Proof.
  unfold postProcess. cbn [stringFlags filter hasDefault hasFallback default
                            fallback fold_left].
  erewrite get_applyFallback by reflexivity. cbn [name].
  destruct (String.eqb_spec "reset" k) as [<- | Nr].
  - erewrite get_applyFallback by reflexivity. cbn [name].
    erewrite get_applyDefault by reflexivity. reflexivity.
  - erewrite get_applyFallback by reflexivity. cbn [name].
    destruct (String.eqb_spec "cleanse" k) as [<- | Nc].
    + erewrite get_applyDefault by reflexivity. reflexivity.
    + erewrite get_applyDefault by reflexivity. reflexivity.
Qed.

(** X21.  The post-processing implements the table of its comment, for
    whatever [parseArgs] returned: [cleanse] and [reset] become the empty
    string when absent, their fallback when given without a value, and
    keep a value given; [direction] becomes ["+"] when absent or empty and
    keeps a value given; so the three are always defined afterwards, and
    no other property is touched. *)
Theorem postProcess_implements_the_table :
  forall parsedArgs,
    let after := postProcess parsedArgs in
    get after "cleanse" = Some (withFallback "CLEANSE" (get parsedArgs "cleanse"))
    /\ get after "reset" = Some (withFallback "RESET" (get parsedArgs "reset"))
    /\ get after "direction" = Some (withDefault "+" (get parsedArgs "direction"))
    /\ forall k,
         k <> "cleanse" -> k <> "reset" -> k <> "direction" ->
         get after k = get parsedArgs k.
Proof.
  intros parsedArgs after. subst after.
  repeat split; try (rewrite get_postProcess; reflexivity).
  intros k Nc Nr Nd. rewrite get_postProcess.
  destruct (String.eqb_spec "reset" k); [congruence|].
  destruct (String.eqb_spec "cleanse" k); [congruence|].
  destruct (String.eqb_spec "direction" k); [congruence|]. reflexivity.
Qed.

Lemma postProcess_implements_the_table_witness :
  let parsedArgs := [("cleanse", EmptyString); ("d", "-"); ("direction", "-")] in
  get (postProcess parsedArgs) "cleanse" = Some "CLEANSE"
  /\ get (postProcess parsedArgs) "reset" = Some EmptyString
  /\ get (postProcess parsedArgs) "direction" = Some "-"
  /\ get (postProcess parsedArgs) "d" = Some "-".
Proof.
  intros parsedArgs.
  destruct (postProcess_implements_the_table parsedArgs) as (A & B & C & D).
  split; [exact A|]. split; [exact B|]. split; [exact C|].
  apply (D "d"); discriminate.
Defined.

(** X22.  Only a flag that was given is truthy.  After the
    post-processing, [config.cleanse] and [config.reset] are truthy
    exactly when the flag is on the command line, with or without a value;
    [config.direction] is always truthy, so the guard [config.direction &&]
    of [mod.ts] never lets an empty direction through as [-1]: the sign is
    [1] for ["+"], also when the flag is absent or empty, [-1] for ["-"],
    and every other value is refused. *)
Theorem only_given_flags_are_truthy :
  forall parsedArgs,
  exists cleanse reset direction,
    get (postProcess parsedArgs) "cleanse" = Some cleanse
    /\ get (postProcess parsedArgs) "reset" = Some reset
    /\ get (postProcess parsedArgs) "direction" = Some direction
    /\ JS.truthy cleanse = negb (isAbsent parsedArgs "cleanse")
    /\ JS.truthy reset = negb (isAbsent parsedArgs "reset")
    /\ JS.truthy direction = true
    /\ direction = withDefault "+" (get parsedArgs "direction")
    /\ Resolver.direction_sign direction
       = if String.eqb direction "+" then Ok 1
         else if String.eqb direction "-" then Ok (-1)
              else Throw InvalidDirection.
Proof.
  intros parsedArgs.
  exists (withFallback "CLEANSE" (get parsedArgs "cleanse")),
         (withFallback "RESET" (get parsedArgs "reset")),
         (withDefault "+" (get parsedArgs "direction")).
  assert (T : JS.truthy (withDefault "+" (get parsedArgs "direction")) = true)
    by now destruct (get parsedArgs "direction") as [[|c s]|].
  split; [rewrite get_postProcess; reflexivity|].
  split; [rewrite get_postProcess; reflexivity|].
  split; [rewrite get_postProcess; reflexivity|].
  split; [unfold isAbsent; now destruct (get parsedArgs "cleanse") as [[|c s]|]|].
  split; [unfold isAbsent; now destruct (get parsedArgs "reset") as [[|c s]|]|].
  split; [exact T|]. split; [reflexivity|].
  unfold Resolver.direction_sign. rewrite T.
  destruct (withDefault "+" (get parsedArgs "direction")) as [|c [|c' s]];
    try discriminate T.
  - destruct c as [[] [] [] [] [] [] [] []]; reflexivity.
  - destruct c as [[] [] [] [] [] [] [] []]; reflexivity.
Qed.

Section AnyHost.
Variable W : Type.
Variable spawn : list string -> W -> (output + string) * W.
Variables (futureNowString : string) (cfg : config).

Lemma plain_allowed allowed args :
  In args allowed ->
  existsb (fun a => if list_eq_dec string_dec a args then true else false) allowed
  = true.
Proof.
  intros H. apply existsb_exists. exists args. split; [exact H|].
  now destruct (list_eq_dec string_dec args args).
Qed.

(** X23.  Without [cleanse] and [reset] the pre-flight rewrites nothing:
    on any host it runs only its read-only checks, [git init], and the
    three commands of the initial commit; no [git reset], no [git add -A],
    and no commit but the one dated [futureNowString] that starts an empty
    history. *)
Theorem plain_preflight_rewrites_nothing :
  noRewriteFlags cfg = true ->
  issuesOnly (plainPreflightCommand futureNowString cfg)
    (preflight W spawn futureNowString cfg).
Proof.
  unfold noRewriteFlags. intros H. apply andb_true_iff in H as [Hc Hr].
  apply negb_true_iff in Hc, Hr.
  unfold preflight. rewrite Hc, Hr.
  unfold checkCommandAvailability, check, isGitRepository,
    initializeGitRepository, isRepositoryClean, getCommitCount,
    createInitialCommit, commit, plainPreflightCommand.
  destruct (endUserInfo cfg) as [[file msg]|];
    repeat first
      [ apply issuesOnly_ret | apply issuesOnly_raise | apply issuesOnly_exit
      | apply issuesOnly_lift
      | apply issuesOnly_runCommand; apply plain_allowed; cbn [app In];
          repeat (first [left; reflexivity | right])
      | apply issuesOnly_bind; [|intros ?]
      | apply issuesOnly_tryCatch; [|intros ?]
      | match goal with
        | |- issuesOnly _ (if ?b then _ else _) => destruct b
        end ].
Qed.

End AnyHost.

Lemma plain_preflight_rewrites_nothing_witness :
  issuesOnly (plainPreflightCommand Scenario.futureNowString (Scenario.strict []))
    (preflight Fake.repo Fake.spawn Scenario.futureNowString (Scenario.strict [])).
Proof.
  apply (plain_preflight_rewrites_nothing Fake.repo Fake.spawn
           Scenario.futureNowString (Scenario.strict [])).
  reflexivity.
Defined.

End ConfigFacts.

(** ** The test of the flag tables: [test/config_test.ts] *)
Module ConfigTestFacts.
Import Config ConfigTest.
Import ConfigFacts.
Local Open Scope string_scope.
Local Open Scope nat_scope.

Lemma get_In {V : Type} (o : object V) k v : get o k = Some v -> In (k, v) o.
Proof.
  induction o as [|[k0 v0] rest IH]; cbn [get]; [discriminate|].
  destruct (String.eqb_spec k0 k) as [-> | N].
  - intros [= ->]. now left.
  - intros H. right. now apply IH.
Qed.

Lemma get_None {V : Type} (o : object V) k : get o k = None -> ~ In k (keys o).
Proof.
  induction o as [|[k0 v0] rest IH]; cbn [get keys map fst]; [tauto|].
  destruct (String.eqb_spec k0 k) as [-> | N]; [discriminate|].
  intros H [E | I]; [congruence | now apply IH].
Qed.

Lemma In_get {V : Type} (o : object V) k v :
  NoDup (keys o) -> In (k, v) o -> get o k = Some v.
Proof.
  induction o as [|[k0 v0] rest IH]; cbn [get keys map fst]; [intros _ []|].
  intros U [E | I].
  - injection E as -> ->. now rewrite String.eqb_refl.
  - inversion U as [|? ? N U']; subst.
    destruct (String.eqb_spec k0 k) as [-> | Nk].
    + exfalso. apply N. change k with (fst (k, v)). now apply in_map.
    + now apply IH.
Qed.

Lemma keys_set {V : Type} (o : object V) k v :
  keys (set o k v)
  = match get o k with Some _ => keys o | None => (keys o ++ [k])%list end.
Proof.
  induction o as [|[k0 v0] rest IH]; cbn [set get keys map fst app].
  - reflexivity.
  - destruct (String.eqb_spec k0 k) as [-> | N]; cbn [map fst].
    + reflexivity.
    + fold (keys (set rest k v)). rewrite IH.
      now destruct (get rest k).
Qed.

Lemma NoDup_keys_set {V : Type} (o : object V) k v :
  NoDup (keys o) -> NoDup (keys (set o k v)).
Proof.
  intros U. rewrite keys_set. destruct (get o k) eqn:G; [exact U|].
  apply NoDup_app; [exact U | repeat constructor; intros [] |].
  intros x Hx [<- | []]. revert Hx. now apply get_None.
Qed.

Lemma filter_nil {A : Type} (f : A -> bool) l :
  filter f l = [] <-> forall x, In x l -> f x = false.
Proof.
  induction l as [|a l IH]; cbn [filter].
  - split; [intros _ x [] | reflexivity].
  - destruct (f a) eqn:F.
    + split; [discriminate|]. intros H. specialize (H a (or_introl eq_refl)).
      congruence.
    + rewrite IH. split.
      * intros H x [<- | I]; [exact F | now apply H].
      * intros H x I. apply H. now right.
Qed.

Lemma counts_push occurrenceMap ks key pushed :
  counts occurrenceMap ks ->
  counts (set occurrenceMap key
            (match get occurrenceMap key with
             | Some occurrences => occurrences ++ [pushed]
             | None => [pushed]
             end)%list)
         (ks ++ [key]).
Proof.
  intros [U C]. split; [now apply NoDup_keys_set|].
  intros k. rewrite get_set, count_occ_app. cbn [count_occ].
  specialize (C k).
  destruct (String.eqb_spec key k) as [-> | N].
  - destruct (string_dec k k); [|congruence].
    destruct (get occurrenceMap k) as [l|].
    + rewrite length_app. cbn. lia.
    + cbn. lia.
  - destruct (string_dec key k); [congruence|].
    destruct (get occurrenceMap k); lia.
Qed.

Lemma visit_counts p arrLabel occurrenceMap ks flagDef :
  counts occurrenceMap ks ->
  (forall key, In key (visited p flagDef) -> inherited key = false) ->
  exists occurrenceMap',
    visit p arrLabel (Some occurrenceMap) flagDef = Some occurrenceMap'
    /\ counts occurrenceMap' (ks ++ visited p flagDef).
Proof.
  intros C H. unfold visit, visited in *.
  destruct (keyOf p flagDef) as [key|]; cbn [Config.truthy].
  - destruct (JS.truthy key).
    + specialize (H key (or_introl eq_refl)).
      pose proof (counts_push occurrenceMap ks key
                    (match p with
                     | PropName => arrLabel
                     | PropAlias => name flagDef ++ " in " ++ arrLabel
                     end)%string C) as C'.
      destruct (get occurrenceMap key) as [l|].
      * eexists. split; [reflexivity | exact C'].
      * rewrite H. eexists. split; [reflexivity | exact C'].
    + exists occurrenceMap. split; [reflexivity | now rewrite app_nil_r].
  - exists occurrenceMap. split; [reflexivity | now rewrite app_nil_r].
Qed.

Lemma inner_counts p arrLabel defs :
  forall occurrenceMap ks,
    counts occurrenceMap ks ->
    (forall key, In key (flat_map (visited p) defs) -> inherited key = false) ->
    exists occurrenceMap',
      fold_left (visit p arrLabel) defs (Some occurrenceMap) = Some occurrenceMap'
      /\ counts occurrenceMap' (ks ++ flat_map (visited p) defs).
Proof.
  induction defs as [|d defs IH]; intros occurrenceMap ks C H.
  - exists occurrenceMap. split; [reflexivity | now rewrite app_nil_r].
  - cbn [flat_map] in *.
    destruct (visit_counts p arrLabel occurrenceMap ks d C) as (o1 & E1 & C1).
    { intros key I. apply H, in_or_app. now left. }
    destruct (IH o1 _ C1) as (o2 & E2 & C2).
    { intros key I. apply H, in_or_app. now right. }
    exists o2. cbn [fold_left]. rewrite E1. split; [exact E2|].
    now rewrite app_assoc.
Qed.

Lemma keysOf_cons p arrLabel defs arrays :
  keysOf p ((arrLabel, defs) :: arrays)
  = (flat_map (visited p) defs ++ keysOf p arrays)%list.
Proof. reflexivity. Qed.

Lemma outer_counts p arrays :
  forall occurrenceMap ks,
    counts occurrenceMap ks ->
    (forall key, In key (keysOf p arrays) -> inherited key = false) ->
    exists occurrenceMap',
      fold_left (visitArray p) arrays (Some occurrenceMap)
      = Some occurrenceMap'
      /\ counts occurrenceMap' (ks ++ keysOf p arrays).
Proof.
  induction arrays as [|[arrLabel defs] arrays IH]; intros occurrenceMap ks C H.
  - exists occurrenceMap. split; [reflexivity | now rewrite app_nil_r].
  - rewrite keysOf_cons in *.
    destruct (inner_counts p arrLabel defs occurrenceMap ks C) as (o1 & E1 & C1).
    { intros key I. apply H, in_or_app. now left. }
    destruct (IH o1 _ C1) as (o2 & E2 & C2).
    { intros key I. apply H, in_or_app. now right. }
    exists o2. cbn [fold_left visitArray]. rewrite E1. split; [exact E2|].
    now rewrite app_assoc.
Qed.

Lemma counts_no_duplicates occurrenceMap ks :
  counts occurrenceMap ks ->
  filter (fun '(_, occurrences) => 1 <? List.length occurrences) occurrenceMap = []
  <-> NoDup ks.
Proof.
  intros [U C]. rewrite filter_nil, (NoDup_count_occ string_dec). split.
  - intros H k. specialize (C k).
    destruct (get occurrenceMap k) as [l|] eqn:G; [|lia].
    specialize (H (k, l) (get_In _ _ _ G)).
    change ((1 <? List.length l) = false) in H.
    apply Nat.ltb_ge in H. lia.
  - intros H [k l] I. change ((1 <? List.length l) = false). apply Nat.ltb_ge.
    specialize (C k). rewrite (In_get _ _ _ U I) in C. specialize (H k). lia.
Qed.

(** X24.  The duplicate check is exact.  Over any flag arrays whose keys
    are no names of functions inherited from [Object.prototype],
    [checkForDuplicates]
    returns exactly when the truthy values of the property (the names, or
    the aliases) are pairwise different across all the arrays, and
    otherwise throws the error with its message. *)
Theorem checkForDuplicates_is_exact :
  forall arrays p errorMsg,
    (forall key, In key (keysOf p arrays) -> inherited key = false) ->
    (checkForDuplicatesIn arrays p errorMsg = Returned
     <-> NoDup (keysOf p arrays))
    /\ (~ NoDup (keysOf p arrays) ->
        checkForDuplicatesIn arrays p errorMsg = DuplicatesFound errorMsg).
Proof.
  intros arrays p errorMsg H.
  assert (C0 : counts [] []) by (split; [constructor | intros k; reflexivity]).
  destruct (outer_counts p arrays [] [] C0 H) as (o & E & C).
  cbn [app] in C. pose proof (counts_no_duplicates o _ C) as D.
  unfold checkForDuplicatesIn.
  match goal with
  | |- context [fold_left ?f ?l ?s] =>
      replace (fold_left f l s) with (Some o) by (symmetry; exact E)
  end.
  destruct (filter _ o) as [|x r].
  - split; [split; [intros _; now apply D | reflexivity]|].
    intros N. exfalso. apply N. now apply D.
  - split; [split; [discriminate|]|reflexivity].
    intros N. apply D in N. discriminate N.
Qed.

(** The two tests of the repository pass on its own tables. *)
Lemma checkForDuplicates_is_exact_witness :
  checkForDuplicates PropName "Duplicate flag name found!" = Returned
  /\ checkForDuplicates PropAlias "Duplicate alias found!" = Returned.
Proof.
  split.
  - apply (checkForDuplicates_is_exact FLAG_ARRAYS PropName).
    + intros key I. cbn in I.
      repeat (destruct I as [<- | I]; [reflexivity|]). destruct I.
    + cbn. repeat (constructor; [cbn; intuition discriminate|]). constructor.
  - apply (checkForDuplicates_is_exact FLAG_ARRAYS PropAlias).
    + intros key I. cbn in I.
      repeat (destruct I as [<- | I]; [reflexivity|]). destruct I.
    + cbn. repeat (constructor; [cbn; intuition discriminate|]). constructor.
Defined.

Lemma visit_None p arrLabel defs :
  fold_left (visit p arrLabel) defs None = None.
Proof. induction defs as [|d defs IH]; [reflexivity | exact IH]. Qed.

Lemma outer_None p arrays :
  fold_left (visitArray p) arrays None
  = None.
Proof.
  induction arrays as [|[arrLabel defs] arrays IH]; [reflexivity|].
  cbn [fold_left visitArray]. now rewrite visit_None.
Qed.

Lemma visit_ownKeys p arrLabel st flagDef :
  ownKeys st -> ownKeys (visit p arrLabel st flagDef).
Proof.
  intros J o' k E I. destruct st as [o|]; [|discriminate E].
  unfold visit in E.
  destruct (keyOf p flagDef) as [key|]; cbn [Config.truthy] in E.
  - destruct (JS.truthy key).
    + destruct (get o key) as [l|] eqn:G.
      * injection E as <-. rewrite keys_set, G in I. now apply (J o).
      * destruct (inherited key) eqn:Ik; [discriminate E|].
        injection E as <-. rewrite keys_set, G in I.
        apply in_app_or in I as [I | [<- | []]]; [now apply (J o) | exact Ik].
    + injection E as <-. now apply (J o).
  - injection E as <-. now apply (J o).
Qed.

Lemma visit_inherited p arrLabel st flagDef key :
  ownKeys st -> In key (visited p flagDef) -> inherited key = true ->
  visit p arrLabel st flagDef = None.
Proof.
  intros J I K. destruct st as [o|]; [|reflexivity].
  unfold visit, visited in *.
  destruct (keyOf p flagDef) as [key'|]; [|destruct I].
  cbn [Config.truthy]. destruct (JS.truthy key'); [|destruct I].
  destruct I as [<- | []].
  destruct (get o key') as [l|] eqn:G.
  - apply get_In in G. specialize (J o key' eq_refl).
    rewrite J in K; [discriminate K|].
    change key' with (fst (key', l)). now apply in_map.
  - now rewrite K.
Qed.

Lemma inner_inherited p arrLabel defs key :
  forall st,
    ownKeys st -> In key (flat_map (visited p) defs) -> inherited key = true ->
    fold_left (visit p arrLabel) defs st = None.
Proof.
  induction defs as [|d defs IH]; intros st J I K; [destruct I|].
  cbn [flat_map] in I. cbn [fold_left].
  apply in_app_or in I as [I | I].
  - rewrite (visit_inherited p arrLabel st d key J I K). apply visit_None.
  - apply IH; [now apply visit_ownKeys | exact I | exact K].
Qed.

Lemma inner_ownKeys p arrLabel defs :
  forall st, ownKeys st -> ownKeys (fold_left (visit p arrLabel) defs st).
Proof.
  induction defs as [|d defs IH]; intros st J; [exact J|].
  cbn [fold_left]. apply IH. now apply visit_ownKeys.
Qed.

(** X25.  A flag named like a function of [Object.prototype] breaks the
    check: as soon as one key is one of [constructor], [hasOwnProperty],
    [isPrototypeOf], [propertyIsEnumerable], [toString], [valueOf],
    [toLocaleString], [__defineGetter__], [__defineSetter__],
    [__lookupGetter__] or [__lookupSetter__], [checkForDuplicates] ends
    with the TypeError of calling [push] on the inherited function,
    duplicates or not.  ([__proto__] is not such a name under Deno.) *)
Theorem checkForDuplicates_breaks_on_inherited_names :
  forall arrays p errorMsg key,
    In key (keysOf p arrays) -> inherited key = true ->
    checkForDuplicatesIn arrays p errorMsg = NotAFunction.
Proof.
  intros arrays p errorMsg key I K. unfold checkForDuplicatesIn.
  assert (E : forall st,
             ownKeys st ->
             fold_left (visitArray p) arrays st
             = None).
  { induction arrays as [|[arrLabel defs] arrays IH]; intros st J; [destruct I|].
    rewrite keysOf_cons in I. cbn [fold_left visitArray].
    apply in_app_or in I as [I | I].
    - rewrite (inner_inherited p arrLabel defs key st J I K). apply outer_None.
    - apply (IH I). now apply inner_ownKeys. }
  match goal with
  | |- context [fold_left ?f ?l ?s] =>
      replace (fold_left f l s) with (@None (object (list string)));
        [reflexivity | symmetry; apply E]
  end.
  intros o k [= <-] [].
Qed.

Lemma checkForDuplicates_breaks_on_inherited_names_witness :
  checkForDuplicatesIn
    [("boolFlags", [mkFlag "help" (Some "h") None None;
                    mkFlag "toString" None None None])]
    PropName "Duplicate flag name found!"
  = NotAFunction.
Proof.
  apply (checkForDuplicates_breaks_on_inherited_names _ _ _ "toString").
  - simpl. right. left. reflexivity.
  - reflexivity.
Defined.

End ConfigTestFacts.

(** ** The logger: [src/U_logger.ts] *)
Module LoggerFacts.
Import U_logger.
Local Open Scope string_scope.

Lemma logAll_spec silent msgs :
  forall st,
    logArray (logAll silent msgs st) = (logArray st ++ msgs)%list
    /\ console (logAll silent msgs st)
       = (console st ++ if silent then [] else msgs)%list.
Proof.
  induction msgs as [|msg msgs IH]; intros st.
  - cbn [logAll fold_left]. destruct silent; rewrite !app_nil_r; split; reflexivity.
  - cbn [logAll fold_left]. fold (logAll silent msgs (doLog silent msg st)).
    destruct (IH (doLog silent msg st)) as [L C]. rewrite L, C.
    unfold doLog. destruct silent; cbn [logArray console];
      rewrite <- ?app_assoc; split; reflexivity.
Qed.

Lemma printLog_console st :
  console (printLog st) = (console st ++ logArray st)%list.
Proof.
  unfold printLog. cbn [console]. generalize (console st) as out.
  induction (logArray st) as [|msg l IH]; intros out; cbn [fold_left].
  - now rewrite app_nil_r.
  - rewrite IH, <- app_assoc. reflexivity.
Qed.

(** X26.  The log is complete and [silent] mutes only the console.
    After [initializeLogger] and any run of [logger.log] calls, [getLog]
    returns the [prelog] messages, the separator line and the messages
    logged, in this order, with and without [silent]; the console has
    received exactly these lines, or nothing when [silent]; and
    [printLog] then prints the whole log once more. *)
Theorem log_is_complete_and_silent_mutes_the_console_only :
  forall silent prelog console0 msgs,
    let st := logAll silent msgs (initializeLogger silent prelog console0) in
    getLog st = (prelog ++ "--------------" :: msgs)%list
    /\ console st = (console0 ++ if silent then [] else getLog st)%list
    /\ console (printLog st) = (console st ++ getLog st)%list
    /\ getLog (printLog st) = getLog st.
Proof.
  intros silent prelog console0 msgs st.
  set (s0 := {| logArray := []; console := console0 |}).
  set (s1 := logAll silent prelog s0).
  set (s2 := logAll silent ["--------------"] s1).
  assert (E : st = logAll silent msgs s2) by reflexivity.
  destruct (logAll_spec silent prelog s0) as [L1 C1].
  destruct (logAll_spec silent ["--------------"] s1) as [L2 C2].
  destruct (logAll_spec silent msgs s2) as [L3 C3].
  fold s1 in L1, C1. fold s2 in L2, C2. rewrite <- E in L3, C3.
  assert (L : logArray st = (prelog ++ "--------------" :: msgs)%list).
  { rewrite L3, L2, L1. cbn [logArray app]. now rewrite <- app_assoc. }
  unfold getLog. rewrite printLog_console.
  split; [exact L|]. split; [|split; reflexivity].
  rewrite C3, C2, C1, L. cbn [console].
  destruct silent; rewrite ?app_nil_r; [reflexivity|].
  now rewrite <- !app_assoc.
Qed.

End LoggerFacts.

(** ** [UNUSED_drawDate] *)
Module DrawingFacts.
Import JSDate DateFns L_time Resolver Spec Vocabulary Drawing.
Import JSDateFacts TokenFacts TimeFacts StepFacts ResolverFacts ResolverMore TimeMore.
Local Open Scope string_scope.








End DrawingFacts.
